(** * Portfolio rebalancing: a shallow embedding of the Python sources

    The development follows the repository's layout:
    - [domain.py]            : [Segment], [Asset], [Portfolio]
    - [instance_manager.py]  : [InstanceManager.from_csv], [InstanceManager.new_portfolio]
    - [portfolio_optimizer.py], [entry_point.py] : the Xpress pipeline
    - [advent_of_or.py], [main.py] : the GAMSPy formulation and its solve protocol

    Number model.  Python floats are idealised as exact rationals [Q]; sums are
    compared with [Qeq] ([==]).  Python's built-in [round] on a float is
    round-half-to-even and returns an [int]; it is [py_round : Q -> Z].

    Container model.  A Python [dict] keeps insertion order and overwrites in
    place; it is an association list with [dict_get] / [dict_set].  A failed
    subscript raises [KeyError]; fallible code lives in the [res] monad.  A
    [pd.DataFrame] built from a list of row dicts has the columns of those
    dicts, and none when the list is empty.

    Two levels.  The functions are first embedded on values ([from_csv],
    [new_portfolio], [Asset.add_segment]); [Module Heap] embeds
    [new_portfolio] once more on a heap of objects held by reference, as
    Python has them, and [HeapFacts] shows that it refines the value-level
    function and writes to no object that existed before the call.

    The solvers (Xpress, GAMS) are external: they enter as section variables,
    and the statements hold for every solver.  What the libraries do with the
    calls of the sources is modelled where a statement depends on it:
    [gp.Model(...)] writes the GAMS model statement from the equations it is
    constructed with; [model.addVariables] rejects an empty list of keys;
    [frame.loc] and [frame.set_index] raise [KeyError] on a label or column
    the frame does not have. *)

From stdpp Require Import base list strings.
From Stdlib Require Import ZArith QArith Qround Qabs Lia Lqa.

Local Open Scope Q_scope.

(* ------------------------------------------------------------------ *)
(** ** Exceptions *)

(** The exceptions the modelled code can raise:
    - [KeyError k]: a failed [d[k]] on the allocation dict, keyed by
      (asset id, segment id);
    - [KeyError_loc row column]: the [KeyError] of a failed
      [frame.loc[row, column]], a label the frame does not have;
    - [KeyError_column column]: the [KeyError] of [frame.set_index(column)]
      on a frame without that column;
    - [AddVariablesError]: what [model.addVariables] raises when it is given
      no key;
    - [ZeroDivisionError]: a float division by zero. *)
Inductive exn : Type :=
| KeyError (k : string * string)
| KeyError_loc (row column : string)
| KeyError_column (column : string)
| AddVariablesError
| ZeroDivisionError.

Inductive res (A : Type) : Type :=
| Ok (a : A)
| Raise (e : exn).
Arguments Ok {A} a.
Arguments Raise {A} e.

(** [res] is a monad; [x ← m; k] runs [m] and stops at the first exception. *)
#[global] Instance res_ret : MRet res := fun A a => Ok a.
#[global] Instance res_bind : MBind res := fun A B k m =>
  match m with
  | Ok a => k a
  | Raise e => Raise e
  end.

(** [for x in xs: acc = body(acc, x)] where the body may raise. *)
Fixpoint for_each {A S : Type} (body : S -> A -> res S) (xs : list A) (acc : S)
  : res S :=
  match xs with
  | [] => Ok acc
  | x :: xs' => acc' ← body acc x; for_each body xs' acc'
  end.

(* ------------------------------------------------------------------ *)
(** ** Python dicts *)

Section Dict.
Context {K V : Type} `{EqDecision K}.

Definition dict : Type := list (K * V).

(** [d.get(k)]: the lookup behind [d[k]] and [k in d]. *)
Fixpoint dict_get (k : K) (d : dict) : option V :=
  match d with
  | [] => None
  | (k', v) :: d' => if decide (k = k') then Some v else dict_get k d'
  end.

(** [d[k] = v]: overwrite in place when the key exists, append otherwise. *)
Fixpoint dict_set (k : K) (v : V) (d : dict) : dict :=
  match d with
  | [] => [(k, v)]
  | (k', v') :: d' =>
      if decide (k = k') then (k', v) :: d' else (k', v') :: dict_set k v d'
  end.

(** [d.keys()], [d.values()] in insertion order. *)
Definition dict_keys (d : dict) : list K := map fst d.
Definition dict_values (d : dict) : list V := map snd d.
End Dict.
Arguments dict : clear implicits.

(* ------------------------------------------------------------------ *)
(** ** Numbers *)

(** [x < y] on floats, as a boolean. *)
Definition Qltb (x y : Q) : bool :=
  (Qnum x * QDen y <? Qnum y * QDen x)%Z.

(** Python's [round(x)] for a float [x]: nearest integer, ties to even. *)
Definition py_round (x : Q) : Z :=
  let f := Qfloor x in
  match Qcompare (x - inject_Z f) (1 # 2) with
  | Lt => f
  | Gt => (f + 1)%Z
  | Eq => if Z.even f then f else (f + 1)%Z
  end.

(** Sum of a list of numbers, left to right from [0] (Python's [sum]). *)
Definition Qsum (l : list Q) : Q := fold_left Qplus l 0.

(* ------------------------------------------------------------------ *)
(** ** domain.py *)

Module Segment.
Record t : Type := mk {
  segment_id : string;
  asset : string;
  exposure : Q;
  profitability : Q;
  risk_weight : Q;
  rel_sell_cost : Q;
  rel_origination_cost : Q
}.

(** [segment.exposure = e] *)
Definition set_exposure (s : t) (e : Q) : t :=
  mk (segment_id s) (asset s) e (profitability s) (risk_weight s)
     (rel_sell_cost s) (rel_origination_cost s).
End Segment.

Module Asset.
(** The record is parametric in what [segments] holds: the dict of segment
    values in the value model, a reference to a dict object in the heap
    model. *)
Record t (S : Type) : Type := mk {
  asset_id : string;
  segments : S;
  total_exposure : Q;
  total_profit : Q;
  total_risk_weighted_assets : Q;
  average_risk_weight : Q;
  min_rel_exposure : Q;
  max_rel_exposure : Q;
  profit_stdev : Q
}.
Arguments mk {S}.
Arguments asset_id {S}.
Arguments segments {S}.
Arguments total_exposure {S}.
Arguments total_profit {S}.
Arguments total_risk_weighted_assets {S}.
Arguments average_risk_weight {S}.
Arguments min_rel_exposure {S}.
Arguments max_rel_exposure {S}.
Arguments profit_stdev {S}.

(** Dataclass defaults of the fields after [asset_id]. *)
Definition default_min_rel_exposure : Q := 5 # 10.
Definition default_max_rel_exposure : Q := 15 # 10.
Definition default_profit_stdev : Q := 0.

(** The four aggregate updates of [add_segment] (lines 39-42), on any
    representation of [segments]. *)
Definition add_totals {S : Type} (segs : S) (self : t S) (segment : Segment.t)
  : t S :=
  let total_exposure' := total_exposure self + Segment.exposure segment in
  let total_profit' :=
    total_profit self + Segment.profitability segment * Segment.exposure segment in
  let total_rwa' :=
    total_risk_weighted_assets self
    + Segment.exposure segment * Segment.risk_weight segment in
  let average' :=
    if Qltb 0 total_exposure' then total_rwa' / total_exposure' else 0 in
  mk (asset_id self) segs total_exposure' total_profit' total_rwa' average'
     (min_rel_exposure self) (max_rel_exposure self) (profit_stdev self).

(** [Asset.add_segment] on values. *)
Definition add_segment (self : t (dict string Segment.t)) (segment : Segment.t)
  : t (dict string Segment.t) :=
  add_totals (dict_set (Segment.segment_id segment) segment (segments self))
             self segment.
End Asset.

Abbreviation Asset := (Asset.t (dict string Segment.t)).

(** [pd.DataFrame] holding the correlation matrix: row label, then column
    label. *)
Definition DataFrame : Type := dict string (dict string Q).
Definition empty_DataFrame : DataFrame := [].

(** [frame.loc[row, column]] *)
Definition loc (frame : DataFrame) (row column : string) : res Q :=
  match dict_get row frame with
  | None => Raise (KeyError_loc row column)
  | Some r =>
      match dict_get column r with
      | None => Raise (KeyError_loc row column)
      | Some v => Ok v
      end
  end.

Module Portfolio.
Record t (A D : Type) : Type := mk {
  portfolio_id : string;
  assets : A;
  correlation_matrix : D;
  total_exposure : Q;
  total_profit : Q;
  total_risk_weighted_assets : Q;
  average_risk_weight : Q
}.
Arguments mk {A D}.
Arguments portfolio_id {A D}.
Arguments assets {A D}.
Arguments correlation_matrix {A D}.
Arguments total_exposure {A D}.
Arguments total_profit {A D}.
Arguments total_risk_weighted_assets {A D}.
Arguments average_risk_weight {A D}.

(** One iteration of the loop of [__post_init__] (lines 62-65). *)
Definition post_init_step {A D S : Type} (self : t A D) (asset : Asset.t S)
  : t A D :=
  let total_exposure' := total_exposure self + Asset.total_exposure asset in
  let total_profit' := total_profit self + Asset.total_profit asset in
  let total_rwa' :=
    total_risk_weighted_assets self + Asset.total_risk_weighted_assets asset in
  let average' :=
    if Qltb 0 total_exposure' then total_rwa' / total_exposure' else 0 in
  mk (portfolio_id self) (assets self) (correlation_matrix self)
     total_exposure' total_profit' total_rwa' average'.

(** [Portfolio(portfolio_id, assets, correlation_matrix)]: the dataclass
    [__init__] with the four aggregates at their default [0.0], followed by
    [__post_init__]. *)
Definition new (portfolio_id : string) (assets : dict string Asset)
    (correlation_matrix : DataFrame) : t (dict string Asset) DataFrame :=
  fold_left post_init_step (dict_values assets)
    (mk portfolio_id assets correlation_matrix 0 0 0 0).
End Portfolio.

Abbreviation Portfolio := (Portfolio.t (dict string Asset) DataFrame).

(* ------------------------------------------------------------------ *)
(** ** instance_manager.py *)

(** A row of [df_segments]; the index label is the segment id.  The two cost
    columns are read with [row.get(col, 0.0)] and may be absent. *)
Record SegmentRow : Type := {
  row_asset : string;
  row_exposure : Q;
  row_risk_weight : Q;
  row_average_profitability : Q;
  row_rel_sell_cost : option Q;
  row_rel_origination_cost : option Q
}.

(** A row of [df_assets]; the index label is the asset id. *)
Record AssetRow : Type := {
  row_max_exposure_decrease : Q;
  row_max_exposure_increase : Q;
  row_stdev_profitability : option Q
}.

(** [row.get(col, default)] *)
Definition row_get (v : option Q) (default : Q) : Q :=
  match v with Some x => x | None => default end.

Record InstanceManager : Type := { instance_name : string }.

(** [Asset(asset_id, {segment_id: segment}, e, e * p, e * rw, rw, ...)]: the
    constructor call shared by [from_csv] (line 25) and [new_portfolio]
    (lines 53-55).  The sixth positional argument, [average_risk_weight], is
    the segment's risk weight. *)
Definition asset_of_first_segment (asset_id : string) (segment : Segment.t)
    (min_rel max_rel : Q) : Asset :=
  Asset.mk asset_id [(Segment.segment_id segment, segment)]
    (Segment.exposure segment)
    (Segment.exposure segment * Segment.profitability segment)
    (Segment.exposure segment * Segment.risk_weight segment)
    (Segment.risk_weight segment)
    min_rel max_rel Asset.default_profit_stdev.

(** Body of the first loop of [from_csv] (lines 14-27). *)
Definition from_csv_segment_step (assets : dict string Asset)
    (r : string * SegmentRow) : dict string Asset :=
  let '(segment_id, row) := r in
  let asset_id := row_asset row in
  let exposure := row_exposure row in
  let risk_weight := row_risk_weight row in
  let profitability := row_average_profitability row in
  let rel_sell_cost := row_get (row_rel_sell_cost row) 0 in
  let rel_origination_cost := row_get (row_rel_origination_cost row) 0 in
  let segment :=
    Segment.mk segment_id asset_id exposure profitability risk_weight
               rel_sell_cost rel_origination_cost in
  match dict_get asset_id assets with
  | None =>
      dict_set asset_id
        (asset_of_first_segment asset_id segment
           Asset.default_min_rel_exposure Asset.default_max_rel_exposure)
        assets
  | Some a => dict_set asset_id (Asset.add_segment a segment) assets
  end.

(** Body of the second loop of [from_csv] (lines 31-39). *)
Definition from_csv_asset_step (assets : dict string Asset)
    (r : string * AssetRow) : dict string Asset :=
  let '(asset_id, row) := r in
  let min_rel_exposure := 1 - row_max_exposure_decrease row in
  let max_rel_exposure := 1 + row_max_exposure_increase row in
  let stdev := row_get (row_stdev_profitability row) 0 in
  match dict_get asset_id assets with
  | Some a =>
      dict_set asset_id
        (Asset.mk (Asset.asset_id a) (Asset.segments a) (Asset.total_exposure a)
           (Asset.total_profit a) (Asset.total_risk_weighted_assets a)
           (Asset.average_risk_weight a) min_rel_exposure max_rel_exposure stdev)
        assets
  | None => assets
  end.

(** [InstanceManager.from_csv].  No statement of the function raises on rows
    of the above shape: it always returns. *)
Definition from_csv (self : InstanceManager)
    (df_segments : list (string * SegmentRow))
    (df_assets : list (string * AssetRow))
    (df_correlation_matrix : DataFrame) : res Portfolio :=
  let assets := fold_left from_csv_segment_step df_segments [] in
  let assets := fold_left from_csv_asset_step df_assets assets in
  Ok (Portfolio.new (instance_name self ++ "_input_portfolio")%string
        assets df_correlation_matrix).

(** Body of the inner loop of [new_portfolio] (lines 48-57), for a segment of
    [asset]. *)
Definition new_portfolio_step (new_distribution : dict (string * string) Q)
    (asset : Asset) (new_assets : dict string Asset) (segment : Segment.t)
    : res (dict string Asset) :=
  let new_segment :=
    Segment.mk (Segment.segment_id segment) (Segment.asset segment)
      (Segment.exposure segment) (Segment.profitability segment)
      (Segment.risk_weight segment) (Segment.rel_sell_cost segment)
      (Segment.rel_origination_cost segment) in
  let key := (Asset.asset_id asset, Segment.segment_id segment) in
  match dict_get key new_distribution with
  | None => Raise (KeyError key)
  | Some multiplier =>
      let new_segment :=
        Segment.set_exposure new_segment
          (inject_Z (py_round (multiplier * Segment.exposure new_segment))) in
      match dict_get (Asset.asset_id asset) new_assets with
      | None =>
          Ok (dict_set (Asset.asset_id asset)
                (asset_of_first_segment (Asset.asset_id asset) new_segment
                   (Asset.min_rel_exposure asset) (Asset.max_rel_exposure asset))
                new_assets)
      | Some a =>
          Ok (dict_set (Asset.asset_id asset) (Asset.add_segment a new_segment)
                new_assets)
      end
  end.

(** The two nested loops of [new_portfolio] (lines 46-57). *)
Definition new_portfolio_assets (new_distribution : dict (string * string) Q)
    (assets : list Asset) (new_assets : dict string Asset)
    : res (dict string Asset) :=
  for_each
    (fun new_assets asset =>
       for_each (new_portfolio_step new_distribution asset)
                (dict_values (Asset.segments asset)) new_assets)
    assets new_assets.

(** [InstanceManager.new_portfolio] *)
Definition new_portfolio (self : InstanceManager) (portfolio : Portfolio)
    (new_distribution : dict (string * string) Q) : res Portfolio :=
  let portfolio_id := (instance_name self ++ "_optimized_portfolio")%string in
  new_assets ← new_portfolio_assets new_distribution
                 (dict_values (Portfolio.assets portfolio)) [];
  Ok (Portfolio.new portfolio_id new_assets empty_DataFrame).

(* ------------------------------------------------------------------ *)
(** ** domain.py: [Portfolio.to_tables] *)

(** The rows [to_tables] collects in [segments_data] (lines 72-83) and in
    [assets_data] (lines 88-97), as tuples in the column order of the
    source. *)
Definition segments_data (self : Portfolio)
  : list (string * string * Q * Q * Q * Q * Q) :=
  flat_map (fun asset : Asset =>
    map (fun segment =>
           (Asset.asset_id asset, Segment.segment_id segment,
            Segment.exposure segment, Segment.profitability segment,
            Segment.risk_weight segment, Segment.rel_sell_cost segment,
            Segment.rel_origination_cost segment))
        (dict_values (Asset.segments asset)))
    (dict_values (Portfolio.assets self)).

Definition assets_data (self : Portfolio) : list (string * Q * Q * Q * Q * Q) :=
  map (fun asset : Asset =>
         (Asset.asset_id asset, Asset.total_exposure asset,
          Asset.total_profit asset, Asset.average_risk_weight asset,
          Asset.min_rel_exposure asset, Asset.max_rel_exposure asset))
      (dict_values (Portfolio.assets self)).

(** [df.set_index(column)] as line 86 uses it: the result is dropped, what
    remains is the [KeyError] on a frame that has no such column, which is
    the frame of an empty list of rows. *)
Definition set_index {A : Type} (rows : list A) (column : string) : res unit :=
  match rows with
  | [] => Raise (KeyError_column column)
  | _ :: _ => Ok tt
  end.

(** [Portfolio.to_tables]: the two tables. *)
Definition to_tables (self : Portfolio)
  : res (list (string * string * Q * Q * Q * Q * Q)
         * list (string * Q * Q * Q * Q * Q)) :=
  let df_segments := segments_data self in
  _ ← set_index df_segments "segment_id";
  let df_assets := assets_data self in
  Ok (df_segments, df_assets).

(* ------------------------------------------------------------------ *)
(** ** portfolio_optimizer.py and entry_point.py (Xpress) *)

Module Xpress.
(** [xp.SolStatus] *)
Inductive SolStatus : Type :=
| NOTFOUND | OPTIMAL | FEASIBLE | INFEASIBLE | UNBOUNDED.

Inductive Sense : Type := minimize | maximize.

(** Per-objective controls of a multi-objective problem, as [setObjective]
    sets them (what a call does not name stays 0). *)
Record objective : Type := {
  priority : Z;
  weight : Q;
  reltol : Q
}.

(** What [optimize_portfolio] hands to the solver.  The constraints 1-5 are
    functions of [portfolio] and [risk_weight_limit]; the downside-risk
    constraint is present exactly when [risk_constraint] holds the z-score. *)
Record problem : Type := {
  portfolio : Portfolio;
  segment_vars : list (string * string);
  risk_weight_limit : Q;
  risk_constraint : option Q;
  objectives : list objective;
  sense : Sense
}.

(** Value of the blended objective of one priority level at given values of
    the two objective expressions (net profit, downside variable). *)
Definition blended (objs : list objective) (vals : list Q) : Q :=
  Qsum (map (fun ov : objective * Q => weight (fst ov) * snd ov) (zip objs vals)).

(** The keys of the decision variables (lines 30-33). *)
Definition segments_of (p : Portfolio) : list (string * string) :=
  flat_map (fun asset : Asset =>
    map (fun segment => (Asset.asset_id asset, Segment.segment_id segment))
        (dict_values (Asset.segments asset)))
    (dict_values (Portfolio.assets p)).

(** Lines 82-105: which objectives and which constraint the mode selects. *)
Definition formulate (p : Portfolio) (risk_weight_limit : Q)
    (consider_risk : bool) (z_score : Q) (profit_weight : Q) : problem :=
  if consider_risk then
    if Qle_bool 0 profit_weight then
      {| portfolio := p; segment_vars := segments_of p;
         risk_weight_limit := risk_weight_limit;
         risk_constraint := Some z_score;
         objectives :=
           [ {| priority := 0; weight := profit_weight; reltol := 0 |};
             {| priority := 0; weight := profit_weight - 1; reltol := 0 |} ];
         sense := maximize |}
    else
      {| portfolio := p; segment_vars := segments_of p;
         risk_weight_limit := risk_weight_limit;
         risk_constraint := Some z_score;
         objectives :=
           [ {| priority := 1; weight := 1; reltol := 1 # 10 |};
             {| priority := 0; weight := - (1); reltol := 0 |} ];
         sense := maximize |}
  else
    {| portfolio := p; segment_vars := segments_of p;
       risk_weight_limit := risk_weight_limit;
       risk_constraint := None;
       objectives := [ {| priority := 1; weight := 1; reltol := 0 |} ];
       sense := maximize |}.

Section Pipeline.
(** The solver is external: [model.optimize()] yields a status and, through
    [model.getSolution], a value for each variable key. *)
Variable optimize : problem -> SolStatus * (string * string -> Q).

(** [model.getSolution(segment_vars)]: a dict with the keys of
    [segment_vars]. *)
Definition getSolution (keys : list (string * string))
    (sol : string * string -> Q) : dict (string * string) Q :=
  fold_left (fun d k => dict_set k (sol k) d) keys [].

(** [model.addVariables(keys, ...)] (lines 35-39): it raises when it is
    given no key. *)
Definition addVariables (keys : list (string * string)) : res unit :=
  match keys with
  | [] => Raise AddVariablesError
  | _ :: _ => Ok tt
  end.

(** The pairs of asset identifiers at which lines 85-89 read the correlation
    matrix, in the order of the two loops of the generator. *)
Definition asset_id_pairs (p : Portfolio) : list (string * string) :=
  flat_map (fun asset_i : Asset =>
              map (fun asset_j : Asset =>
                     (Asset.asset_id asset_i, Asset.asset_id asset_j))
                  (dict_values (Portfolio.assets p)))
           (dict_values (Portfolio.assets p)).

(** Lines 85-89: building [variance] reads
    [portfolio.correlation_matrix.loc[i, j]] for every pair; the first pair
    the frame has no value for ends the call. *)
Definition read_correlations (p : Portfolio) : res (list Q) :=
  for_each (fun acc ij =>
              c ← loc (Portfolio.correlation_matrix p) (fst ij) (snd ij);
              Ok (acc ++ [c]))
           (asset_id_pairs p) [].

(** [xp.evaluate(profit, problem=model)]: the expression [profit] (line 74)
    at the values of the segment variables. *)
Definition profit_at (p : Portfolio) (sol : string * string -> Q) : Q :=
  Qsum (flat_map (fun asset : Asset =>
          map (fun segment =>
                 Segment.profitability segment * Segment.exposure segment
                 * sol (Asset.asset_id asset, Segment.segment_id segment))
              (dict_values (Asset.segments asset)))
        (dict_values (Portfolio.assets p))).

(** The division of line 124, [... / (z_score * xp.evaluate(profit))]: the
    quotient is only printed; a divisor equal to zero raises. *)
Definition check_divisor (divisor : Q) : res unit :=
  if Qeq_bool divisor 0 then Raise ZeroDivisionError else Ok tt.

(** [optimize_portfolio]: returns [investment]; the status is printed and
    otherwise dropped (lines 114-132). *)
Definition optimize_portfolio (p : Portfolio) (risk_weight_limit : Q)
    (consider_risk : bool) (z_score : Q) (profit_weight : Q)
  : res (dict (string * string) Q) :=
  _ ← addVariables (segments_of p);
  _ ← (if consider_risk then read_correlations p else Ok []);
  let model := formulate p risk_weight_limit consider_risk z_score profit_weight in
  let '(solstatus, sol) := optimize model in
  let investment : dict (string * string) Q := [] in
  match solstatus with
  | OPTIMAL | FEASIBLE =>
      let investment := getSolution (segment_vars model) sol in
      _ ← check_divisor (z_score * profit_at p sol);
      Ok investment
  | _ => Ok investment
  end.

(** [entry_point.solve_optimization] *)
Definition solve_optimization (df_segments : list (string * SegmentRow))
    (df_assets : list (string * AssetRow)) (df_correlation_matrix : DataFrame)
    (risk_weight_limit : Q) (consider_risk : bool) (z_score : Q)
    (profit_weight : Q)
  : res (list (string * string * Q * Q * Q * Q * Q)
         * list (string * Q * Q * Q * Q * Q)) :=
  let manager := {| instance_name := "" |} in
  original_portfolio ←
    from_csv manager df_segments df_assets df_correlation_matrix;
  investment ←
    optimize_portfolio original_portfolio risk_weight_limit consider_risk
      z_score profit_weight;
  optimized_portfolio ← new_portfolio manager original_portfolio investment;
  to_tables optimized_portfolio.
End Pipeline.
End Xpress.

(* ------------------------------------------------------------------ *)
(** ** advent_of_or.py and main.py (GAMSPy) *)

Module Gams.
Inductive Equation : Type :=
| risk_weight | segment_relationship | asset_exposure | total_exposure
| profit_equation | risk_equation.

#[global] Instance Equation_eq_dec : EqDecision Equation.
Proof. solve_decision. Defined.

Inductive Problem : Type := QCP | NLP.
Inductive Sense : Type := MAX | MIN.

(** [gp.Model]: the fields [main] sets or changes.  [equations] is the
    Python list the object keeps, the one [main] appends to.  [statement]
    holds the equations of the GAMS model statement: [gp.Model(...)] writes
    it from the equations it is constructed with, and a later change of the
    Python list does not write it again. *)
Record Model : Type := {
  problem : Problem;
  sense : Sense;
  equations : list Equation;
  statement : list Equation
}.

(** The objective expression of the model,
    [alpha * profit_objective_variable - (1 - alpha) * profit_downside_var],
    at given levels of the two variables. *)
Definition objective (alpha : Q) (profit_objective_variable profit_downside_var : Q)
  : Q :=
  alpha * profit_objective_variable - (1 - alpha) * profit_downside_var.

(** What one [model.solve(...)] sees: the model (GAMS solves the equations of
    its [statement]), the value of the parameter
    [alpha], and the lower bound of [profit_objective_variable] ([None]: the
    free variable's default, no bound). *)
Record SolveCall : Type := {
  call_model : Model;
  call_alpha : Q;
  call_profit_lo : option Q
}.

(** Variable levels after a solve. *)
Record Levels : Type := {
  profit_objective_variable_l : Q;
  profit_downside_var_l : Q
}.

(** The mutable state [main] threads through lines 174-209. *)
Record State : Type := {
  model : Model;
  alpha : Q;
  profit_objective_variable_lo : option Q;
  levels : Levels;
  solves : list SolveCall
}.

Definition set_alpha (v : Q) (st : State) : State :=
  {| model := model st; alpha := v;
     profit_objective_variable_lo := profit_objective_variable_lo st;
     levels := levels st; solves := solves st |}.

Definition set_profit_lo (v : Q) (st : State) : State :=
  {| model := model st; alpha := alpha st;
     profit_objective_variable_lo := Some v;
     levels := levels st; solves := solves st |}.

(** [model.equations.append(e)]: the Python list grows, the model statement
    stays as it was written. *)
Definition append_equation (e : Equation) (st : State) : State :=
  {| model := {| problem := problem (model st); sense := sense (model st);
                 equations := equations (model st) ++ [e];
                 statement := statement (model st) |};
     alpha := alpha st;
     profit_objective_variable_lo := profit_objective_variable_lo st;
     levels := levels st; solves := solves st |}.

Definition set_problem (p : Problem) (st : State) : State :=
  {| model := {| problem := p; sense := sense (model st);
                 equations := equations (model st);
                 statement := statement (model st) |};
     alpha := alpha st;
     profit_objective_variable_lo := profit_objective_variable_lo st;
     levels := levels st; solves := solves st |}.

Section Protocol.
(** The solver is external: a solve maps what it sees to variable levels. *)
Variable solver : SolveCall -> Levels.

(** [model.solve(solver="xpress", ...)] *)
Definition solve (st : State) : State :=
  let call := {| call_model := model st; call_alpha := alpha st;
                 call_profit_lo := profit_objective_variable_lo st |} in
  {| model := model st; alpha := alpha st;
     profit_objective_variable_lo := profit_objective_variable_lo st;
     levels := solver call; solves := solves st ++ [call] |}.

(** The equations [gp.Model(...)] is constructed with (lines 178-184). *)
Definition base_equations : list Equation :=
  [risk_weight; segment_relationship; asset_exposure; total_exposure;
   profit_equation].

(** State after lines 174-187: [alpha = gp.Parameter()] has no record
    (value 0), the model holds the five base equations. *)
Definition initial : State :=
  {| model := {| problem := QCP; sense := MAX;
                 equations := base_equations;
                 statement := base_equations |};
     alpha := 0;
     profit_objective_variable_lo := None;
     levels := {| profit_objective_variable_l := 0;
                  profit_downside_var_l := 0 |};
     solves := [] |}.

(** Lines 189-209 of [advent_of_or.py] (193-219 of [main.py]). *)
Definition main (profit_weight : Q) (consider_risk : bool) : State :=
  let st := initial in
  if consider_risk then
    if Qltb profit_weight 0 then
      let st := set_alpha 1 st in
      let st := solve st in
      let rel_tol := 1 # 10 in
      let st :=
        set_profit_lo
          (profit_objective_variable_l (levels st) * (1 - rel_tol)) st in
      let st := set_alpha 0 st in
      let st := append_equation risk_equation st in
      let st := set_problem NLP st in
      solve st
    else
      let st := append_equation risk_equation st in
      let st := set_problem NLP st in
      let st := set_alpha profit_weight st in
      solve st
  else
    let st := set_alpha 1 st in
    solve st.
End Protocol.

(** A [gp.Parameter] or the levels of a [gp.Variable] over a domain: records
    by key; a key without record has value 0. *)
Definition value_of {K : Type} `{EqDecision K} (records : dict K Q) (k : K) : Q :=
  match dict_get k records with Some v => v | None => 0 end.

(** One summand of [variance] (lines 161-169). *)
Definition variance_term (profit_stdev : dict string Q)
    (correlation_matrix : dict (string * string) Q)
    (portfolio_exposure_vars : dict string Q) (new_total_exposure : Q)
    (a j : string) : Q :=
  value_of profit_stdev a * value_of profit_stdev j
  * value_of correlation_matrix (a, j)
  * value_of portfolio_exposure_vars a * value_of portfolio_exposure_vars j
  / (new_total_exposure * new_total_exposure).

(** [gp.Sum((A, J), f)] with [J] an alias of [A]. *)
Definition Sum2 (A : list string) (f : string -> string -> Q) : Q :=
  Qsum (flat_map (fun a => map (fun j => f a j) A) A).

Definition variance (A : list string) (profit_stdev : dict string Q)
    (correlation_matrix : dict (string * string) Q)
    (portfolio_exposure_vars : dict string Q) (new_total_exposure : Q) : Q :=
  Sum2 A (variance_term profit_stdev correlation_matrix
            portfolio_exposure_vars new_total_exposure).

(** The same double sum with the roles of the two asset indices swapped:
    the summand at [(a, j)] is the original summand at [(j, a)]. *)
Definition variance_swapped (A : list string) (profit_stdev : dict string Q)
    (correlation_matrix : dict (string * string) Q)
    (portfolio_exposure_vars : dict string Q) (new_total_exposure : Q) : Q :=
  Sum2 A (fun a j =>
            variance_term profit_stdev correlation_matrix
              portfolio_exposure_vars new_total_exposure j a).

Definition symmetric (A : list string)
    (correlation_matrix : dict (string * string) Q) : Prop :=
  forall a j, a ∈ A -> j ∈ A ->
    value_of correlation_matrix (a, j) == value_of correlation_matrix (j, a).
End Gams.

(* ------------------------------------------------------------------ *)
(** ** Vocabulary of the statements *)

(** The (asset id, segment id) pairs [new_portfolio] looks up, in the order
    of its two loops. *)
Definition asset_pairs (asset : Asset) : list (string * string) :=
  map (fun segment => (Asset.asset_id asset, Segment.segment_id segment))
      (dict_values (Asset.segments asset)).

Definition known_pairs (p : Portfolio) : list (string * string) :=
  flat_map asset_pairs (dict_values (Portfolio.assets p)).

(** The first key of [keys] the allocation has no entry for. *)
Fixpoint first_missing (new_distribution : dict (string * string) Q)
    (keys : list (string * string)) : option (string * string) :=
  match keys with
  | [] => None
  | k :: keys' =>
      match dict_get k new_distribution with
      | None => Some k
      | Some _ => first_missing new_distribution keys'
      end
  end.

(** [Asset(asset_id)]: every other field at its dataclass default. *)
Definition fresh_asset (asset_id : string) : Asset :=
  Asset.mk asset_id [] 0 0 0 0 Asset.default_min_rel_exposure
           Asset.default_max_rel_exposure Asset.default_profit_stdev.

(** Bounds and standard deviation as the dataclass defaults leave them. *)
Definition has_default_bounds (a : Asset) : Prop :=
  Asset.min_rel_exposure a = Asset.default_min_rel_exposure
  /\ Asset.max_rel_exposure a = Asset.default_max_rel_exposure
  /\ Asset.profit_stdev a = Asset.default_profit_stdev.

(** The sums the aggregates stand for. *)
Definition sum_exposure (segs : list Segment.t) : Q :=
  Qsum (map Segment.exposure segs).
Definition sum_profit (segs : list Segment.t) : Q :=
  Qsum (map (fun s => Segment.exposure s * Segment.profitability s) segs).
Definition sum_risk_weighted (segs : list Segment.t) : Q :=
  Qsum (map (fun s => Segment.exposure s * Segment.risk_weight s) segs).

(** The ratio both [add_segment] and [__post_init__] compute. *)
Definition ratio_or_zero (total_rwa total_exposure : Q) : Q :=
  if Qltb 0 total_exposure then total_rwa / total_exposure else 0.

(** The average risk weight the builder leaves on an asset holding [segs]:
    an asset with one segment was made by the constructor call and carries
    that segment's risk weight; from the second segment on it is the ratio
    [add_segment] computes. *)
Definition average_of (segs : list Segment.t) (total_rwa total_exposure : Q) : Q :=
  match segs with
  | [] => 0
  | [s] => Segment.risk_weight s
  | _ => ratio_or_zero total_rwa total_exposure
  end.

(** The state the builder leaves an asset in: the three totals are the sums
    over its segments and the average risk weight is [average_of], which for
    a lone segment is its risk weight whatever the exposure (see
    [asset_average_agrees] for when that is the ratio of the totals). *)
Definition asset_consistent (a : Asset) : Prop :=
  let segs := dict_values (Asset.segments a) in
  Asset.total_exposure a == sum_exposure segs
  /\ Asset.total_profit a == sum_profit segs
  /\ Asset.total_risk_weighted_assets a == sum_risk_weighted segs
  /\ Asset.average_risk_weight a
     == average_of segs (Asset.total_risk_weighted_assets a)
                   (Asset.total_exposure a).

(** A portfolio whose assets are in that state and whose own aggregates are
    the sums over its assets and their ratio. *)
Definition portfolio_consistent (p : Portfolio) : Prop :=
  let assets := dict_values (Portfolio.assets p) in
  Forall asset_consistent assets
  /\ Portfolio.total_exposure p == Qsum (map Asset.total_exposure assets)
  /\ Portfolio.total_profit p == Qsum (map Asset.total_profit assets)
  /\ Portfolio.total_risk_weighted_assets p
     == Qsum (map Asset.total_risk_weighted_assets assets)
  /\ Portfolio.average_risk_weight p
     == ratio_or_zero (Portfolio.total_risk_weighted_assets p)
                      (Portfolio.total_exposure p).

(** The three totals of an asset are the sums over its segments. *)
Definition asset_totals_agree (a : Asset) : Prop :=
  let segs := dict_values (Asset.segments a) in
  Asset.total_exposure a == sum_exposure segs
  /\ Asset.total_profit a == sum_profit segs
  /\ Asset.total_risk_weighted_assets a == sum_risk_weighted segs.

(** The stored average risk weight of an asset is the ratio of its stored
    totals, 0 when the total exposure is not positive. *)
Definition asset_average_agrees (a : Asset) : Prop :=
  Asset.average_risk_weight a
  == ratio_or_zero (Asset.total_risk_weighted_assets a) (Asset.total_exposure a).

(** An asset whose only segment has an exposure that is not positive and a
    risk weight that is not 0. *)
Definition lone_idle_segment (a : Asset) : Prop :=
  exists s, dict_values (Asset.segments a) = [s]
            /\ Segment.exposure s <= 0 /\ ~ Segment.risk_weight s == 0.

(** The totals of every asset are the sums over its segments, the totals of
    the portfolio the sums over its assets, and the portfolio's average risk
    weight the ratio of its totals, 0 when the total exposure is not
    positive. *)
Definition portfolio_totals_agree (p : Portfolio) : Prop :=
  let assets := dict_values (Portfolio.assets p) in
  Forall asset_totals_agree assets
  /\ Portfolio.total_exposure p == Qsum (map Asset.total_exposure assets)
  /\ Portfolio.total_profit p == Qsum (map Asset.total_profit assets)
  /\ Portfolio.total_risk_weighted_assets p
     == Qsum (map Asset.total_risk_weighted_assets assets)
  /\ Portfolio.average_risk_weight p
     == ratio_or_zero (Portfolio.total_risk_weighted_assets p)
                      (Portfolio.total_exposure p).

(** [s'] has the fields of [s], the exposure apart. *)
Definition same_but_exposure (s s' : Segment.t) : Prop :=
  Segment.segment_id s' = Segment.segment_id s
  /\ Segment.asset s' = Segment.asset s
  /\ Segment.profitability s' = Segment.profitability s
  /\ Segment.risk_weight s' = Segment.risk_weight s
  /\ Segment.rel_sell_cost s' = Segment.rel_sell_cost s
  /\ Segment.rel_origination_cost s' = Segment.rel_origination_cost s.

(** Dict keys are the identifiers of the objects stored under them, and
    identify them: the shape every dict of the builder has. *)
Definition asset_wf (key : string) (a : Asset) : Prop :=
  Asset.asset_id a = key
  /\ NoDup (dict_keys (Asset.segments a))
  /\ Forall (fun ks : string * Segment.t => Segment.segment_id (snd ks) = fst ks)
            (Asset.segments a).

Definition portfolio_wf (p : Portfolio) : Prop :=
  NoDup (dict_keys (Portfolio.assets p))
  /\ Forall (fun ka : string * Asset => asset_wf (fst ka) (snd ka))
            (Portfolio.assets p).

(** All segments of a portfolio, in the order of the two loops. *)
Definition all_segments (p : Portfolio) : list Segment.t :=
  flat_map (fun a : Asset => dict_values (Asset.segments a))
           (dict_values (Portfolio.assets p)).

(** The segment [new_portfolio] makes of [segment] at multiplier [m]. *)
Definition rebalanced_segment (m : Q) (segment : Segment.t) : Segment.t :=
  Segment.set_exposure segment
    (inject_Z (py_round (m * Segment.exposure segment))).

(** The multiplier an allocation holds for a key (0 when it has none; the
    statements use it only under coverage). *)
Definition multiplier_of (new_distribution : dict (string * string) Q)
    (k : string * string) : Q :=
  match dict_get k new_distribution with Some m => m | None => 0 end.

(** The rebalanced segments of [asset], and the asset [new_portfolio]
    builds from them: the constructor call on the first, [add_segment] for the rest.
    [None] for an asset without segments, which the loops skip. *)
Definition rebalanced_segments (new_distribution : dict (string * string) Q)
    (asset : Asset) : list Segment.t :=
  map (fun s =>
         rebalanced_segment
           (multiplier_of new_distribution
              (Asset.asset_id asset, Segment.segment_id s)) s)
      (dict_values (Asset.segments asset)).

Definition rebuilt_asset (new_distribution : dict (string * string) Q)
    (asset : Asset) : option Asset :=
  match rebalanced_segments new_distribution asset with
  | [] => None
  | s :: rest =>
      Some (fold_left Asset.add_segment rest
              (asset_of_first_segment (Asset.asset_id asset) s
                 (Asset.min_rel_exposure asset) (Asset.max_rel_exposure asset)))
  end.

(** The dict [new_portfolio] builds for a list of assets. *)
Definition rebuilt_assets (new_distribution : dict (string * string) Q)
    (assets : list Asset) : dict string Asset :=
  flat_map (fun a : Asset =>
              match rebuilt_asset new_distribution a with
              | Some a' => [(Asset.asset_id a, a')]
              | None => []
              end)
           assets.

(** The allocation has an entry for each of the asset's segments [segs]. *)
Definition covered (new_distribution : dict (string * string) Q) (asset : Asset)
    (segs : list Segment.t) : Prop :=
  forall s, s ∈ segs ->
    is_Some (dict_get (Asset.asset_id asset, Segment.segment_id s)
                      new_distribution).

(** The invariant of the first loop of [from_csv]: every asset built so far
    is keyed by its identifier, is consistent, holds a segment, and holds no
    segment identifier among those in [later]. *)
Definition built_so_far (later : list string) (acc : dict string Asset) : Prop :=
  NoDup (dict_keys acc)
  /\ Forall (fun ka : string * Asset =>
               asset_wf (fst ka) (snd ka)
               /\ asset_consistent (snd ka)
               /\ Asset.segments (snd ka) <> []
               /\ forall k, k ∈ dict_keys (Asset.segments (snd ka)) -> k ∉ later)
            acc.

(* ------------------------------------------------------------------ *)
(** ** The object heap: [new_portfolio] with Python's references

    The value model above cannot say that a call leaves an object
    untouched.  Here objects live in a heap and are held by reference, as in
    Python: a [Segment], a [dict], an [Asset] (holding a reference to its
    [segments] dict), a [DataFrame], a [Portfolio] (holding references to its
    [assets] dict and its correlation frame).  A field assignment overwrites
    the object at its location; a constructor call or a dict display
    allocates at the end of the heap. *)

Module Heap.
Abbreviation loc := nat.

Inductive obj : Type :=
| OSegment (s : Segment.t)
| ODict (d : dict string loc)
| OAsset (a : Asset.t loc)
| ODataFrame (df : DataFrame)
| OPortfolio (p : Portfolio.t loc loc).

Abbreviation heap := (list obj).

(** A statement maps a heap to a value or an exception and the heap it
    leaves; [None] is an access to a missing object or to one of another
    class, which typed references rule out. *)
Definition M (A : Type) : Type := heap -> option (res A * heap).

#[global] Instance M_ret : MRet M := fun A a h => Some (Ok a, h).
#[global] Instance M_bind : MBind M := fun A B k m h =>
  match m h with
  | Some (Ok a, h') => k a h'
  | Some (Raise e, h') => Some (Raise e, h')
  | None => None
  end.

Definition raise {A : Type} (e : exn) : M A := fun h => Some (Raise e, h).

(** Allocation of a new object. *)
Definition alloc (o : obj) : M loc := fun h => Some (Ok (length h), h ++ [o]).

(** Dereferences, by class. *)
Definition get_segment (l : loc) : M Segment.t := fun h =>
  match h !! l with Some (OSegment s) => Some (Ok s, h) | _ => None end.
Definition get_dict (l : loc) : M (dict string loc) := fun h =>
  match h !! l with Some (ODict d) => Some (Ok d, h) | _ => None end.
Definition get_asset (l : loc) : M (Asset.t loc) := fun h =>
  match h !! l with Some (OAsset a) => Some (Ok a, h) | _ => None end.
Definition get_portfolio (l : loc) : M (Portfolio.t loc loc) := fun h =>
  match h !! l with Some (OPortfolio p) => Some (Ok p, h) | _ => None end.

(** Assignments to the fields (or items) of an existing object, by class. *)
Definition put_segment (l : loc) (s : Segment.t) : M unit := fun h =>
  match h !! l with
  | Some (OSegment _) => Some (Ok tt, <[l := OSegment s]> h)
  | _ => None
  end.
Definition put_dict (l : loc) (d : dict string loc) : M unit := fun h =>
  match h !! l with
  | Some (ODict _) => Some (Ok tt, <[l := ODict d]> h)
  | _ => None
  end.
Definition put_asset (l : loc) (a : Asset.t loc) : M unit := fun h =>
  match h !! l with
  | Some (OAsset _) => Some (Ok tt, <[l := OAsset a]> h)
  | _ => None
  end.
Definition put_portfolio (l : loc) (p : Portfolio.t loc loc) : M unit := fun h =>
  match h !! l with
  | Some (OPortfolio _) => Some (Ok tt, <[l := OPortfolio p]> h)
  | _ => None
  end.

(** [for x in xs: body(x)] *)
Fixpoint for_each_h {A : Type} (body : A -> M unit) (xs : list A) : M unit :=
  match xs with
  | [] => mret tt
  | x :: xs' => _ ← body x; for_each_h body xs'
  end.

(** [Asset.add_segment(self, segment)]: the item assignment on the dict
    [self.segments] refers to, then the four aggregate assignments. *)
Definition add_segment (self segment : loc) : M unit :=
  a ← get_asset self;
  seg ← get_segment segment;
  d ← get_dict (Asset.segments a);
  _ ← put_dict (Asset.segments a) (dict_set (Segment.segment_id seg) segment d);
  a ← get_asset self;
  seg ← get_segment segment;
  put_asset self (Asset.add_totals (Asset.segments a) a seg).

(** [Portfolio(portfolio_id, assets)]: the default factory makes a new empty
    frame, [__init__] stores the fields, [__post_init__] accumulates over
    [self.assets.values()]. *)
Definition Portfolio_new (portfolio_id : string) (assets : loc) : M loc :=
  df ← alloc (ODataFrame empty_DataFrame);
  self ← alloc (OPortfolio (Portfolio.mk portfolio_id assets df 0 0 0 0));
  p ← get_portfolio self;
  d ← get_dict (Portfolio.assets p);
  _ ← for_each_h
        (fun asset =>
           a ← get_asset asset;
           p ← get_portfolio self;
           put_portfolio self (Portfolio.post_init_step p a))
        (dict_values d);
  mret self.

(** Body of the inner loop of [new_portfolio] (lines 48-57). *)
Definition new_portfolio_step (new_distribution : dict (string * string) Q)
    (new_assets asset segment : loc) : M unit :=
  seg ← get_segment segment;
  new_segment ←
    alloc (OSegment
             (Segment.mk (Segment.segment_id seg) (Segment.asset seg)
                (Segment.exposure seg) (Segment.profitability seg)
                (Segment.risk_weight seg) (Segment.rel_sell_cost seg)
                (Segment.rel_origination_cost seg)));
  a ← get_asset asset;
  seg ← get_segment segment;
  match dict_get (Asset.asset_id a, Segment.segment_id seg) new_distribution with
  | None => raise (KeyError (Asset.asset_id a, Segment.segment_id seg))
  | Some multiplier =>
      ns ← get_segment new_segment;
      _ ← put_segment new_segment
            (Segment.set_exposure ns
               (inject_Z (py_round (multiplier * Segment.exposure ns))));
      a ← get_asset asset;
      d ← get_dict new_assets;
      match dict_get (Asset.asset_id a) d with
      | None =>
          ns ← get_segment new_segment;
          segments ← alloc (ODict [(Segment.segment_id ns, new_segment)]);
          a' ← alloc (OAsset
                        (Asset.mk (Asset.asset_id a) segments
                           (Segment.exposure ns)
                           (Segment.exposure ns * Segment.profitability ns)
                           (Segment.exposure ns * Segment.risk_weight ns)
                           (Segment.risk_weight ns)
                           (Asset.min_rel_exposure a) (Asset.max_rel_exposure a)
                           Asset.default_profit_stdev));
          d ← get_dict new_assets;
          put_dict new_assets (dict_set (Asset.asset_id a) a' d)
      | Some a' => add_segment a' new_segment
      end
  end.

(** [InstanceManager.new_portfolio(self, portfolio, new_distribution)] *)
Definition new_portfolio (self : InstanceManager) (portfolio : loc)
    (new_distribution : dict (string * string) Q) : M loc :=
  new_assets ← alloc (ODict []);
  let portfolio_id := (instance_name self ++ "_optimized_portfolio")%string in
  p ← get_portfolio portfolio;
  assets ← get_dict (Portfolio.assets p);
  _ ← for_each_h
        (fun asset =>
           a ← get_asset asset;
           segments ← get_dict (Asset.segments a);
           for_each_h (new_portfolio_step new_distribution new_assets asset)
                      (dict_values segments))
        (dict_values assets);
  Portfolio_new portfolio_id new_assets.

(** *** Reading values back from the heap *)

Fixpoint read_segments (h : heap) (d : dict string loc)
  : option (dict string Segment.t) :=
  match d with
  | [] => Some []
  | (k, l) :: d' =>
      match h !! l, read_segments h d' with
      | Some (OSegment s), Some segs => Some ((k, s) :: segs)
      | _, _ => None
      end
  end.

Definition read_asset (h : heap) (l : loc) : option Asset :=
  match h !! l with
  | Some (OAsset a) =>
      match h !! Asset.segments a with
      | Some (ODict d) =>
          match read_segments h d with
          | Some segs =>
              Some (Asset.mk (Asset.asset_id a) segs (Asset.total_exposure a)
                      (Asset.total_profit a) (Asset.total_risk_weighted_assets a)
                      (Asset.average_risk_weight a) (Asset.min_rel_exposure a)
                      (Asset.max_rel_exposure a) (Asset.profit_stdev a))
          | None => None
          end
      | _ => None
      end
  | _ => None
  end.

Fixpoint read_assets (h : heap) (d : dict string loc)
  : option (dict string Asset) :=
  match d with
  | [] => Some []
  | (k, l) :: d' =>
      match read_asset h l, read_assets h d' with
      | Some a, Some assets => Some ((k, a) :: assets)
      | _, _ => None
      end
  end.

Definition read_portfolio (h : heap) (l : loc) : option Portfolio :=
  match h !! l with
  | Some (OPortfolio p) =>
      match h !! Portfolio.assets p, h !! Portfolio.correlation_matrix p with
      | Some (ODict d), Some (ODataFrame df) =>
          match read_assets h d with
          | Some assets =>
              Some (Portfolio.mk (Portfolio.portfolio_id p) assets df
                      (Portfolio.total_exposure p) (Portfolio.total_profit p)
                      (Portfolio.total_risk_weighted_assets p)
                      (Portfolio.average_risk_weight p))
          | None => None
          end
      | _, _ => None
      end
  | _ => None
  end.

(** *** Storing a value as objects (to build example heaps) *)

Fixpoint store_segments (d : dict string Segment.t) : M (dict string loc) :=
  match d with
  | [] => mret []
  | (k, s) :: d' =>
      l ← alloc (OSegment s);
      rest ← store_segments d';
      mret ((k, l) :: rest)
  end.

Definition store_asset (a : Asset) : M loc :=
  d ← store_segments (Asset.segments a);
  segments ← alloc (ODict d);
  alloc (OAsset (Asset.mk (Asset.asset_id a) segments (Asset.total_exposure a)
                   (Asset.total_profit a) (Asset.total_risk_weighted_assets a)
                   (Asset.average_risk_weight a) (Asset.min_rel_exposure a)
                   (Asset.max_rel_exposure a) (Asset.profit_stdev a))).

Fixpoint store_assets (d : dict string Asset) : M (dict string loc) :=
  match d with
  | [] => mret []
  | (k, a) :: d' =>
      l ← store_asset a;
      rest ← store_assets d';
      mret ((k, l) :: rest)
  end.

Definition store_portfolio (p : Portfolio) : M loc :=
  d ← store_assets (Portfolio.assets p);
  assets ← alloc (ODict d);
  df ← alloc (ODataFrame (Portfolio.correlation_matrix p));
  alloc (OPortfolio
           (Portfolio.mk (Portfolio.portfolio_id p) assets df
              (Portfolio.total_exposure p) (Portfolio.total_profit p)
              (Portfolio.total_risk_weighted_assets p)
              (Portfolio.average_risk_weight p))).
(** *** Vocabulary of the heap statements *)

(** [h'] keeps every object of [h] and may hold more. *)
Definition extends (h h' : heap) : Prop := exists ext, h' = h ++ ext.

(** Every segment object of [h] is the same in [h']. *)
Definition segments_kept (h h' : heap) : Prop :=
  forall l s, h !! l = Some (OSegment s) -> h' !! l = Some (OSegment s).

(** What the loops of [new_portfolio] maintain about the dict [new_assets]
    refers to: it reads back as the value-level accumulator [acc]; its asset
    references are distinct; each asset object was allocated right after its
    own segments dict, itself allocated after [new_assets]. *)
Definition new_assets_inv (new_assets : loc) (h : heap) (acc : dict string Asset)
  : Prop :=
  exists d,
    h !! new_assets = Some (ODict d)
    /\ read_assets h d = Some acc
    /\ NoDup (dict_values d)
    /\ Forall (fun al =>
                 exists ah,
                   h !! al = Some (OAsset ah)
                   /\ S (Asset.segments ah) = al
                   /\ (new_assets < Asset.segments ah)%nat)
              (dict_values d).
(** A portfolio object and a portfolio value with the same aggregates. *)
Definition same_totals (po : Portfolio.t loc loc) (p : Portfolio) : Prop :=
  Portfolio.total_exposure po = Portfolio.total_exposure p
  /\ Portfolio.total_profit po = Portfolio.total_profit p
  /\ Portfolio.total_risk_weighted_assets po
     = Portfolio.total_risk_weighted_assets p
  /\ Portfolio.average_risk_weight po = Portfolio.average_risk_weight p.

End Heap.

(** *** Vocabulary for [from_csv] *)

(** The [Segment] the first loop of [from_csv] makes of a row (lines 15-22). *)
Definition segment_of_row (r : string * SegmentRow) : Segment.t :=
  Segment.mk (fst r) (row_asset (snd r)) (row_exposure (snd r))
    (row_average_profitability (snd r)) (row_risk_weight (snd r))
    (row_get (row_rel_sell_cost (snd r)) 0)
    (row_get (row_rel_origination_cost (snd r)) 0).

(** The rows of [df_segments] that name the asset [aid], in table order. *)
Definition rows_of_asset (aid : string) (rows : list (string * SegmentRow))
  : list (string * SegmentRow) :=
  filter (fun r : string * SegmentRow => row_asset (snd r) = aid) rows.

(** The asset column of [df_segments]. *)
Definition asset_column (rows : list (string * SegmentRow)) : list string :=
  map (fun r : string * SegmentRow => row_asset (snd r)) rows.

(** The distinct values of a list, in order of first occurrence. *)
Fixpoint first_occurrences (l : list string) : list string :=
  match l with
  | [] => []
  | x :: l' => x :: filter (fun y => y <> x) (first_occurrences l')
  end.

(** The rows of [df_segments] grouped by asset: assets in order of first
    occurrence, the rows of an asset in table order. *)
Definition grouped_by_asset (rows : list (string * SegmentRow))
  : list (string * SegmentRow) :=
  flat_map (fun aid => rows_of_asset aid rows)
           (first_occurrences (asset_column rows)).

(** The asset the first loop of [from_csv] holds under [aid] after rows [rs]
    naming that asset, when it held [a0] before: the constructor call on the
    first row if there was none, [add_segment] for every other row. *)
Definition built_from (aid : string) (a0 : option Asset)
    (rs : list (string * SegmentRow)) : option Asset :=
  match a0, rs with
  | Some a, _ => Some (fold_left Asset.add_segment (map segment_of_row rs) a)
  | None, [] => None
  | None, r :: rs' =>
      Some (fold_left Asset.add_segment (map segment_of_row rs')
              (asset_of_first_segment aid (segment_of_row r)
                 Asset.default_min_rel_exposure Asset.default_max_rel_exposure))
  end.

(** The three assignments of the second loop of [from_csv] (lines 37-39). *)
Definition with_asset_row (row : AssetRow) (a : Asset) : Asset :=
  Asset.mk (Asset.asset_id a) (Asset.segments a) (Asset.total_exposure a)
    (Asset.total_profit a) (Asset.total_risk_weighted_assets a)
    (Asset.average_risk_weight a)
    (1 - row_max_exposure_decrease row) (1 + row_max_exposure_increase row)
    (row_get (row_stdev_profitability row) 0).

(** The row of the segments table [to_tables] writes for an input row that
    is left as it is. *)
Definition table_row_of (r : string * SegmentRow)
  : string * string * Q * Q * Q * Q * Q :=
  (row_asset (snd r), fst r, row_exposure (snd r),
   row_average_profitability (snd r), row_risk_weight (snd r),
   row_get (row_rel_sell_cost (snd r)) 0,
   row_get (row_rel_origination_cost (snd r)) 0).

(** The exposure an allocation asks for each segment of a portfolio, before
    rounding, in the order of the two loops of [new_portfolio]. *)
Definition target_exposures (new_distribution : dict (string * string) Q)
    (p : Portfolio) : list Q :=
  flat_map (fun a : Asset =>
              map (fun s =>
                     multiplier_of new_distribution
                       (Asset.asset_id a, Segment.segment_id s)
                     * Segment.exposure s)
                  (dict_values (Asset.segments a)))
           (dict_values (Portfolio.assets p)).

(** The key under which the optimizer and [new_portfolio] know the segment
    of a row: (asset id, segment id). *)
Definition key_of_row (r : string * SegmentRow) : string * string :=
  (row_asset (snd r), fst r).

(** The row of the segments table [to_tables] writes for an input row after
    rebalancing with [new_distribution]: the exposure is the rounded product
    of multiplier and exposure, the other columns are the input's. *)
Definition rebalanced_row_of (new_distribution : dict (string * string) Q)
    (r : string * SegmentRow) : string * string * Q * Q * Q * Q * Q :=
  (row_asset (snd r), fst r,
   inject_Z (py_round (multiplier_of new_distribution (key_of_row r)
                       * row_exposure (snd r))),
   row_average_profitability (snd r), row_risk_weight (snd r),
   row_get (row_rel_sell_cost (snd r)) 0,
   row_get (row_rel_origination_cost (snd r)) 0).

(* ------------------------------------------------------------------ *)
(** ** portfolio_optimizer.py: the constraint system

    The model [optimize_portfolio] hands to Xpress, as predicates over an
    assignment of values to its decision variables (lines 30-80).  The
    downside-risk constraint of line 90 involves a square root and is not
    part of this embedding. *)

Module XpressModel.
(** Values for the decision variables of lines 35-48. *)
Record assignment : Type := {
  segment_vars : string * string -> Q;
  segment_increase_vars : string * string -> Q;
  segment_decrease_vars : string * string -> Q;
  new_total_exposure : Q;
  portfolio_exposure_vars : string -> Q;
  profit_downside_var : Q
}.

(** The key [(asset.asset_id, segment.segment_id)] of a variable. *)
Definition key (asset : Asset) (segment : Segment.t) : string * string :=
  (Asset.asset_id asset, Segment.segment_id segment).

(** [xp.Sum(f(asset, segment) for asset in portfolio.assets.values()
            for segment in asset.segments.values())] *)
Definition sum_segments (p : Portfolio) (f : Asset -> Segment.t -> Q) : Q :=
  Qsum (flat_map (fun asset : Asset =>
                    map (f asset) (dict_values (Asset.segments asset)))
                 (dict_values (Portfolio.assets p))).

(** Every variable is created with [lb=0.0] (lines 35-48). *)
Definition lower_bounds (p : Portfolio) (v : assignment) : Prop :=
  Forall (fun k => 0 <= segment_vars v k
                   /\ 0 <= segment_increase_vars v k
                   /\ 0 <= segment_decrease_vars v k)
         (Xpress.segments_of p)
  /\ 0 <= new_total_exposure v
  /\ Forall (fun aid => 0 <= portfolio_exposure_vars v aid)
            (dict_keys (Portfolio.assets p))
  /\ 0 <= profit_downside_var v.

(** Lines 51-53: [x = 1 + increase - decrease] for every segment. *)
Definition segment_relationship (p : Portfolio) (v : assignment) : Prop :=
  Forall (fun asset : Asset =>
            Forall (fun segment =>
                      segment_vars v (key asset segment)
                      == 1 + segment_increase_vars v (key asset segment)
                         - segment_decrease_vars v (key asset segment))
                   (dict_values (Asset.segments asset)))
         (dict_values (Portfolio.assets p)).

(** Lines 56-58: the new total exposure. *)
Definition total_exposure (p : Portfolio) (v : assignment) : Prop :=
  sum_segments p (fun asset segment =>
                    Segment.exposure segment * segment_vars v (key asset segment))
  == new_total_exposure v.

(** Lines 61-63: the average risk weight stays below the limit. *)
Definition risk_weight (p : Portfolio) (risk_weight_limit : Q) (v : assignment)
  : Prop :=
  sum_segments p (fun asset segment =>
                    Segment.exposure segment * Segment.risk_weight segment
                    * segment_vars v (key asset segment))
  <= risk_weight_limit * new_total_exposure v.

(** Lines 66-67: the new exposure of every asset. *)
Definition asset_exposure (p : Portfolio) (v : assignment) : Prop :=
  Forall (fun asset : Asset =>
            Qsum (map (fun segment =>
                         Segment.exposure segment
                         * segment_vars v (key asset segment))
                      (dict_values (Asset.segments asset)))
            == portfolio_exposure_vars v (Asset.asset_id asset))
         (dict_values (Portfolio.assets p)).

(** Lines 70-71: the exposure of every asset stays within its limits. *)
Definition exposure_limits (p : Portfolio) (v : assignment) : Prop :=
  Forall (fun asset : Asset =>
            Asset.min_rel_exposure asset * Asset.total_exposure asset
            <= portfolio_exposure_vars v (Asset.asset_id asset)
            /\ portfolio_exposure_vars v (Asset.asset_id asset)
               <= Asset.max_rel_exposure asset * Asset.total_exposure asset)
         (dict_values (Portfolio.assets p)).

(** Lines 74-79: the objective expressions. *)
Definition profit (p : Portfolio) (v : assignment) : Q :=
  sum_segments p (fun asset segment =>
                    Segment.profitability segment * Segment.exposure segment
                    * segment_vars v (key asset segment)).

Definition transaction_cost (p : Portfolio) (v : assignment) : Q :=
  sum_segments p (fun asset segment =>
                    Segment.rel_origination_cost segment * Segment.exposure segment
                    * segment_increase_vars v (key asset segment)
                    + Segment.rel_sell_cost segment * Segment.exposure segment
                      * segment_decrease_vars v (key asset segment)).

Definition net_profit_objective (p : Portfolio) (v : assignment) : Q :=
  profit p v - transaction_cost p v.

(** An assignment the solver may return when risk is not considered. *)
Definition feasible (p : Portfolio) (risk_weight_limit : Q) (v : assignment)
  : Prop :=
  lower_bounds p v
  /\ segment_relationship p v
  /\ total_exposure p v
  /\ risk_weight p risk_weight_limit v
  /\ asset_exposure p v
  /\ exposure_limits p v.

(** The plan that changes nothing: every multiplier 1, no increase, no
    decrease, every exposure as it is. *)
Definition unchanged (p : Portfolio) : assignment :=
  {| segment_vars := fun _ => 1;
     segment_increase_vars := fun _ => 0;
     segment_decrease_vars := fun _ => 0;
     new_total_exposure := Portfolio.total_exposure p;
     portfolio_exposure_vars := fun aid =>
       match dict_get aid (Portfolio.assets p) with
       | Some asset => Asset.total_exposure asset
       | None => 0
       end;
     profit_downside_var := 0 |}.
End XpressModel.

(** Records with every value multiplied by [c]. *)
Definition scaled {K : Type} (c : Q) (records : dict K Q) : dict K Q :=
  map (fun kv : K * Q => (fst kv, c * snd kv)) records.

(* ------------------------------------------------------------------ *)
(** ** Example data *)

Module Examples.
(** Two assets; the correlation records are not symmetric: the record for
    [("A2", "A1")] is absent (value 0) while [("A1", "A2")] is [1/2]. *)
Definition assets2 : list string := ["A1"; "A2"].
Definition corr_asym : dict (string * string) Q :=
  [(("A1", "A1"), 1); (("A1", "A2"), 1 # 2); (("A2", "A2"), 1)].
Definition corr_sym : dict (string * string) Q :=
  [(("A1", "A1"), 1); (("A1", "A2"), 1 # 2); (("A2", "A1"), 1 # 2);
   (("A2", "A2"), 1)].
Definition stdev2 : dict string Q := [("A1", 1 # 10); ("A2", 2 # 10)].
Definition exposures2 : dict string Q := [("A1", 1000); ("A2", 1200)].

(** A solver stub: net profit 120 and downside 7 whatever it is asked. *)
Definition gams_stub (_ : Gams.SolveCall) : Gams.Levels :=
  {| Gams.profit_objective_variable_l := 120;
     Gams.profit_downside_var_l := 7 |}.
(** The manager of [entry_point.solve_optimization]. *)
Definition manager : InstanceManager := {| instance_name := "" |}.

(** One asset whose only segment has exposure 0 and risk weight 0.3. *)
Definition rows_zero : list (string * SegmentRow) :=
  [("s1", {| row_asset := "A"; row_exposure := 0; row_risk_weight := 3 # 10;
             row_average_profitability := 5 # 100;
             row_rel_sell_cost := None; row_rel_origination_cost := None |})].

(** The two-asset scenario: one segment of exposure 1000 each, bounds 0.2,
    identity correlation. *)
Definition rows2 : list (string * SegmentRow) :=
  [("s1", {| row_asset := "A1"; row_exposure := 1000; row_risk_weight := 3 # 10;
             row_average_profitability := 5 # 100;
             row_rel_sell_cost := Some (1 # 100);
             row_rel_origination_cost := Some (1 # 100) |});
   ("s2", {| row_asset := "A2"; row_exposure := 1000; row_risk_weight := 3 # 10;
             row_average_profitability := 5 # 100;
             row_rel_sell_cost := Some (1 # 100);
             row_rel_origination_cost := Some (1 # 100) |})].
Definition arows2 : list (string * AssetRow) :=
  [("A1", {| row_max_exposure_decrease := 2 # 10;
             row_max_exposure_increase := 2 # 10;
             row_stdev_profitability := Some (1 # 10) |});
   ("A2", {| row_max_exposure_decrease := 2 # 10;
             row_max_exposure_increase := 2 # 10;
             row_stdev_profitability := Some (2 # 10) |})].
Definition corr2 : DataFrame :=
  [("A1", [("A1", 1); ("A2", 0)]); ("A2", [("A1", 0); ("A2", 1)])].

(** A third segment whose asset ["A3"] is neither in [arows2] nor in
    [corr2]. *)
Definition rows_orphan : list (string * SegmentRow) :=
  rows2 ++
  [("s3", {| row_asset := "A3"; row_exposure := 500; row_risk_weight := 4 # 10;
             row_average_profitability := 3 # 100;
             row_rel_sell_cost := None; row_rel_origination_cost := None |})].

(** Allocations for [rows2]: complete, and with the entry of ["s2"] absent. *)
Definition alloc2 : dict (string * string) Q :=
  [(("A1", "s1"), 12 # 10); (("A2", "s2"), 1)].
Definition alloc2_partial : dict (string * string) Q :=
  [(("A1", "s1"), 12 # 10)].

(** Solver stubs. *)
Definition xp_optimal (_ : Xpress.problem)
  : Xpress.SolStatus * (string * string -> Q) :=
  (Xpress.OPTIMAL, fun _ => 12 # 10).
Definition xp_infeasible (_ : Xpress.problem)
  : Xpress.SolStatus * (string * string -> Q) :=
  (Xpress.INFEASIBLE, fun _ => 0).
Definition xp_unbounded (_ : Xpress.problem)
  : Xpress.SolStatus * (string * string -> Q) :=
  (Xpress.UNBOUNDED, fun _ => 7).

(** The portfolio [from_csv] builds from the two-asset scenario, and its
    rebalancing under [alloc2]. *)
Definition portfolio2 : Portfolio :=
  Eval vm_compute in
    match from_csv manager rows2 arows2 corr2 with
    | Ok p => p
    | Raise _ => Portfolio.new "" [] []
    end.
Definition rebalanced2 : Portfolio :=
  Eval vm_compute in
    match new_portfolio manager portfolio2 alloc2 with
    | Ok p => p
    | Raise _ => Portfolio.new "" [] []
    end.

(** The allocation that leaves [rows2] as it is. *)
Definition alloc2_unit : dict (string * string) Q :=
  [(("A1", "s1"), 1); (("A2", "s2"), 1)].

(** [portfolio2] stored as objects in an empty heap: the reference to the
    portfolio object and the heap. *)
Definition stored2 : Heap.loc * Heap.heap :=
  Eval vm_compute in
    match Heap.store_portfolio portfolio2 [] with
    | Some (Ok l, h) => (l, h)
    | _ => (0%nat, [])
    end.

(** Three segments of one asset, a fourth that reuses the identifier of the
    first, and the asset built from the three by [add_segment]. *)
Definition segment_first : Segment.t :=
  Segment.mk "s1" "A" 100 (5 # 100) (3 # 10) (1 # 100) (2 # 100).
Definition segments3 : list Segment.t :=
  [segment_first;
   Segment.mk "s2" "A" 250 (4 # 100) (5 # 10) (1 # 100) (2 # 100);
   Segment.mk "s3" "A" 0 (7 # 100) (2 # 10) 0 0].
Definition segment_again : Segment.t :=
  Segment.mk "s1" "A" 40 (6 # 100) (1 # 10) 0 0.
Definition asset3 : Asset :=
  Eval vm_compute in fold_left Asset.add_segment segments3 (fresh_asset "A").

(** Four segments of two assets, the rows of the assets interleaved; some of
    the rows lack cost columns. *)
Definition row_s1 : string * SegmentRow :=
  ("s1", {| row_asset := "A1"; row_exposure := 1000; row_risk_weight := 3 # 10;
            row_average_profitability := 5 # 100;
            row_rel_sell_cost := Some (1 # 100);
            row_rel_origination_cost := Some (2 # 100) |}).
Definition row_s2 : string * SegmentRow :=
  ("s2", {| row_asset := "A2"; row_exposure := 400; row_risk_weight := 5 # 10;
            row_average_profitability := 8 # 100;
            row_rel_sell_cost := None; row_rel_origination_cost := None |}).
Definition row_s3 : string * SegmentRow :=
  ("s3", {| row_asset := "A1"; row_exposure := 600; row_risk_weight := 2 # 10;
            row_average_profitability := 3 # 100;
            row_rel_sell_cost := Some (1 # 100);
            row_rel_origination_cost := None |}).
Definition row_s4 : string * SegmentRow :=
  ("s4", {| row_asset := "A2"; row_exposure := 0; row_risk_weight := 1;
            row_average_profitability := 9 # 100;
            row_rel_sell_cost := None; row_rel_origination_cost := None |}).
Definition rows4 : list (string * SegmentRow) := [row_s1; row_s2; row_s3; row_s4].

(** The portfolio [from_csv] builds from [rows4]. *)
Definition portfolio4 : Portfolio :=
  Eval vm_compute in
    match from_csv manager rows4 arows2 corr2 with
    | Ok p => p
    | Raise _ => Portfolio.new "" [] []
    end.

(** An allocation for [rows4] whose products with the exposures are not all
    whole numbers, and the portfolio [new_portfolio] makes of it:
    [13/12 * 600 = 650], [1.0004 * 1000 = 1000.4], [1.25 * 400 = 500]. *)
Definition alloc4 : dict (string * string) Q :=
  [(("A1", "s1"), 10004 # 10000); (("A1", "s3"), 13 # 12);
   (("A2", "s2"), 125 # 100); (("A2", "s4"), 1)].
Definition rebalanced4 : Portfolio :=
  Eval vm_compute in
    match new_portfolio manager portfolio4 alloc4 with
    | Ok p => p
    | Raise _ => Portfolio.new "" [] []
    end.

(** The asset [portfolio4] holds under ["A1"]. *)
Definition asset4_A1 : Asset :=
  Eval vm_compute in
    match dict_get "A1"%string (Portfolio.assets portfolio4) with
    | Some a => a
    | None => fresh_asset ""
    end.

(** The allocation with multiplier 1 for every segment of [rows4], in the
    order of [rebalanced4]. *)
Definition alloc4_unit : dict (string * string) Q :=
  [(("A1", "s1"), 1); (("A1", "s3"), 1); (("A2", "s2"), 1); (("A2", "s4"), 1)].

(** A solver stub that reports a loss: net profit -100 and downside 7. *)
Definition gams_stub_loss (_ : Gams.SolveCall) : Gams.Levels :=
  {| Gams.profit_objective_variable_l := - (100);
     Gams.profit_downside_var_l := 7 |}.

(** One asset with one segment of exposure 1000 and risk weight 0.3, the
    portfolio [from_csv] builds from it, and the allocation that sells the
    segment. *)
Definition rows_one : list (string * SegmentRow) :=
  [("s1", {| row_asset := "A"; row_exposure := 1000; row_risk_weight := 3 # 10;
             row_average_profitability := 5 # 100;
             row_rel_sell_cost := None; row_rel_origination_cost := None |})].
Definition portfolio_one : Portfolio :=
  Eval vm_compute in
    match from_csv manager rows_one [] [] with
    | Ok p => p
    | Raise _ => Portfolio.new "" [] []
    end.
Definition alloc_sell : dict (string * string) Q := [(("A", "s1"), 0)].

End Examples.

(* ================================================================== *)
(** * Properties *)

(** ** Numbers *)

Lemma Qltb_lt (x y : Q) : Qltb x y = true <-> x < y.
Proof. unfold Qltb, Qlt. apply Z.ltb_lt. Qed.

Lemma Qltb_ge (x y : Q) : Qltb x y = false <-> y <= x.
Proof. unfold Qltb, Qle. apply Z.ltb_ge. Qed.

#[global] Instance Qltb_proper : Proper (Qeq ==> Qeq ==> eq) Qltb.
Proof.
  intros x x' Hx y y' Hy.
  destruct (Qltb x y) eqn:E, (Qltb x' y') eqn:E'; try reflexivity.
  - apply Qltb_lt in E. apply Qltb_ge in E'. rewrite Hx, Hy in E.
    exfalso. apply (Qlt_not_le _ _ E E').
  - apply Qltb_lt in E'. apply Qltb_ge in E. rewrite Hx, Hy in E.
    exfalso. apply (Qlt_not_le _ _ E' E).
Qed.

Lemma fold_left_Qplus (l : list Q) (a : Q) : fold_left Qplus l a == a + Qsum l.
Proof.
  unfold Qsum. revert a.
  induction l as [|x l IH]; intros a; simpl.
  - ring.
  - rewrite IH, (IH (0 + x)). ring.
Qed.

Lemma Qsum_nil : Qsum [] = 0.
Proof. reflexivity. Qed.

Lemma Qsum_cons (x : Q) (l : list Q) : Qsum (x :: l) == x + Qsum l.
Proof. unfold Qsum at 1. simpl. rewrite fold_left_Qplus. ring. Qed.

Lemma Qsum_app (l1 l2 : list Q) : Qsum (l1 ++ l2) == Qsum l1 + Qsum l2.
Proof.
  induction l1 as [|x l1 IH]; simpl.
  - rewrite Qsum_nil. ring.
  - rewrite !Qsum_cons, IH. ring.
Qed.

Lemma Qsum_snoc (l : list Q) (x : Q) : Qsum (l ++ [x]) == Qsum l + x.
Proof. rewrite Qsum_app, Qsum_cons, Qsum_nil. ring. Qed.

Lemma Qsum_map_plus {A : Type} (g h : A -> Q) (l : list A) :
  Qsum (map (fun x => g x + h x) l) == Qsum (map g l) + Qsum (map h l).
Proof.
  induction l as [|x l IH]; simpl.
  - rewrite Qsum_nil. ring.
  - rewrite !Qsum_cons, IH. ring.
Qed.

Lemma Qsum_map_ext {A : Type} (g h : A -> Q) (l : list A) :
  (forall x, x ∈ l -> g x == h x) -> Qsum (map g l) == Qsum (map h l).
Proof.
  induction l as [|x l IH]; intros Hgh; simpl.
  - reflexivity.
  - rewrite !Qsum_cons, IH.
    + rewrite (Hgh x) by constructor. reflexivity.
    + intros y Hy. apply Hgh. now constructor.
Qed.

Lemma Qsum_flat_map {A : Type} (F : A -> list Q) (l : list A) :
  Qsum (flat_map F l) == Qsum (map (fun a => Qsum (F a)) l).
Proof.
  induction l as [|x l IH]; simpl.
  - reflexivity.
  - rewrite Qsum_app, Qsum_cons, IH. reflexivity.
Qed.

Lemma Qsum_map_zero {A : Type} (l : list A) : Qsum (map (fun _ => 0) l) == 0.
Proof.
  induction l as [|x l IH]; simpl.
  - reflexivity.
  - rewrite Qsum_cons, IH. ring.
Qed.

(** ** The [res] monad and Python dicts *)

Lemma res_bind_Ok {A B : Type} (m : res A) (k : A -> res B) (b : B) :
  (x ← m; k x) = Ok b -> exists a, m = Ok a /\ k a = Ok b.
Proof.
  destruct m as [a|e]; simpl.
  - intros Hk. exists a. split; [reflexivity | exact Hk].
  - discriminate.
Qed.

(** An invariant of the accumulator survives a loop that completes. *)
Lemma for_each_invariant {A S : Type} (P : S -> Prop) (body : S -> A -> res S)
    (xs : list A) :
  (forall s x s', x ∈ xs -> P s -> body s x = Ok s' -> P s') ->
  forall acc acc', P acc -> for_each body xs acc = Ok acc' -> P acc'.
Proof.
  induction xs as [|x xs IH]; intros Hbody acc acc' Hacc Hrun; simpl in Hrun.
  - injection Hrun as <-. exact Hacc.
  - apply res_bind_Ok in Hrun as (s & Hs & Hrest).
    apply (IH (fun s0 y s1 Hy => Hbody s0 y s1 (list_elem_of_further _ _ _ Hy))
              s acc'); [|exact Hrest].
    apply (Hbody acc x s); [constructor | exact Hacc | exact Hs].
Qed.

Lemma elem_of_map {A B : Type} (f : A -> B) (l : list A) (y : B) :
  y ∈ map f l <-> exists x, y = f x /\ x ∈ l.
Proof.
  induction l as [|a l IH]; simpl.
  - split; [intros Hin; inversion Hin | intros (x & _ & Hin); inversion Hin].
  - rewrite elem_of_cons, IH. split.
    + intros [->|(x & -> & Hin)].
      * exists a. split; [reflexivity | constructor].
      * exists x. split; [reflexivity | now constructor].
    + intros (x & -> & Hin). apply elem_of_cons in Hin as [->|Hin].
      * now left.
      * right. now exists x.
Qed.

Section DictFacts.
Context {K V : Type} `{EqDecision K}.
Implicit Types (k : K) (v : V) (d : dict K V).

Lemma dict_get_set_eq k v d : dict_get k (dict_set k v d) = Some v.
Proof.
  induction d as [|[k' v'] d IH]; simpl.
  - destruct (decide (k = k)); [reflexivity | contradiction].
  - destruct (decide (k = k')) as [->|Hne]; simpl.
    + destruct (decide (k' = k')); [reflexivity | contradiction].
    + destruct (decide (k = k')); [contradiction | exact IH].
Qed.

Lemma dict_get_set_ne k k' v d :
  k <> k' -> dict_get k' (dict_set k v d) = dict_get k' d.
Proof.
  intros Hne. induction d as [|[k0 v0] d IH]; simpl.
  - destruct (decide (k' = k)); [congruence | reflexivity].
  - destruct (decide (k = k0)) as [->|Hne0]; simpl.
    + destruct (decide (k' = k0)); [congruence | reflexivity].
    + destruct (decide (k' = k0)); [reflexivity | exact IH].
Qed.

Lemma dict_get_None k d : dict_get k d = None <-> k ∉ dict_keys d.
Proof.
  unfold dict_keys. induction d as [|[k' v'] d IH]; simpl.
  - split; [intros _; apply not_elem_of_nil | reflexivity].
  - rewrite not_elem_of_cons. destruct (decide (k = k')) as [->|Hne].
    + split; [discriminate | intros [Hne _]; contradiction].
    + rewrite IH. tauto.
Qed.

Lemma dict_get_Some_elem k v d : dict_get k d = Some v -> (k, v) ∈ d.
Proof.
  induction d as [|[k' v'] d IH]; simpl; [discriminate|].
  destruct (decide (k = k')) as [->|Hne].
  - intros [= ->]. constructor.
  - intros Hd. apply list_elem_of_further, IH, Hd.
Qed.

Lemma dict_get_elem_NoDup k v d :
  NoDup (dict_keys d) -> (k, v) ∈ d -> dict_get k d = Some v.
Proof.
  unfold dict_keys. induction d as [|[k' v'] d IH]; simpl; intros Hnd Hin.
  - inversion Hin.
  - apply NoDup_cons in Hnd as [Hnotin Hnd].
    apply elem_of_cons in Hin as [[= -> ->]|Hin].
    + destruct (decide (k' = k')); [reflexivity | contradiction].
    + destruct (decide (k = k')) as [->|Hne]; [|apply IH; assumption].
      exfalso. apply Hnotin. apply elem_of_map. exists (k', v). split; [reflexivity | exact Hin].
Qed.

(** Assigning to an absent key appends. *)
Lemma dict_set_new k v d : dict_get k d = None -> dict_set k v d = d ++ [(k, v)].
Proof.
  induction d as [|[k' v'] d IH]; simpl; [reflexivity|].
  destruct (decide (k = k')); [discriminate|].
  intros Hd. rewrite IH by exact Hd. reflexivity.
Qed.

(** Assigning to the key that was appended last overwrites that entry. *)
Lemma dict_set_last k v v' d :
  dict_get k d = None -> dict_set k v' (d ++ [(k, v)]) = d ++ [(k, v')].
Proof.
  induction d as [|[k0 v0] d IH]; simpl.
  - destruct (decide (k = k)); [reflexivity | contradiction].
  - destruct (decide (k = k0)); [discriminate|].
    intros Hd. rewrite IH by exact Hd. reflexivity.
Qed.

Lemma dict_get_app_last k v d :
  dict_get k d = None -> dict_get k (d ++ [(k, v)]) = Some v.
Proof.
  intros Hd. rewrite <- (dict_set_new k v d Hd). apply dict_get_set_eq.
Qed.

Lemma dict_get_app_l k d d' :
  is_Some (dict_get k d) -> dict_get k (d ++ d') = dict_get k d.
Proof.
  induction d as [|[k0 v0] d IH]; simpl.
  - intros [? [=]].
  - destruct (decide (k = k0)); [reflexivity | exact IH].
Qed.

Lemma dict_get_app_r k d d' :
  dict_get k d = None -> dict_get k (d ++ d') = dict_get k d'.
Proof.
  induction d as [|[k0 v0] d IH]; simpl; [reflexivity|].
  destruct (decide (k = k0)); [discriminate | exact IH].
Qed.

Lemma dict_keys_set_present k v d :
  is_Some (dict_get k d) -> dict_keys (dict_set k v d) = dict_keys d.
Proof.
  unfold dict_keys. induction d as [|[k0 v0] d IH]; simpl.
  - intros [? [=]].
  - destruct (decide (k = k0)); simpl; [reflexivity|].
    intros Hd. rewrite IH by exact Hd. reflexivity.
Qed.

(** A property of all values survives an assignment of a value that has it. *)
Lemma dict_set_Forall (P : V -> Prop) k v d :
  Forall P (dict_values d) -> P v -> Forall P (dict_values (dict_set k v d)).
Proof.
  unfold dict_values. intros Hd Hv.
  induction d as [|[k0 v0] d IH]; simpl.
  - repeat constructor. exact Hv.
  - simpl in Hd. apply Forall_cons in Hd as [Hv0 Hd].
    destruct (decide (k = k0)); simpl; constructor; auto.
Qed.

Lemma dict_get_Forall (P : V -> Prop) k v d :
  Forall P (dict_values d) -> dict_get k d = Some v -> P v.
Proof.
  unfold dict_values. intros Hd Hget. apply dict_get_Some_elem in Hget.
  rewrite Forall_forall in Hd. apply Hd.
  apply elem_of_map. exists (k, v). split; [reflexivity | exact Hget].
Qed.
End DictFacts.

(** ** domain.py: [Portfolio.__post_init__] keeps the non-aggregate fields *)

Lemma post_init_fold_fields {A D S : Type} (l : list (Asset.t S))
    (p0 : Portfolio.t A D) :
  Portfolio.portfolio_id (fold_left Portfolio.post_init_step l p0)
  = Portfolio.portfolio_id p0
  /\ Portfolio.assets (fold_left Portfolio.post_init_step l p0)
     = Portfolio.assets p0
  /\ Portfolio.correlation_matrix (fold_left Portfolio.post_init_step l p0)
     = Portfolio.correlation_matrix p0.
Proof.
  revert p0. induction l as [|a l IH]; intros p0; simpl.
  - auto.
  - destruct (IH (Portfolio.post_init_step p0 a)) as (H1 & H2 & H3).
    rewrite H1, H2, H3. auto.
Qed.

Lemma Portfolio_new_assets (id : string) (assets : dict string Asset)
    (corr : DataFrame) :
  Portfolio.assets (Portfolio.new id assets corr) = assets.
Proof. unfold Portfolio.new. apply post_init_fold_fields. Qed.

Lemma Portfolio_new_correlation_matrix (id : string) (assets : dict string Asset)
    (corr : DataFrame) :
  Portfolio.correlation_matrix (Portfolio.new id assets corr) = corr.
Proof. unfold Portfolio.new. apply post_init_fold_fields. Qed.

(** ** instance_manager.py: when [new_portfolio] raises *)

Lemma first_missing_app (alloc : dict (string * string) Q)
    (l1 l2 : list (string * string)) :
  first_missing alloc (l1 ++ l2)
  = match first_missing alloc l1 with
    | Some k => Some k
    | None => first_missing alloc l2
    end.
Proof.
  induction l1 as [|k l1 IH]; simpl; [reflexivity|].
  destruct (dict_get k alloc); [exact IH | reflexivity].
Qed.

Lemma first_missing_None (alloc : dict (string * string) Q)
    (keys : list (string * string)) :
  first_missing alloc keys = None
  <-> forall k, k ∈ keys -> is_Some (dict_get k alloc).
Proof.
  induction keys as [|k keys IH]; simpl.
  - split; [intros _ k Hk; inversion Hk | reflexivity].
  - destruct (dict_get k alloc) as [m|] eqn:Hk.
    + rewrite IH. split.
      * intros Hall k' Hk'. apply elem_of_cons in Hk' as [->|Hk'].
        -- rewrite Hk. eauto.
        -- apply Hall, Hk'.
      * intros Hall k' Hk'. apply Hall. now constructor.
    + split; [discriminate|].
      intros Hall. destruct (Hall k) as [m Hm]; [constructor|]. congruence.
Qed.

Lemma first_missing_Some (alloc : dict (string * string) Q)
    (keys : list (string * string)) (k : string * string) :
  first_missing alloc keys = Some k -> k ∈ keys /\ dict_get k alloc = None.
Proof.
  induction keys as [|k0 keys IH]; simpl; [discriminate|].
  destruct (dict_get k0 alloc) as [m|] eqn:Hk0.
  - intros Hk. destruct (IH Hk) as [Hin Hnone]. split; [now constructor | exact Hnone].
  - intros [= <-]. split; [constructor | exact Hk0].
Qed.

Lemma new_portfolio_step_outcome (alloc : dict (string * string) Q)
    (asset : Asset) (acc : dict string Asset) (segment : Segment.t) :
  match dict_get (Asset.asset_id asset, Segment.segment_id segment) alloc with
  | None =>
      new_portfolio_step alloc asset acc segment
      = Raise (KeyError (Asset.asset_id asset, Segment.segment_id segment))
  | Some _ => exists acc', new_portfolio_step alloc asset acc segment = Ok acc'
  end.
Proof.
  unfold new_portfolio_step.
  destruct (dict_get (Asset.asset_id asset, Segment.segment_id segment) alloc);
    [|reflexivity].
  destruct (dict_get (Asset.asset_id asset) acc); eexists; reflexivity.
Qed.

Lemma new_portfolio_segments_outcome (alloc : dict (string * string) Q)
    (asset : Asset) (segs : list Segment.t) (acc : dict string Asset) :
  match first_missing alloc
          (map (fun s => (Asset.asset_id asset, Segment.segment_id s)) segs) with
  | Some k => for_each (new_portfolio_step alloc asset) segs acc = Raise (KeyError k)
  | None => exists acc', for_each (new_portfolio_step alloc asset) segs acc = Ok acc'
  end.
Proof.
  revert acc. induction segs as [|s segs IH]; intros acc; simpl.
  - eexists; reflexivity.
  - pose proof (new_portfolio_step_outcome alloc asset acc s) as Hstep.
    destruct (dict_get (Asset.asset_id asset, Segment.segment_id s) alloc).
    + destruct Hstep as [acc1 ->]. simpl. apply IH.
    + rewrite Hstep. reflexivity.
Qed.

Lemma new_portfolio_assets_outcome (alloc : dict (string * string) Q)
    (assets : list Asset) (acc : dict string Asset) :
  match first_missing alloc (flat_map asset_pairs assets) with
  | Some k => new_portfolio_assets alloc assets acc = Raise (KeyError k)
  | None => exists acc', new_portfolio_assets alloc assets acc = Ok acc'
  end.
Proof.
  unfold new_portfolio_assets.
  revert acc. induction assets as [|a assets IH]; intros acc; simpl.
  - eexists; reflexivity.
  - rewrite first_missing_app. unfold asset_pairs at 1.
    pose proof (new_portfolio_segments_outcome alloc a
                  (dict_values (Asset.segments a)) acc) as Hin.
    destruct (first_missing alloc
                (map (fun s => (Asset.asset_id a, Segment.segment_id s))
                     (dict_values (Asset.segments a)))).
    + rewrite Hin. reflexivity.
    + destruct Hin as [acc1 ->]. simpl. apply IH.
Qed.

(** [new_portfolio] raises exactly the [KeyError] of the first known pair the
    allocation misses, and returns when there is none. *)
Lemma new_portfolio_outcome (self : InstanceManager) (p : Portfolio)
    (alloc : dict (string * string) Q) :
  match first_missing alloc (known_pairs p) with
  | Some k => new_portfolio self p alloc = Raise (KeyError k)
  | None => exists p', new_portfolio self p alloc = Ok p'
  end.
Proof.
  unfold new_portfolio, known_pairs.
  pose proof (new_portfolio_assets_outcome alloc
                (dict_values (Portfolio.assets p)) []) as Hrun.
  destruct (first_missing alloc
              (flat_map asset_pairs (dict_values (Portfolio.assets p)))).
  - rewrite Hrun. reflexivity.
  - destruct Hrun as [acc' ->]. simpl. eexists; reflexivity.
Qed.

(** ** instance_manager.py: fields [new_portfolio] leaves at their default *)

Lemma add_segment_profit_stdev (a : Asset) (s : Segment.t) :
  Asset.profit_stdev (Asset.add_segment a s) = Asset.profit_stdev a.
Proof. reflexivity. Qed.

Lemma new_portfolio_step_profit_stdev (alloc : dict (string * string) Q)
    (asset : Asset) (acc acc' : dict string Asset) (segment : Segment.t) :
  Forall (fun a : Asset => Asset.profit_stdev a = 0) (dict_values acc) ->
  new_portfolio_step alloc asset acc segment = Ok acc' ->
  Forall (fun a : Asset => Asset.profit_stdev a = 0) (dict_values acc').
Proof.
  intros Hacc. unfold new_portfolio_step.
  destruct (dict_get (Asset.asset_id asset, Segment.segment_id segment) alloc)
    as [m|]; [|discriminate].
  destruct (dict_get (Asset.asset_id asset) acc) as [a|] eqn:Ha;
    intros [= <-]; apply dict_set_Forall; try exact Hacc.
  - rewrite add_segment_profit_stdev.
    apply (dict_get_Forall _ _ _ _ Hacc Ha).
  - reflexivity.
Qed.

(** C10.  Whenever [new_portfolio] returns, every asset of the returned
    portfolio has profit standard deviation 0 (the value is not taken from the
    original asset) and the returned portfolio's correlation matrix is the
    empty frame. *)
Theorem C10_new_portfolio_defaults (self : InstanceManager) (p p' : Portfolio)
    (alloc : dict (string * string) Q) :
  new_portfolio self p alloc = Ok p' ->
  Forall (fun a : Asset => Asset.profit_stdev a = 0)
         (dict_values (Portfolio.assets p'))
  /\ Portfolio.correlation_matrix p' = empty_DataFrame.
Proof.
  unfold new_portfolio. intros Hrun.
  apply res_bind_Ok in Hrun as (new_assets & Hloop & [= <-]).
  rewrite Portfolio_new_assets, Portfolio_new_correlation_matrix.
  split; [|reflexivity].
  unfold new_portfolio_assets in Hloop.
  refine (for_each_invariant
            (fun acc => Forall (fun a : Asset => Asset.profit_stdev a = 0)
                               (dict_values acc))
            _ _ _ [] new_assets _ Hloop); [|constructor].
  intros acc asset acc1 _ Hacc Hinner.
  refine (for_each_invariant
            (fun acc => Forall (fun a : Asset => Asset.profit_stdev a = 0)
                               (dict_values acc))
            _ _ _ acc acc1 Hacc Hinner).
  intros s seg s' _ Hs Hstep.
  exact (new_portfolio_step_profit_stdev alloc asset s s' seg Hs Hstep).
Qed.

Lemma C10_new_portfolio_defaults_witness :
  new_portfolio Examples.manager Examples.portfolio2 Examples.alloc2
  = Ok Examples.rebalanced2
  /\ Forall (fun a : Asset => Asset.profit_stdev a = 0)
            (dict_values (Portfolio.assets Examples.rebalanced2))
  /\ Portfolio.correlation_matrix Examples.rebalanced2 = empty_DataFrame.
Proof.
  split; [vm_compute; reflexivity|].
  apply (C10_new_portfolio_defaults Examples.manager Examples.portfolio2
           Examples.rebalanced2 Examples.alloc2).
  vm_compute; reflexivity.
Defined.

(** ** instance_manager.py: [from_csv] performs no validation *)

Lemma from_csv_segment_loop_defaults (rows : list (string * SegmentRow))
    (acc : dict string Asset) :
  Forall has_default_bounds (dict_values acc) ->
  Forall has_default_bounds
         (dict_values (fold_left from_csv_segment_step rows acc)).
Proof.
  revert acc. induction rows as [|[sid row] rows IH]; intros acc Hacc; simpl.
  - exact Hacc.
  - apply IH.
    destruct (dict_get (row_asset row) acc) as [a|] eqn:Ha.
    + apply dict_set_Forall; [exact Hacc|].
      exact (dict_get_Forall _ _ _ _ Hacc Ha).
    + apply dict_set_Forall; [exact Hacc|]. repeat split.
Qed.

(** The second loop touches only the assets named in the asset table. *)
Lemma from_csv_asset_loop_other (arows : list (string * AssetRow))
    (acc : dict string Asset) (aid : string) :
  dict_get aid arows = None ->
  dict_get aid (fold_left from_csv_asset_step arows acc) = dict_get aid acc.
Proof.
  revert acc. induction arows as [|[k row] arows IH]; intros acc Hnone; simpl.
  - reflexivity.
  - simpl in Hnone. destruct (decide (aid = k)) as [->|Hne]; [discriminate|].
    rewrite IH by exact Hnone.
    destruct (dict_get k acc); [|reflexivity].
    apply dict_get_set_ne. congruence.
Qed.

(** C2, as amended.  [from_csv] raises on no input: it returns a portfolio
    that holds the correlation frame as given, and in which an asset that no
    row of the asset table names keeps the default bounds and standard
    deviation.  [new_portfolio] raises exactly when the allocation has no
    entry for some (asset, segment) pair of the portfolio, and what it raises
    is the [KeyError] of the first such pair. *)
Theorem C2_builder_failures (self : InstanceManager)
    (df_segments : list (string * SegmentRow))
    (df_assets : list (string * AssetRow)) (df_correlation_matrix : DataFrame)
    (portfolio : Portfolio) (new_distribution : dict (string * string) Q) :
  (exists p,
     from_csv self df_segments df_assets df_correlation_matrix = Ok p
     /\ Portfolio.correlation_matrix p = df_correlation_matrix
     /\ forall aid a,
          dict_get aid (Portfolio.assets p) = Some a ->
          dict_get aid df_assets = None -> has_default_bounds a)
  /\ ((forall k, k ∈ known_pairs portfolio -> is_Some (dict_get k new_distribution))
      -> exists p', new_portfolio self portfolio new_distribution = Ok p')
  /\ (forall k, k ∈ known_pairs portfolio -> dict_get k new_distribution = None ->
      exists k',
        new_portfolio self portfolio new_distribution = Raise (KeyError k')
        /\ first_missing new_distribution (known_pairs portfolio) = Some k'
        /\ k' ∈ known_pairs portfolio
        /\ dict_get k' new_distribution = None).
Proof.
  split; [|split].
  - eexists. split; [reflexivity|].
    rewrite Portfolio_new_correlation_matrix, Portfolio_new_assets.
    split; [reflexivity|].
    intros aid a Ha Hnone.
    rewrite from_csv_asset_loop_other in Ha by exact Hnone.
    refine (dict_get_Forall _ _ _ _ _ Ha).
    apply from_csv_segment_loop_defaults. constructor.
  - intros Hall. apply first_missing_None in Hall.
    pose proof (new_portfolio_outcome self portfolio new_distribution) as Hout.
    rewrite Hall in Hout. exact Hout.
  - intros k Hk Hnone.
    pose proof (new_portfolio_outcome self portfolio new_distribution) as Hout.
    destruct (first_missing new_distribution (known_pairs portfolio)) as [k'|] eqn:Hfm.
    + exists k'. split; [exact Hout|]. split; [reflexivity|].
      apply first_missing_Some, Hfm.
    + exfalso. rewrite first_missing_None in Hfm.
      destruct (Hfm k Hk) as [m Hm]. congruence.
Qed.

(** C2, as stated, fails.  A segment row names the asset ["A3"], which has no
    row in the asset table and no row or column in the correlation frame, and
    [from_csv] returns a portfolio all the same, with the default bounds on
    that asset.  On a missing allocation entry [new_portfolio] raises a
    [KeyError]. *)
Lemma C2_from_csv_accepts_unknown_asset :
  dict_get "A3"%string Examples.arows2 = None
  /\ dict_get "A3"%string Examples.corr2 = None
  /\ (exists p a,
        from_csv Examples.manager Examples.rows_orphan Examples.arows2
                 Examples.corr2 = Ok p
        /\ dict_get "A3"%string (Portfolio.assets p) = Some a
        /\ Asset.min_rel_exposure a = 5 # 10
        /\ Asset.max_rel_exposure a = 15 # 10)
  /\ new_portfolio Examples.manager Examples.portfolio2 Examples.alloc2_partial
     = Raise (KeyError ("A2"%string, "s2"%string)).
Proof.
  split; [reflexivity|]. split; [reflexivity|]. split.
  - eexists _, _. split; [reflexivity|]. split; [vm_compute; reflexivity|].
    split; reflexivity.
  - vm_compute. reflexivity.
Qed.

(** ** instance_manager.py and domain.py: the tables of a rebalanced
    portfolio *)

Lemma dict_set_nonempty {K V : Type} `{EqDecision K} (k : K) (v : V)
    (d : dict K V) :
  dict_set k v d <> [].
Proof.
  destruct d as [|[k0 v0] d]; simpl; [discriminate|].
  destruct (decide (k = k0)); discriminate.
Qed.

Lemma new_portfolio_step_holds (alloc : dict (string * string) Q)
    (asset : Asset) (acc acc' : dict string Asset) (segment : Segment.t) :
  Forall (fun a : Asset => Asset.segments a <> []) (dict_values acc) ->
  new_portfolio_step alloc asset acc segment = Ok acc' ->
  Forall (fun a : Asset => Asset.segments a <> []) (dict_values acc')
  /\ acc' <> [].
Proof.
  intros Hacc. unfold new_portfolio_step.
  destruct (dict_get (Asset.asset_id asset, Segment.segment_id segment) alloc)
    as [m|]; [|discriminate].
  destruct (dict_get (Asset.asset_id asset) acc) as [a|] eqn:Ha;
    intros [= <-]; (split; [|apply dict_set_nonempty]);
    apply dict_set_Forall; try exact Hacc.
  - simpl. apply dict_set_nonempty.
  - simpl. discriminate.
Qed.

Lemma new_portfolio_segments_hold (alloc : dict (string * string) Q)
    (asset : Asset) (segs : list Segment.t) (acc acc' : dict string Asset) :
  Forall (fun a : Asset => Asset.segments a <> []) (dict_values acc) ->
  for_each (new_portfolio_step alloc asset) segs acc = Ok acc' ->
  Forall (fun a : Asset => Asset.segments a <> []) (dict_values acc')
  /\ (segs <> [] \/ acc <> [] -> acc' <> []).
Proof.
  revert acc. induction segs as [|s segs IH]; intros acc Hacc; simpl.
  - intros [= <-]. split; [exact Hacc|]. intros [H|H]; [contradiction|exact H].
  - destruct (new_portfolio_step alloc asset acc s) as [acc1|e] eqn:Hstep;
      [|discriminate].
    destruct (new_portfolio_step_holds _ _ _ _ _ Hacc Hstep) as [H1 Hne].
    simpl. intros Hrun. destruct (IH acc1 H1 Hrun) as [H2 Hne'].
    split; [exact H2|]. intros _. apply Hne'. now right.
Qed.

Lemma new_portfolio_assets_hold (alloc : dict (string * string) Q)
    (assets : list Asset) (acc acc' : dict string Asset) :
  Forall (fun a : Asset => Asset.segments a <> []) (dict_values acc) ->
  new_portfolio_assets alloc assets acc = Ok acc' ->
  Forall (fun a : Asset => Asset.segments a <> []) (dict_values acc')
  /\ (flat_map asset_pairs assets <> [] \/ acc <> [] -> acc' <> []).
Proof.
  unfold new_portfolio_assets.
  revert acc. induction assets as [|a assets IH]; intros acc Hacc; simpl.
  - intros [= <-]. split; [exact Hacc|]. intros [H|H]; [contradiction|exact H].
  - destruct (for_each (new_portfolio_step alloc a)
                (dict_values (Asset.segments a)) acc) as [acc1|e] eqn:Hin;
      [|discriminate].
    destruct (new_portfolio_segments_hold _ _ _ _ _ Hacc Hin) as [H1 Hne].
    simpl. intros Hrun. destruct (IH acc1 H1 Hrun) as [H2 Hne'].
    split; [exact H2|]. intros Hor. apply Hne'.
    destruct (flat_map asset_pairs assets) as [|k ks] eqn:Hrest;
      [|left; discriminate].
    right. apply Hne. destruct Hor as [Hor|Hor]; [|now right].
    left. rewrite app_nil_r in Hor. unfold asset_pairs in Hor.
    intros Hnil. apply Hor. rewrite Hnil. reflexivity.
Qed.

(** Every asset of the portfolio [new_portfolio] returns holds a segment,
    and the portfolio holds an asset when the original holds a segment. *)
Lemma new_portfolio_holds (self : InstanceManager) (p p' : Portfolio)
    (alloc : dict (string * string) Q) :
  new_portfolio self p alloc = Ok p' ->
  Forall (fun a : Asset => Asset.segments a <> [])
         (dict_values (Portfolio.assets p'))
  /\ (known_pairs p <> [] -> Portfolio.assets p' <> []).
Proof.
  unfold new_portfolio.
  destruct (new_portfolio_assets alloc (dict_values (Portfolio.assets p)) [])
    as [acc|e] eqn:Hrun; [|discriminate].
  simpl. intros [= <-]. rewrite Portfolio_new_assets.
  destruct (new_portfolio_assets_hold alloc _ [] acc ltac:(constructor) Hrun)
    as [H1 H2].
  split; [exact H1|]. intros Hne. apply H2. left. exact Hne.
Qed.

Lemma segments_data_nonempty (p : Portfolio) :
  Forall (fun a : Asset => Asset.segments a <> [])
         (dict_values (Portfolio.assets p)) ->
  Portfolio.assets p <> [] ->
  segments_data p <> [].
Proof.
  unfold segments_data, dict_values.
  destruct (Portfolio.assets p) as [|[k a] d]; [contradiction|].
  simpl. intros Hall _. apply Forall_cons in Hall as [Ha _].
  destruct (Asset.segments a) as [|[sid s] segs]; [contradiction|].
  simpl. discriminate.
Qed.

(** [to_tables] returns the two tables when the portfolio has a segment and
    raises the [KeyError] of [set_index] when it has none. *)
Lemma to_tables_Ok (p : Portfolio) :
  segments_data p <> [] -> to_tables p = Ok (segments_data p, assets_data p).
Proof.
  unfold to_tables, set_index. destruct (segments_data p); [contradiction|].
  reflexivity.
Qed.

Lemma to_tables_Raise (p : Portfolio) :
  segments_data p = [] -> to_tables p = Raise (KeyError_column "segment_id").
Proof. unfold to_tables, set_index. intros ->. reflexivity. Qed.

(** ** entry_point.py: what a failed solve leads to *)

Module XpressFacts.
Import Xpress.

Lemma segments_of_known_pairs (p : Portfolio) : segments_of p = known_pairs p.
Proof. reflexivity. Qed.

Lemma getSolution_get_acc (sol : string * string -> Q)
    (keys : list (string * string)) (d : dict (string * string) Q)
    (k : string * string) :
  k ∈ keys \/ is_Some (dict_get k d) ->
  is_Some (dict_get k (fold_left (fun d k => dict_set k (sol k) d) keys d)).
Proof.
  revert d. induction keys as [|k0 keys IH]; intros d Hk; simpl.
  - destruct Hk as [Hk|Hk]; [inversion Hk | exact Hk].
  - apply IH. destruct (decide (k0 = k)) as [->|Hne].
    + right. rewrite dict_get_set_eq. eauto.
    + destruct Hk as [Hk|Hk].
      * apply elem_of_cons in Hk as [->|Hk]; [contradiction | now left].
      * right. rewrite dict_get_set_ne by exact Hne. exact Hk.
Qed.

(** [getSolution] has an entry for every variable key. *)
Lemma getSolution_covers (sol : string * string -> Q)
    (keys : list (string * string)) (k : string * string) :
  k ∈ keys -> is_Some (dict_get k (getSolution keys sol)).
Proof. intros Hk. apply getSolution_get_acc. now left. Qed.

Lemma formulate_segment_vars (p : Portfolio) (rwl : Q) (cr : bool) (z pw : Q) :
  segment_vars (formulate p rwl cr z pw) = known_pairs p.
Proof.
  unfold formulate. destruct cr; [destruct (Qle_bool 0 pw)|]; reflexivity.
Qed.

Lemma read_correlations_acc (p : Portfolio) (pairs : list (string * string))
    (acc : list Q) :
  (forall ij, ij ∈ pairs ->
     exists c, loc (Portfolio.correlation_matrix p) (fst ij) (snd ij) = Ok c) ->
  exists l,
    for_each (fun acc ij =>
                c ← loc (Portfolio.correlation_matrix p) (fst ij) (snd ij);
                Ok (acc ++ [c]))
             pairs acc = Ok l.
Proof.
  revert acc. induction pairs as [|ij pairs IH]; intros acc Hall; simpl.
  - eexists; reflexivity.
  - destruct (Hall ij) as [c Hc]; [constructor|]. rewrite Hc. simpl.
    apply IH. intros ij' Hin. apply Hall. now constructor.
Qed.

(** The correlation reads succeed when the frame has a value for every pair
    of asset identifiers. *)
Lemma read_correlations_Ok (p : Portfolio) :
  (forall ij, ij ∈ asset_id_pairs p ->
     exists c, loc (Portfolio.correlation_matrix p) (fst ij) (snd ij) = Ok c) ->
  exists l, read_correlations p = Ok l.
Proof. apply read_correlations_acc. Qed.

(** C3, as amended.  Take a run whose portfolio has a segment and, when risk
    is considered, whose correlation matrix has a value for every pair of
    assets, so that the solve is reached.  Only the statuses OPTIMAL and
    FEASIBLE yield an allocation: it has an entry for every pair of the
    portfolio, and the run returns the tables of the rebalanced portfolio
    (provided the divisor [z_score * profit] of the printed diagnostic is not
    0).  For every other status [optimize_portfolio] returns the empty
    allocation and the status is dropped; the run then ends with the
    [KeyError] of the first (asset, segment) pair, raised by [new_portfolio],
    without a rebalanced portfolio. *)
Theorem C3_status_handling
    (optimize : problem -> SolStatus * (string * string -> Q))
    (df_segments : list (string * SegmentRow))
    (df_assets : list (string * AssetRow)) (df_correlation_matrix : DataFrame)
    (rwl : Q) (consider_risk : bool) (z_score profit_weight : Q)
    (p : Portfolio) :
  from_csv {| instance_name := "" |} df_segments df_assets
           df_correlation_matrix = Ok p ->
  known_pairs p <> [] ->
  (consider_risk = true ->
   forall ij, ij ∈ asset_id_pairs p ->
     exists c, loc (Portfolio.correlation_matrix p) (fst ij) (snd ij) = Ok c) ->
  let solstatus :=
    fst (optimize (formulate p rwl consider_risk z_score profit_weight)) in
  let sol :=
    snd (optimize (formulate p rwl consider_risk z_score profit_weight)) in
  let run :=
    solve_optimization optimize df_segments df_assets df_correlation_matrix
      rwl consider_risk z_score profit_weight in
  (solstatus = OPTIMAL \/ solstatus = FEASIBLE ->
   ~ z_score * profit_at p sol == 0 ->
   exists investment p',
     optimize_portfolio optimize p rwl consider_risk z_score profit_weight
     = Ok investment
     /\ (forall k, k ∈ known_pairs p -> is_Some (dict_get k investment))
     /\ new_portfolio {| instance_name := "" |} p investment = Ok p'
     /\ run = Ok (segments_data p', assets_data p'))
  /\ (solstatus <> OPTIMAL -> solstatus <> FEASIBLE ->
      optimize_portfolio optimize p rwl consider_risk z_score profit_weight
      = Ok []
      /\ forall k rest, known_pairs p = k :: rest -> run = Raise (KeyError k)).
Proof.
  intros Hp Hne Hcorr. cbn zeta.
  unfold solve_optimization. rewrite Hp. simpl.
  unfold optimize_portfolio.
  assert (Hadd : addVariables (segments_of p) = Ok tt).
  { rewrite segments_of_known_pairs. destruct (known_pairs p);
      [contradiction | reflexivity]. }
  rewrite Hadd. simpl.
  assert (Hread : exists l,
            (if consider_risk then read_correlations p else Ok []) = Ok l).
  { destruct consider_risk; [|eexists; reflexivity].
    apply read_correlations_Ok, Hcorr. reflexivity. }
  destruct Hread as [l ->]. simpl.
  pose proof (formulate_segment_vars p rwl consider_risk z_score profit_weight)
    as Hvars.
  destruct (optimize (formulate p rwl consider_risk z_score profit_weight))
    as [solstatus sol]. simpl.
  rewrite Hvars. split.
  - intros Hok Hdiv.
    assert (Hchk : check_divisor (z_score * profit_at p sol) = Ok tt).
    { unfold check_divisor.
      destruct (Qeq_bool (z_score * profit_at p sol) 0) eqn:Hz; [|reflexivity].
      apply Qeq_bool_iff in Hz. contradiction. }
    assert (Hcov : forall k, k ∈ known_pairs p ->
                     is_Some (dict_get k (getSolution (known_pairs p) sol)))
      by (intros k; apply getSolution_covers).
    pose proof (new_portfolio_outcome {| instance_name := "" |} p
                  (getSolution (known_pairs p) sol)) as Hout.
    rewrite (proj2 (first_missing_None _ _) Hcov) in Hout.
    destruct Hout as [p' Hp'].
    assert (Htab : to_tables p' = Ok (segments_data p', assets_data p')).
    { destruct (new_portfolio_holds _ _ _ _ Hp') as [Hall Hassets].
      apply to_tables_Ok, segments_data_nonempty; [exact Hall|].
      apply Hassets, Hne. }
    exists (getSolution (known_pairs p) sol), p'.
    destruct Hok as [-> | ->]; rewrite Hchk; simpl;
      (split; [reflexivity|]); (split; [exact Hcov|]);
      (split; [exact Hp'|]); rewrite Hp'; simpl; exact Htab.
  - intros Hno Hnf.
    assert (Hrun : forall k rest, known_pairs p = k :: rest ->
               new_portfolio {| instance_name := "" |} p []
               ≫= (fun optimized_portfolio => to_tables optimized_portfolio)
               = Raise (KeyError k)).
    { intros k rest Hpairs.
      pose proof (new_portfolio_outcome {| instance_name := "" |} p []) as Hout.
      rewrite Hpairs in Hout. simpl in Hout. rewrite Hout. reflexivity. }
    destruct solstatus; try contradiction; (split; [reflexivity | exact Hrun]).
Qed.

Lemma C3_status_handling_witness :
  Examples.xp_optimal
    (formulate Examples.portfolio2 (5 # 10) true (196 # 100) (- (1)))
  = (OPTIMAL, fun _ => 12 # 10)
  /\ exists investment p',
       optimize_portfolio Examples.xp_optimal Examples.portfolio2 (5 # 10) true
         (196 # 100) (- (1))
       = Ok investment
       /\ (forall k, k ∈ known_pairs Examples.portfolio2 ->
             is_Some (dict_get k investment))
       /\ new_portfolio {| instance_name := "" |} Examples.portfolio2 investment
          = Ok p'
       /\ solve_optimization Examples.xp_optimal Examples.rows2 Examples.arows2
            Examples.corr2 (5 # 10) true (196 # 100) (- (1))
          = Ok (segments_data p', assets_data p').
Proof.
  split; [reflexivity|].
  assert (Hp : from_csv {| instance_name := "" |} Examples.rows2 Examples.arows2
                 Examples.corr2 = Ok Examples.portfolio2)
    by (vm_compute; reflexivity).
  assert (Hne : known_pairs Examples.portfolio2 <> [])
    by (vm_compute; discriminate).
  assert (Hcorr : true = true ->
            forall ij, ij ∈ asset_id_pairs Examples.portfolio2 ->
              exists c, loc (Portfolio.correlation_matrix Examples.portfolio2)
                            (fst ij) (snd ij) = Ok c).
  { intros _ ij Hin. vm_compute in Hin.
    repeat (apply elem_of_cons in Hin as [->|Hin];
            [eexists; vm_compute; reflexivity|]).
    inversion Hin. }
  destruct (C3_status_handling Examples.xp_optimal Examples.rows2 Examples.arows2
              Examples.corr2 (5 # 10) true (196 # 100) (- (1))
              Examples.portfolio2 Hp Hne Hcorr) as [Hok _].
  apply Hok; [left; reflexivity|]. vm_compute. discriminate.
Defined.

(** C3, as stated, fails.  With an INFEASIBLE solve the caller receives the
    [KeyError] of the first pair, the same as with an UNBOUNDED solve: the
    status does not reach the caller, and [optimize_portfolio] itself returns
    normally, with the empty allocation, in both cases. *)
Lemma C3_status_not_propagated :
  solve_optimization Examples.xp_infeasible Examples.rows2 Examples.arows2
    Examples.corr2 (5 # 10) false (196 # 100) (- (1))
  = Raise (KeyError ("A1"%string, "s1"%string))
  /\ solve_optimization Examples.xp_unbounded Examples.rows2 Examples.arows2
       Examples.corr2 (5 # 10) false (196 # 100) (- (1))
     = Raise (KeyError ("A1"%string, "s1"%string))
  /\ optimize_portfolio Examples.xp_infeasible Examples.portfolio2 (5 # 10)
       false (196 # 100) (- (1))
     = Ok []
  /\ optimize_portfolio Examples.xp_unbounded Examples.portfolio2 (5 # 10)
       false (196 # 100) (- (1))
     = Ok [].
Proof. repeat split; vm_compute; reflexivity. Qed.
End XpressFacts.

(** ** domain.py: the average risk weight of a one-segment asset *)

(** On the [add_segment] path a zero total exposure gives average 0. *)
Lemma add_segment_average (a : Asset) (s : Segment.t) :
  Asset.average_risk_weight (Asset.add_segment a s)
  = if Qltb 0 (Asset.total_exposure (Asset.add_segment a s))
    then Asset.total_risk_weighted_assets (Asset.add_segment a s)
         / Asset.total_exposure (Asset.add_segment a s)
    else 0.
Proof. reflexivity. Qed.

(** C6, at the failing input.  [from_csv] on a single segment row of exposure
    0 and risk weight 0.3 builds an asset of total exposure 0 whose average
    risk weight is 0.3, not 0; [add_segment] of the same segment on a fresh
    asset gives 0. *)
Theorem C6_zero_exposure_first_segment :
  exists p a s,
    from_csv Examples.manager Examples.rows_zero [] [] = Ok p
    /\ Portfolio.assets p = [("A"%string, a)]
    /\ Asset.segments a = [("s1"%string, s)]
    /\ Asset.total_exposure a == 0
    /\ Asset.average_risk_weight a == 3 # 10
    /\ ~ Asset.average_risk_weight a == 0
    /\ Asset.average_risk_weight (Asset.add_segment (fresh_asset "A") s) == 0.
Proof.
  eexists _, _, _. split; [reflexivity|].
  split; [vm_compute; reflexivity|]. split; [reflexivity|].
  repeat split; try (vm_compute; reflexivity).
  vm_compute. discriminate.
Qed.

(** ** instance_manager.py: what [new_portfolio] builds *)

Section NewPortfolioShape.
Variable alloc : dict (string * string) Q.

Let reb (asset : Asset) (s : Segment.t) : Segment.t :=
  rebalanced_segment
    (multiplier_of alloc (Asset.asset_id asset, Segment.segment_id s)) s.

Lemma new_portfolio_step_present (asset : Asset) (acc : dict string Asset)
    (s : Segment.t) (m : Q) (a : Asset) :
  dict_get (Asset.asset_id asset, Segment.segment_id s) alloc = Some m ->
  dict_get (Asset.asset_id asset) acc = Some a ->
  new_portfolio_step alloc asset acc s
  = Ok (dict_set (Asset.asset_id asset)
          (Asset.add_segment a (rebalanced_segment m s)) acc).
Proof.
  intros Hm Ha. unfold new_portfolio_step. cbv zeta. rewrite Hm, Ha. reflexivity.
Qed.

Lemma new_portfolio_step_absent (asset : Asset) (acc : dict string Asset)
    (s : Segment.t) (m : Q) :
  dict_get (Asset.asset_id asset, Segment.segment_id s) alloc = Some m ->
  dict_get (Asset.asset_id asset) acc = None ->
  new_portfolio_step alloc asset acc s
  = Ok (dict_set (Asset.asset_id asset)
          (asset_of_first_segment (Asset.asset_id asset) (rebalanced_segment m s)
             (Asset.min_rel_exposure asset) (Asset.max_rel_exposure asset))
          acc).
Proof.
  intros Hm Ha. unfold new_portfolio_step. cbv zeta. rewrite Hm, Ha. reflexivity.
Qed.

(** Once the asset's entry is the last of [new_assets], each further segment
    goes through [add_segment] on that entry. *)
Lemma new_portfolio_segments_continue (asset : Asset) (segs : list Segment.t)
    (acc0 : dict string Asset) (a : Asset) :
  dict_get (Asset.asset_id asset) acc0 = None ->
  covered alloc asset segs ->
  for_each (new_portfolio_step alloc asset) segs
           (acc0 ++ [(Asset.asset_id asset, a)])
  = Ok (acc0 ++ [(Asset.asset_id asset,
                  fold_left Asset.add_segment (map (reb asset) segs) a)]).
Proof.
  intros Hfresh. revert a.
  induction segs as [|s segs IH]; intros a Hcov; simpl.
  - reflexivity.
  - destruct (Hcov s) as [m Hm]; [constructor|].
    rewrite (new_portfolio_step_present asset _ s m a Hm
               (dict_get_app_last _ a _ Hfresh)).
    rewrite (dict_set_last _ a _ _ Hfresh). simpl.
    rewrite IH.
    + replace (reb asset s) with (rebalanced_segment m s)
        by (unfold reb, multiplier_of; rewrite Hm; reflexivity).
      reflexivity.
    + intros s' Hs'. apply Hcov. now constructor.
Qed.

Lemma new_portfolio_segments_shape (asset : Asset) (acc : dict string Asset) :
  dict_get (Asset.asset_id asset) acc = None ->
  covered alloc asset (dict_values (Asset.segments asset)) ->
  for_each (new_portfolio_step alloc asset) (dict_values (Asset.segments asset)) acc
  = Ok (acc ++ match rebuilt_asset alloc asset with
               | Some a' => [(Asset.asset_id asset, a')]
               | None => []
               end).
Proof.
  intros Hfresh Hcov. unfold rebuilt_asset, rebalanced_segments.
  destruct (dict_values (Asset.segments asset)) as [|s segs]; simpl.
  - rewrite app_nil_r. reflexivity.
  - destruct (Hcov s) as [m Hm]; [constructor|].
    rewrite (new_portfolio_step_absent asset acc s m Hm Hfresh).
    rewrite (dict_set_new _ _ _ Hfresh). simpl.
    rewrite new_portfolio_segments_continue.
    + unfold multiplier_of at 2. rewrite Hm. reflexivity.
    + exact Hfresh.
    + intros s' Hs'. apply Hcov. now constructor.
Qed.

Lemma new_portfolio_assets_shape (assets : list Asset) (acc : dict string Asset) :
  NoDup (map Asset.asset_id assets) ->
  (forall a : Asset, a ∈ assets -> dict_get (Asset.asset_id a) acc = None) ->
  (forall a : Asset, a ∈ assets -> covered alloc a (dict_values (Asset.segments a))) ->
  new_portfolio_assets alloc assets acc = Ok (acc ++ rebuilt_assets alloc assets).
Proof.
  unfold new_portfolio_assets.
  revert acc. induction assets as [|a assets IH]; intros acc Hnd Hfresh Hcov; simpl.
  - rewrite app_nil_r. reflexivity.
  - apply NoDup_cons in Hnd as [Hnotin Hnd].
    rewrite new_portfolio_segments_shape;
      [|apply Hfresh; constructor | apply Hcov; constructor].
    simpl. rewrite IH.
    + rewrite <- app_assoc. reflexivity.
    + exact Hnd.
    + intros b Hb. rewrite dict_get_app_r by (apply Hfresh; now constructor).
      destruct (rebuilt_asset alloc a); simpl; [|reflexivity].
      destruct (decide (Asset.asset_id b = Asset.asset_id a)) as [Heq|]; [|reflexivity].
      exfalso. apply Hnotin. rewrite <- Heq. apply elem_of_map. now exists b.
    + intros b Hb. apply Hcov. now constructor.
Qed.
End NewPortfolioShape.

(** ** Rounding *)

#[global] Instance py_round_proper : Proper (Qeq ==> eq) py_round.
Proof.
  intros x y Hxy. unfold py_round.
  rewrite (Qfloor_comp x y Hxy).
  assert (Hd : x - inject_Z (Qfloor y) == y - inject_Z (Qfloor y))
    by (rewrite Hxy; reflexivity).
  rewrite (Qcompare_comp _ _ Hd (1 # 2) (1 # 2) (Qeq_refl _)).
  reflexivity.
Qed.

(** Rounding an integer gives it back. *)
Lemma py_round_inject_Z (z : Z) : py_round (inject_Z z) = z.
Proof.
  unfold py_round. rewrite Qfloor_Z.
  assert (Hd : inject_Z z - inject_Z z == 0) by ring.
  rewrite (Qcompare_comp _ _ Hd (1 # 2) (1 # 2) (Qeq_refl _)).
  reflexivity.
Qed.

Lemma py_round_one_times_integer (m e : Q) (z : Z) :
  m == 1 -> e == inject_Z z -> inject_Z (py_round (m * e)) == e.
Proof.
  intros Hm He.
  assert (Hme : m * e == inject_Z z) by (rewrite Hm, He; ring).
  rewrite Hme, py_round_inject_Z. symmetry. exact He.
Qed.

#[global] Instance ratio_or_zero_proper :
  Proper (Qeq ==> Qeq ==> Qeq) ratio_or_zero.
Proof.
  intros r r' Hr t t' Ht. unfold ratio_or_zero.
  rewrite (Qltb_proper 0 0 (Qeq_refl 0) t t' Ht).
  destruct (Qltb 0 t'); [|reflexivity].
  rewrite Hr, Ht. reflexivity.
Qed.

(** ** domain.py: aggregates after a run of [add_segment] *)

Lemma add_segment_run_fields (rest : list Segment.t) (a : Asset) :
  Asset.asset_id (fold_left Asset.add_segment rest a) = Asset.asset_id a
  /\ Asset.min_rel_exposure (fold_left Asset.add_segment rest a)
     = Asset.min_rel_exposure a
  /\ Asset.max_rel_exposure (fold_left Asset.add_segment rest a)
     = Asset.max_rel_exposure a
  /\ Asset.profit_stdev (fold_left Asset.add_segment rest a)
     = Asset.profit_stdev a.
Proof.
  revert a. induction rest as [|s rest IH]; intros a; simpl.
  - auto.
  - destruct (IH (Asset.add_segment a s)) as (H1 & H2 & H3 & H4).
    rewrite H1, H2, H3, H4. auto.
Qed.

Lemma add_segment_run_totals (rest : list Segment.t) (a : Asset) :
  Asset.total_exposure (fold_left Asset.add_segment rest a)
  == Asset.total_exposure a + sum_exposure rest
  /\ Asset.total_profit (fold_left Asset.add_segment rest a)
     == Asset.total_profit a + sum_profit rest
  /\ Asset.total_risk_weighted_assets (fold_left Asset.add_segment rest a)
     == Asset.total_risk_weighted_assets a + sum_risk_weighted rest.
Proof.
  unfold sum_exposure, sum_profit, sum_risk_weighted.
  revert a. induction rest as [|s rest IH]; intros a; simpl.
  - rewrite Qsum_nil. repeat split; ring.
  - destruct (IH (Asset.add_segment a s)) as (H1 & H2 & H3).
    rewrite H1, H2, H3, !Qsum_cons. simpl. repeat split; ring.
Qed.

(** The segments dict grows by one entry per segment when the identifiers
    are new and distinct. *)
Lemma add_segment_run_segments (rest : list Segment.t) (a : Asset) :
  NoDup (dict_keys (Asset.segments a) ++ map Segment.segment_id rest) ->
  Asset.segments (fold_left Asset.add_segment rest a)
  = Asset.segments a ++ map (fun s => (Segment.segment_id s, s)) rest.
Proof.
  revert a. induction rest as [|s rest IH]; intros a Hnd; simpl.
  - rewrite app_nil_r. reflexivity.
  - assert (Hnew : dict_get (Segment.segment_id s) (Asset.segments a) = None).
    { apply dict_get_None. apply NoDup_app in Hnd as (_ & Hdisj & _).
      intros Hin. apply (Hdisj _ Hin). constructor. }
    rewrite IH; simpl.
    + rewrite (dict_set_new _ _ _ Hnew), <- app_assoc. reflexivity.
    + rewrite (dict_set_new _ _ _ Hnew). unfold dict_keys in *.
      rewrite map_app. simpl. rewrite <- app_assoc. exact Hnd.
Qed.

(** After at least one [add_segment] the average is the ratio of the final
    totals. *)
Lemma add_segment_run_average (rest : list Segment.t) (a : Asset) :
  rest <> [] ->
  Asset.average_risk_weight (fold_left Asset.add_segment rest a)
  = ratio_or_zero
      (Asset.total_risk_weighted_assets (fold_left Asset.add_segment rest a))
      (Asset.total_exposure (fold_left Asset.add_segment rest a)).
Proof.
  revert a. induction rest as [|s rest IH]; intros a Hne; [contradiction|].
  simpl. destruct rest as [|s' rest'].
  - reflexivity.
  - apply IH. discriminate.
Qed.

Lemma segment_ids_of_wf (d : dict string Segment.t) :
  Forall (fun ks : string * Segment.t => Segment.segment_id (snd ks) = fst ks) d ->
  map Segment.segment_id (dict_values d) = dict_keys d.
Proof.
  unfold dict_values, dict_keys.
  induction 1 as [|[k s] d Hk _ IH]; simpl; [reflexivity|].
  simpl in Hk. rewrite Hk, IH. reflexivity.
Qed.

(** C6, the part that holds: from a fresh asset, after any run of
    [add_segment] with distinct segment identifiers, the asset holds exactly
    those segments, its three totals are the sums over them, and its average
    risk weight is the ratio of the totals, 0 when the total exposure is not
    positive. *)
Lemma add_segment_run_from_fresh (asset_id : string) (segs : list Segment.t) :
  NoDup (map Segment.segment_id segs) ->
  let a := fold_left Asset.add_segment segs (fresh_asset asset_id) in
  dict_values (Asset.segments a) = segs
  /\ Asset.total_exposure a == sum_exposure segs
  /\ Asset.total_profit a == sum_profit segs
  /\ Asset.total_risk_weighted_assets a == sum_risk_weighted segs
  /\ Asset.average_risk_weight a
     == ratio_or_zero (Asset.total_risk_weighted_assets a) (Asset.total_exposure a).
Proof.
  intros Hnd a.
  destruct (add_segment_run_totals segs (fresh_asset asset_id)) as (H1 & H2 & H3).
  split; [|split; [|split; [|split]]].
  - unfold a. rewrite add_segment_run_segments by exact Hnd. simpl.
    unfold dict_values. rewrite map_map. simpl. apply map_id.
  - unfold a. rewrite H1. simpl. ring.
  - unfold a. rewrite H2. simpl. ring.
  - unfold a. rewrite H3. simpl. ring.
  - destruct segs as [|s segs].
    + reflexivity.
    + unfold a. rewrite add_segment_run_average by discriminate. reflexivity.
Qed.

(** ** Consistency of the assets the builder makes *)

Lemma asset_of_first_segment_consistent (aid : string) (s : Segment.t)
    (mn mx : Q) :
  asset_consistent (asset_of_first_segment aid s mn mx).
Proof.
  unfold asset_consistent, sum_exposure, sum_profit, sum_risk_weighted. simpl.
  rewrite !Qsum_cons, !Qsum_nil. repeat split; ring.
Qed.

Lemma asset_of_first_segment_wf (s : Segment.t) (mn mx : Q) (aid : string) :
  asset_wf aid (asset_of_first_segment aid s mn mx).
Proof.
  unfold asset_wf. simpl. split; [reflexivity|]. split.
  - apply NoDup_singleton.
  - repeat constructor.
Qed.

Lemma add_segment_consistent (a : Asset) (s : Segment.t) :
  asset_consistent a ->
  Asset.segments a <> [] ->
  dict_get (Segment.segment_id s) (Asset.segments a) = None ->
  asset_consistent (Asset.add_segment a s).
Proof.
  intros (H1 & H2 & H3 & _) Hne Hnew.
  unfold asset_consistent, sum_exposure, sum_profit, sum_risk_weighted in *.
  simpl. rewrite (dict_set_new _ _ _ Hnew).
  unfold dict_values in *. rewrite map_app, !map_app. simpl.
  rewrite !Qsum_snoc, <- H1, <- H2, <- H3.
  split; [reflexivity|]. split; [ring|]. split; [reflexivity|].
  destruct (Asset.segments a) as [|[k0 s0] [|[k1 s1] d]]; [contradiction| |];
    reflexivity.
Qed.

Lemma add_segment_wf (key : string) (a : Asset) (s : Segment.t) :
  asset_wf key a ->
  dict_get (Segment.segment_id s) (Asset.segments a) = None ->
  asset_wf key (Asset.add_segment a s).
Proof.
  intros (Hid & Hnd & Hkeys) Hnew. unfold asset_wf. simpl.
  rewrite (dict_set_new _ _ _ Hnew). split; [exact Hid|]. split.
  - unfold dict_keys in *. rewrite map_app. simpl.
    apply NoDup_app. split; [exact Hnd|]. split; [|apply NoDup_singleton].
    intros k Hk Hk'. apply list_elem_of_singleton in Hk' as ->.
    apply dict_get_None in Hnew. exact (Hnew Hk).
  - apply Forall_app. split; [exact Hkeys|]. repeat constructor.
Qed.

Lemma add_segment_segments_nonempty (a : Asset) (s : Segment.t) :
  Asset.segments (Asset.add_segment a s) <> [].
Proof.
  simpl. destruct (Asset.segments a) as [|[k v] d]; simpl; [discriminate|].
  destruct (decide (Segment.segment_id s = k)); discriminate.
Qed.

(** The asset made of a non-empty list of segments with distinct
    identifiers: its dict lists them in order, and it is consistent. *)
Lemma built_asset_spec (aid : string) (s : Segment.t) (rest : list Segment.t)
    (mn mx : Q) :
  NoDup (map Segment.segment_id (s :: rest)) ->
  let a' := fold_left Asset.add_segment rest (asset_of_first_segment aid s mn mx) in
  Asset.segments a' = map (fun s => (Segment.segment_id s, s)) (s :: rest)
  /\ asset_consistent a'
  /\ Asset.asset_id a' = aid
  /\ Asset.min_rel_exposure a' = mn
  /\ Asset.max_rel_exposure a' = mx.
Proof.
  intros Hnd a'.
  assert (Hsegs : Asset.segments a'
                  = map (fun s => (Segment.segment_id s, s)) (s :: rest)).
  { unfold a'. rewrite add_segment_run_segments; [reflexivity | exact Hnd]. }
  destruct (add_segment_run_fields rest (asset_of_first_segment aid s mn mx))
    as (Hid & Hmin & Hmax & _).
  split; [exact Hsegs|]. split; [|auto].
  destruct (add_segment_run_totals rest (asset_of_first_segment aid s mn mx))
    as (H1 & H2 & H3).
  unfold asset_consistent. fold a' in H1, H2, H3. rewrite Hsegs.
  unfold dict_values. rewrite map_map. simpl. rewrite map_id.
  unfold sum_exposure, sum_profit, sum_risk_weighted in *.
  rewrite H1, H2, H3. simpl. rewrite !Qsum_cons.
  split; [reflexivity|]. split; [reflexivity|]. split; [reflexivity|].
  destruct rest as [|s1 rest].
  - reflexivity.
  - unfold a'. rewrite add_segment_run_average by discriminate.
    fold a'. rewrite H1, H3. simpl. rewrite !Qsum_cons. reflexivity.
Qed.

(** ** domain.py: the aggregates [__post_init__] computes *)

Lemma post_init_fold_totals {A D S : Type} (l : list (Asset.t S))
    (p0 : Portfolio.t A D) :
  Portfolio.total_exposure (fold_left Portfolio.post_init_step l p0)
  == Portfolio.total_exposure p0 + Qsum (map Asset.total_exposure l)
  /\ Portfolio.total_profit (fold_left Portfolio.post_init_step l p0)
     == Portfolio.total_profit p0 + Qsum (map Asset.total_profit l)
  /\ Portfolio.total_risk_weighted_assets (fold_left Portfolio.post_init_step l p0)
     == Portfolio.total_risk_weighted_assets p0
        + Qsum (map Asset.total_risk_weighted_assets l).
Proof.
  revert p0. induction l as [|a l IH]; intros p0; simpl.
  - rewrite Qsum_nil. repeat split; ring.
  - destruct (IH (Portfolio.post_init_step p0 a)) as (H1 & H2 & H3).
    rewrite H1, H2, H3, !Qsum_cons. simpl. repeat split; ring.
Qed.

Lemma post_init_fold_average {A D S : Type} (l : list (Asset.t S))
    (p0 : Portfolio.t A D) :
  Portfolio.average_risk_weight p0
  == ratio_or_zero (Portfolio.total_risk_weighted_assets p0)
                   (Portfolio.total_exposure p0) ->
  Portfolio.average_risk_weight (fold_left Portfolio.post_init_step l p0)
  == ratio_or_zero
       (Portfolio.total_risk_weighted_assets (fold_left Portfolio.post_init_step l p0))
       (Portfolio.total_exposure (fold_left Portfolio.post_init_step l p0)).
Proof.
  revert p0. induction l as [|a l IH]; intros p0 H0; simpl.
  - exact H0.
  - apply IH. reflexivity.
Qed.

(** A portfolio made by the constructor from consistent assets is
    consistent. *)
Lemma Portfolio_new_consistent (id : string) (assets : dict string Asset)
    (corr : DataFrame) :
  Forall asset_consistent (dict_values assets) ->
  portfolio_consistent (Portfolio.new id assets corr).
Proof.
  intros Hassets. unfold portfolio_consistent.
  rewrite Portfolio_new_assets. unfold Portfolio.new.
  destruct (post_init_fold_totals (dict_values assets)
              (Portfolio.mk id assets corr 0 0 0 0)) as (H1 & H2 & H3).
  split; [exact Hassets|].
  rewrite H1, H2, H3. simpl.
  split; [ring|]. split; [ring|]. split; [ring|].
  rewrite <- H1, <- H3. apply post_init_fold_average. reflexivity.
Qed.

(** ** What the stored averages are *)

Lemma asset_consistent_totals (a : Asset) :
  asset_consistent a -> asset_totals_agree a.
Proof. intros (He & Hp & Hr & _). repeat split; assumption. Qed.

Lemma portfolio_consistent_totals (p : Portfolio) :
  portfolio_consistent p -> portfolio_totals_agree p.
Proof.
  intros (Ha & He & Hp & Hr & Havg). split; [|repeat split; assumption].
  eapply Forall_impl; [exact Ha|]. intros a. apply asset_consistent_totals.
Qed.

(** The asset of a single segment carries that segment's risk weight. *)
Lemma asset_consistent_lone (a : Asset) (s : Segment.t) :
  asset_consistent a -> dict_values (Asset.segments a) = [s] ->
  Asset.average_risk_weight a == Segment.risk_weight s.
Proof.
  intros (_ & _ & _ & Havg) Hs. cbn zeta in Havg. rewrite Hs in Havg.
  exact Havg.
Qed.

(** On the assets the builder makes, the stored average is the ratio of the
    totals in every case but one: a lone segment whose exposure is not
    positive and whose risk weight is not 0. *)
Lemma asset_consistent_average (a : Asset) :
  asset_consistent a -> (asset_average_agrees a <-> ~ lone_idle_segment a).
Proof.
  intros (He & _ & Hr & Havg). cbn zeta in He, Hr, Havg.
  unfold asset_average_agrees, lone_idle_segment.
  destruct (dict_values (Asset.segments a)) as [|s [|s2 rest]] eqn:Hv.
  - split.
    + intros _ (s & Hs & _). discriminate.
    + intros _. rewrite Havg. simpl. unfold ratio_or_zero.
      unfold sum_exposure in He. simpl in He. rewrite He.
      reflexivity.
  - unfold sum_exposure, sum_risk_weighted, Qsum in He, Hr. simpl in He, Hr.
    simpl in Havg. rewrite Havg, He, Hr. unfold ratio_or_zero.
    destruct (Qltb 0 (0 + Segment.exposure s)) eqn:Hpos.
    + apply Qltb_lt in Hpos. split.
      * intros _ (s0 & [= <-] & Hle & _). lra.
      * intros _. field. lra.
    + apply Qltb_ge in Hpos. split.
      * intros H0 (s0 & [= <-] & _ & Hne). exact (Hne H0).
      * intros Hno. destruct (Qeq_dec (Segment.risk_weight s) 0) as [H0|Hne];
          [exact H0|].
        exfalso. apply Hno. exists s. split; [reflexivity|]. split; [lra|exact Hne].
  - split.
    + intros _ (s0 & Hs & _). discriminate.
    + intros _. exact Havg.
Qed.

(** ** Looking assets up in what [new_portfolio] builds *)

Lemma rebuilt_assets_get_None (alloc : dict (string * string) Q)
    (assets : list Asset) (aid : string) :
  aid ∉ map Asset.asset_id assets ->
  dict_get aid (rebuilt_assets alloc assets) = None.
Proof.
  induction assets as [|a assets IH]; simpl; intros Hnotin; [reflexivity|].
  apply not_elem_of_cons in Hnotin as [Hne Hnotin].
  destruct (rebuilt_asset alloc a); simpl; [|exact (IH Hnotin)].
  destruct (decide (aid = Asset.asset_id a)); [contradiction | exact (IH Hnotin)].
Qed.

Lemma rebuilt_assets_get (alloc : dict (string * string) Q)
    (assets : list Asset) (a : Asset) :
  NoDup (map Asset.asset_id assets) -> a ∈ assets ->
  dict_get (Asset.asset_id a) (rebuilt_assets alloc assets)
  = rebuilt_asset alloc a.
Proof.
  induction assets as [|b assets IH]; simpl; intros Hnd Hin; [inversion Hin|].
  apply NoDup_cons in Hnd as [Hnotin Hnd].
  apply elem_of_cons in Hin as [->|Hin].
  - destruct (rebuilt_asset alloc b) as [b'|]; simpl.
    + destruct (decide (Asset.asset_id b = Asset.asset_id b));
        [reflexivity | contradiction].
    + apply rebuilt_assets_get_None, Hnotin.
  - assert (Hne : Asset.asset_id a <> Asset.asset_id b).
    { intros Heq. apply Hnotin. rewrite <- Heq. apply elem_of_map. now exists a. }
    destruct (rebuilt_asset alloc b); simpl.
    + destruct (decide (Asset.asset_id a = Asset.asset_id b));
        [contradiction | exact (IH Hnd Hin)].
    + exact (IH Hnd Hin).
Qed.

Lemma rebuilt_assets_values (alloc : dict (string * string) Q)
    (assets : list Asset) (a' : Asset) :
  a' ∈ dict_values (rebuilt_assets alloc assets) ->
  exists a, a ∈ assets /\ rebuilt_asset alloc a = Some a'.
Proof.
  induction assets as [|b assets IH]; simpl; intros Hin; [inversion Hin|].
  unfold dict_values in *. rewrite map_app in Hin.
  apply elem_of_app in Hin as [Hin|Hin].
  - destruct (rebuilt_asset alloc b) as [b'|] eqn:Hb; simpl in Hin.
    + apply list_elem_of_singleton in Hin as ->. exists b. split; [constructor | exact Hb].
    + inversion Hin.
  - destruct (IH Hin) as (a & Ha & Hreb). exists a. split; [now constructor | exact Hreb].
Qed.

(** Dict keys of a well-formed portfolio are the asset identifiers. *)
Lemma asset_ids_of_wf (p : Portfolio) :
  portfolio_wf p ->
  map Asset.asset_id (dict_values (Portfolio.assets p))
  = dict_keys (Portfolio.assets p).
Proof.
  intros [_ Hwf]. unfold dict_values, dict_keys.
  induction Hwf as [|[k a] d Hk _ IH]; simpl; [reflexivity|].
  destruct Hk as [Hk _]. simpl in Hk. rewrite Hk, IH. reflexivity.
Qed.

Lemma dict_get_value_wf (p : Portfolio) (aid : string) (a : Asset) :
  portfolio_wf p -> dict_get aid (Portfolio.assets p) = Some a ->
  a ∈ dict_values (Portfolio.assets p) /\ asset_wf aid a.
Proof.
  intros [_ Hwf] Hget. apply dict_get_Some_elem in Hget. split.
  - apply elem_of_map. exists (aid, a). split; [reflexivity | exact Hget].
  - rewrite Forall_forall in Hwf. exact (Hwf _ Hget).
Qed.

Lemma dict_value_get_wf (p : Portfolio) (a : Asset) :
  portfolio_wf p -> a ∈ dict_values (Portfolio.assets p) ->
  dict_get (Asset.asset_id a) (Portfolio.assets p) = Some a
  /\ asset_wf (Asset.asset_id a) a.
Proof.
  intros [Hnd Hwf] Hin. apply elem_of_map in Hin as ([k a0] & -> & Hin).
  rewrite Forall_forall in Hwf. pose proof (Hwf _ Hin) as Hka. simpl in *.
  destruct Hka as [Hid Hrest]. rewrite Hid. split.
  - apply dict_get_elem_NoDup; assumption.
  - split; [exact Hid | exact Hrest].
Qed.

(** Coverage of every pair gives coverage of every asset's segments. *)
Lemma covered_of_known_pairs (alloc : dict (string * string) Q) (p : Portfolio)
    (a : Asset) :
  (forall k, k ∈ known_pairs p -> is_Some (dict_get k alloc)) ->
  a ∈ dict_values (Portfolio.assets p) ->
  covered alloc a (dict_values (Asset.segments a)).
Proof.
  intros Hall Ha s Hs. apply Hall. unfold known_pairs.
  apply list_elem_of_In, in_flat_map. exists a. split.
  - apply list_elem_of_In, Ha.
  - apply list_elem_of_In. unfold asset_pairs. apply elem_of_map.
    exists s. split; [reflexivity | exact Hs].
Qed.

(** On a well-formed portfolio with a covering allocation [new_portfolio]
    returns the constructor's portfolio over [rebuilt_assets]. *)
Lemma new_portfolio_shape (self : InstanceManager) (p : Portfolio)
    (alloc : dict (string * string) Q) :
  portfolio_wf p ->
  (forall k, k ∈ known_pairs p -> is_Some (dict_get k alloc)) ->
  new_portfolio self p alloc
  = Ok (Portfolio.new (instance_name self ++ "_optimized_portfolio")%string
          (rebuilt_assets alloc (dict_values (Portfolio.assets p)))
          empty_DataFrame).
Proof.
  intros Hwf Hall. unfold new_portfolio.
  rewrite new_portfolio_assets_shape; [reflexivity| | |].
  - rewrite (asset_ids_of_wf p Hwf). apply Hwf.
  - reflexivity.
  - intros a Ha. exact (covered_of_known_pairs alloc p a Hall Ha).
Qed.

Lemma dict_get_map_values {K V W : Type} `{EqDecision K} (f : K -> V -> W)
    (d : dict K V) (k : K) :
  dict_get k (map (fun kv => (fst kv, f (fst kv) (snd kv))) d)
  = option_map (f k) (dict_get k d).
Proof.
  induction d as [|[k0 v0] d IH]; simpl; [reflexivity|].
  destruct (decide (k = k0)) as [->|]; [reflexivity | exact IH].
Qed.

Lemma dict_keys_map_values {K V W : Type} (f : K -> V -> W) (d : dict K V) :
  dict_keys (map (fun kv => (fst kv, f (fst kv) (snd kv))) d) = dict_keys d.
Proof.
  unfold dict_keys. rewrite map_map. reflexivity.
Qed.

Lemma known_pairs_elem (p : Portfolio) (a : Asset) (s : Segment.t) :
  a ∈ dict_values (Portfolio.assets p) ->
  s ∈ dict_values (Asset.segments a) ->
  (Asset.asset_id a, Segment.segment_id s) ∈ known_pairs p.
Proof.
  intros Ha Hs. unfold known_pairs.
  apply list_elem_of_In, in_flat_map. exists a. split.
  - apply list_elem_of_In, Ha.
  - apply list_elem_of_In. unfold asset_pairs. apply elem_of_map.
    exists s. split; [reflexivity | exact Hs].
Qed.

(** The asset [new_portfolio] builds for a well-formed asset with at least
    one segment. *)
Lemma rebuilt_asset_spec (alloc : dict (string * string) Q) (key : string)
    (a : Asset) :
  asset_wf key a -> Asset.segments a <> [] ->
  exists a',
    rebuilt_asset alloc a = Some a'
    /\ Asset.asset_id a' = key
    /\ Asset.min_rel_exposure a' = Asset.min_rel_exposure a
    /\ Asset.max_rel_exposure a' = Asset.max_rel_exposure a
    /\ Asset.segments a'
       = map (fun ks : string * Segment.t =>
                (fst ks,
                 (fun sid s => rebalanced_segment (multiplier_of alloc (key, sid)) s)
                   (fst ks) (snd ks)))
             (Asset.segments a)
    /\ asset_consistent a'.
Proof.
  intros (Hid & Hnd & Hkeys) Hne. unfold rebuilt_asset, rebalanced_segments.
  pose proof (segment_ids_of_wf _ Hkeys) as Hids.
  set (reb := fun s => rebalanced_segment
                         (multiplier_of alloc (Asset.asset_id a, Segment.segment_id s)) s).
  assert (Hrebids : map Segment.segment_id (map reb (dict_values (Asset.segments a)))
                    = dict_keys (Asset.segments a)).
  { rewrite map_map. simpl. exact Hids. }
  assert (Hsegs : map (fun s => (Segment.segment_id s, s))
                      (map reb (dict_values (Asset.segments a)))
                  = map (fun ks : string * Segment.t =>
                           (fst ks, rebalanced_segment
                                      (multiplier_of alloc (key, fst ks)) (snd ks)))
                        (Asset.segments a)).
  { unfold dict_values. rewrite !map_map. rewrite Forall_forall in Hkeys.
    apply map_ext_in. intros [k s] Hin. apply list_elem_of_In in Hin.
    pose proof (Hkeys _ Hin) as Hk. simpl in *. unfold reb.
    rewrite Hid, Hk. reflexivity. }
  destruct (map reb (dict_values (Asset.segments a))) as [|s rest] eqn:Hnews.
  - destruct (Asset.segments a); [contradiction | discriminate].
  - rewrite <- Hrebids in Hnd.
    destruct (built_asset_spec (Asset.asset_id a) s rest
                (Asset.min_rel_exposure a) (Asset.max_rel_exposure a) Hnd)
      as (H1 & H2 & H3 & H4 & H5).
    eexists. split; [reflexivity|].
    rewrite H3, H4, H5, H1, Hsegs. auto.
Qed.

Lemma rebuilt_asset_None (alloc : dict (string * string) Q) (a : Asset) :
  rebuilt_asset alloc a = None <-> Asset.segments a = [].
Proof.
  unfold rebuilt_asset, rebalanced_segments, dict_values.
  destruct (Asset.segments a) as [|[k s] d]; simpl; split; try discriminate;
    reflexivity.
Qed.

(** What [new_portfolio] builds.  For a portfolio whose dicts are keyed by
    the identifiers of what they hold, and an allocation with a multiplier
    for each of its (asset, segment) pairs, [new_portfolio] returns a
    portfolio in which
    - each asset with at least one segment reappears under its identifier
      with the original bounds and the same segment identifiers; the exposure
      of each segment is [round(multiplier * original exposure)] and its
      other fields are the original's;
    - no other asset appears;
    - every asset's totals are the sums over its new segments, the
      portfolio's totals the sums over the new assets, and the portfolio's
      average risk weight the ratio of its totals;
    - an asset's average risk weight is the ratio of its totals unless the
      asset has a lone segment whose new exposure is not positive and whose
      risk weight is not 0. *)
Lemma new_portfolio_rebuilds (self : InstanceManager) (p : Portfolio)
    (alloc : dict (string * string) Q) :
  portfolio_wf p ->
  (forall k, k ∈ known_pairs p -> is_Some (dict_get k alloc)) ->
  exists p',
    new_portfolio self p alloc = Ok p'
    /\ portfolio_totals_agree p'
    /\ Forall (fun a' : Asset =>
                 asset_average_agrees a' <-> ~ lone_idle_segment a')
              (dict_values (Portfolio.assets p'))
    /\ (forall aid a,
          dict_get aid (Portfolio.assets p) = Some a -> Asset.segments a <> [] ->
          exists a',
            dict_get aid (Portfolio.assets p') = Some a'
            /\ Asset.min_rel_exposure a' = Asset.min_rel_exposure a
            /\ Asset.max_rel_exposure a' = Asset.max_rel_exposure a
            /\ dict_keys (Asset.segments a') = dict_keys (Asset.segments a)
            /\ forall sid s,
                 dict_get sid (Asset.segments a) = Some s ->
                 exists m s',
                   dict_get (aid, sid) alloc = Some m
                   /\ dict_get sid (Asset.segments a') = Some s'
                   /\ Segment.exposure s'
                      = inject_Z (py_round (m * Segment.exposure s))
                   /\ same_but_exposure s s')
    /\ (forall aid a',
          dict_get aid (Portfolio.assets p') = Some a' ->
          exists a,
            dict_get aid (Portfolio.assets p) = Some a /\ Asset.segments a <> []).
Proof.
  intros Hwf Hall.
  pose proof (asset_ids_of_wf p Hwf) as Hids.
  assert (Hnd : NoDup (map Asset.asset_id (dict_values (Portfolio.assets p))))
    by (rewrite Hids; apply Hwf).
  assert (Hcons : Forall asset_consistent
                    (dict_values
                       (rebuilt_assets alloc (dict_values (Portfolio.assets p))))).
  { apply Forall_forall. intros a' Ha'.
    apply rebuilt_assets_values in Ha' as (a & Ha & Hreb).
    destruct (dict_value_get_wf p a Hwf Ha) as [_ Hawf].
    destruct (rebuilt_asset_spec alloc _ a Hawf) as (a1 & Ha1 & Hspec).
    + intros Hempty. apply (rebuilt_asset_None alloc) in Hempty. congruence.
    + rewrite Ha1 in Hreb. injection Hreb as <-. apply Hspec. }
  eexists. split; [apply (new_portfolio_shape self p alloc Hwf Hall)|].
  rewrite Portfolio_new_assets. split; [|split; [|split]].
  - apply portfolio_consistent_totals, Portfolio_new_consistent, Hcons.
  - eapply Forall_impl; [exact Hcons|]. intros a'. apply asset_consistent_average.
  - intros aid a Hget Hne.
    destruct (dict_get_value_wf p aid a Hwf Hget) as [Ha Hawf].
    destruct (rebuilt_asset_spec alloc aid a Hawf Hne)
      as (a' & Hreb & _ & Hmin & Hmax & Hsegs & _).
    exists a'. split.
    { destruct Hawf as [<- _]. rewrite (rebuilt_assets_get alloc _ a Hnd Ha).
      exact Hreb. }
    split; [exact Hmin|]. split; [exact Hmax|]. split.
    { rewrite Hsegs.
      apply (dict_keys_map_values
               (fun sid s => rebalanced_segment (multiplier_of alloc (aid, sid)) s)). }
    intros sid s Hs.
    destruct (Hall (aid, sid)) as [m Hm].
    { destruct Hawf as (Hid & _ & Hkeys).
      pose proof (dict_get_Some_elem _ _ _ Hs) as Hin.
      rewrite Forall_forall in Hkeys. pose proof (Hkeys _ Hin) as Hk. simpl in Hk.
      rewrite <- Hid, <- Hk.
      apply (known_pairs_elem p a s Ha).
      apply elem_of_map. exists (sid, s). split; [reflexivity | exact Hin]. }
    exists m, (rebalanced_segment m s). split; [exact Hm|]. split.
    { rewrite Hsegs.
      rewrite (dict_get_map_values
                 (fun sid s => rebalanced_segment (multiplier_of alloc (aid, sid)) s)).
      rewrite Hs. simpl. unfold multiplier_of. rewrite Hm. reflexivity. }
    split; [reflexivity|]. repeat split.
  - intros aid a' Hget.
    destruct (decide (aid ∈ map Asset.asset_id (dict_values (Portfolio.assets p))))
      as [Hin|Hnotin].
    + apply elem_of_map in Hin as (a & -> & Ha).
      destruct (dict_value_get_wf p a Hwf Ha) as [Hga _].
      exists a. split; [exact Hga|].
      intros Hempty. apply (rebuilt_asset_None alloc) in Hempty.
      rewrite (rebuilt_assets_get alloc _ a Hnd Ha) in Hget. congruence.
    + rewrite (rebuilt_assets_get_None alloc _ aid Hnotin) in Hget. discriminate.
Qed.

(** C4, at the failing input.  [new_portfolio] on the portfolio of one asset
    with one segment (exposure 1000, risk weight 0.3) and the multiplier 0:
    the new segment has exposure [round(0 * 1000) = 0] and the other fields
    of the original, the new asset has the original's bounds and totals 0,
    the sums over its segment.  Its average risk weight is 0.3, the segment's
    risk weight as the constructor call of lines 53-55 passes it, where the
    ratio of the rebuilt totals, guarded against a zero exposure, is 0. *)
Theorem C4_zero_exposure_average :
  exists a a' s s' p',
    Portfolio.assets Examples.portfolio_one = [("A"%string, a)]
    /\ Asset.segments a = [("s1"%string, s)]
    /\ new_portfolio Examples.manager Examples.portfolio_one Examples.alloc_sell
       = Ok p'
    /\ Portfolio.assets p' = [("A"%string, a')]
    /\ Asset.segments a' = [("s1"%string, s')]
    /\ Segment.exposure s' = inject_Z (py_round (0 * Segment.exposure s))
    /\ Segment.exposure s' == 0
    /\ same_but_exposure s s'
    /\ Asset.min_rel_exposure a' = Asset.min_rel_exposure a
    /\ Asset.max_rel_exposure a' = Asset.max_rel_exposure a
    /\ asset_totals_agree a'
    /\ Asset.total_exposure a' == 0
    /\ Asset.total_risk_weighted_assets a' == 0
    /\ Asset.average_risk_weight a' == 3 # 10
    /\ ratio_or_zero (Asset.total_risk_weighted_assets a')
                     (Asset.total_exposure a') == 0
    /\ ~ asset_average_agrees a'.
Proof.
  eexists _, _, _, _, _. split; [reflexivity|]. split; [reflexivity|].
  split; [vm_compute; reflexivity|]. split; [reflexivity|].
  split; [reflexivity|].
  split; [vm_compute; reflexivity|]. split; [vm_compute; reflexivity|].
  split; [repeat split|]. split; [reflexivity|]. split; [reflexivity|].
  split; [repeat split; vm_compute; reflexivity|].
  split; [vm_compute; reflexivity|]. split; [vm_compute; reflexivity|].
  split; [vm_compute; reflexivity|]. split; [vm_compute; reflexivity|].
  vm_compute. discriminate.
Qed.

(** ** Rebalancing with all multipliers equal to 1 *)

Lemma rebuilt_asset_values (alloc : dict (string * string) Q) (key : string)
    (a a' : Asset) :
  asset_wf key a -> rebuilt_asset alloc a = Some a' ->
  dict_values (Asset.segments a') = rebalanced_segments alloc a
  /\ asset_consistent a'.
Proof.
  intros (Hid & Hnd & Hkeys). unfold rebuilt_asset.
  assert (Hids : map Segment.segment_id (rebalanced_segments alloc a)
                 = dict_keys (Asset.segments a)).
  { unfold rebalanced_segments. rewrite map_map. simpl.
    apply segment_ids_of_wf, Hkeys. }
  destruct (rebalanced_segments alloc a) as [|s rest]; [discriminate|].
  intros [= <-]. rewrite <- Hids in Hnd.
  destruct (built_asset_spec (Asset.asset_id a) s rest
              (Asset.min_rel_exposure a) (Asset.max_rel_exposure a) Hnd)
    as (H1 & H2 & _).
  split; [|exact H2].
  rewrite H1. unfold dict_values. rewrite map_map. simpl. now rewrite map_id.
Qed.

Lemma Qsum_map_flat_map {A B : Type} (g : B -> Q) (F : A -> list B) (l : list A) :
  Qsum (map g (flat_map F l)) == Qsum (map (fun a => Qsum (map g (F a))) l).
Proof.
  induction l as [|a l IH]; simpl.
  - reflexivity.
  - rewrite map_app, Qsum_app, Qsum_cons, IH. reflexivity.
Qed.

(** The totals over the rebuilt assets are the sums over the rebalanced
    segments of all assets. *)
Lemma rebuilt_assets_totals (alloc : dict (string * string) Q)
    (assets : list Asset) :
  (forall a : Asset, a ∈ assets -> asset_wf (Asset.asset_id a) a) ->
  let new_assets := dict_values (rebuilt_assets alloc assets) in
  Qsum (map Asset.total_exposure new_assets)
  == Qsum (map (fun a => sum_exposure (rebalanced_segments alloc a)) assets)
  /\ Qsum (map Asset.total_profit new_assets)
     == Qsum (map (fun a => sum_profit (rebalanced_segments alloc a)) assets)
  /\ Qsum (map Asset.total_risk_weighted_assets new_assets)
     == Qsum (map (fun a => sum_risk_weighted (rebalanced_segments alloc a)) assets).
Proof.
  induction assets as [|a assets IH]; intros Hwf; simpl.
  - repeat split; reflexivity.
  - destruct IH as (IH1 & IH2 & IH3).
    { intros b Hb. apply Hwf. now constructor. }
    unfold dict_values in *. rewrite map_app, !map_app, !Qsum_app, !Qsum_cons.
    rewrite IH1, IH2, IH3.
    destruct (rebuilt_asset alloc a) as [a'|] eqn:Hreb; simpl.
    + destruct (rebuilt_asset_values alloc _ a a' (Hwf a (list_elem_of_here _ _)) Hreb)
        as (Hvals & H1 & H2 & H3 & _).
      unfold dict_values in *. rewrite Hvals in H1, H2, H3.
      rewrite !Qsum_cons, !Qsum_nil, H1, H2, H3. repeat split; ring.
    + apply rebuilt_asset_None in Hreb.
      unfold rebalanced_segments, dict_values. rewrite Hreb. simpl.
      unfold sum_exposure, sum_profit, sum_risk_weighted. simpl.
      rewrite !Qsum_nil. repeat split; ring.
Qed.

(** At multiplier 1 a rebalanced segment is the original with its exposure
    rounded. *)
Lemma rebalanced_segments_unit (alloc : dict (string * string) Q) (a : Asset) :
  (forall s, s ∈ dict_values (Asset.segments a) ->
     multiplier_of alloc (Asset.asset_id a, Segment.segment_id s) == 1) ->
  sum_exposure (rebalanced_segments alloc a)
  == Qsum (map (fun s => inject_Z (py_round (Segment.exposure s)))
               (dict_values (Asset.segments a)))
  /\ sum_profit (rebalanced_segments alloc a)
     == Qsum (map (fun s => inject_Z (py_round (Segment.exposure s))
                            * Segment.profitability s)
                  (dict_values (Asset.segments a)))
  /\ sum_risk_weighted (rebalanced_segments alloc a)
     == Qsum (map (fun s => inject_Z (py_round (Segment.exposure s))
                            * Segment.risk_weight s)
                  (dict_values (Asset.segments a))).
Proof.
  intros Hone.
  assert (Hr : forall s, s ∈ dict_values (Asset.segments a) ->
            py_round (multiplier_of alloc (Asset.asset_id a, Segment.segment_id s)
                      * Segment.exposure s)
            = py_round (Segment.exposure s)).
  { intros s Hs. apply py_round_proper. rewrite (Hone s Hs). ring. }
  unfold sum_exposure, sum_profit, sum_risk_weighted, rebalanced_segments.
  rewrite !map_map. simpl.
  repeat split; apply Qsum_map_ext; intros s Hs; rewrite (Hr s Hs); reflexivity.
Qed.

Lemma rebuilt_assets_consistent (alloc : dict (string * string) Q) (p : Portfolio) :
  portfolio_wf p ->
  Forall asset_consistent
         (dict_values (rebuilt_assets alloc (dict_values (Portfolio.assets p)))).
Proof.
  intros Hwf. apply Forall_forall. intros a' Ha'.
  apply rebuilt_assets_values in Ha' as (a & Ha & Hreb).
  destruct (dict_value_get_wf p a Hwf Ha) as [_ Hawf].
  apply (rebuilt_asset_values alloc _ a a' Hawf Hreb).
Qed.

Lemma all_segments_elem (p : Portfolio) (a : Asset) (s : Segment.t) :
  a ∈ dict_values (Portfolio.assets p) ->
  s ∈ dict_values (Asset.segments a) ->
  s ∈ all_segments p.
Proof.
  intros Ha Hs. unfold all_segments.
  apply list_elem_of_In, in_flat_map. exists a.
  split; apply list_elem_of_In; assumption.
Qed.

Lemma average_of_map (f : Segment.t -> Segment.t) (segs : list Segment.t)
    (r r' t t' : Q) :
  (forall s, Segment.risk_weight (f s) = Segment.risk_weight s) ->
  r == r' -> t == t' ->
  average_of (map f segs) r t == average_of segs r' t'.
Proof.
  intros Hrw Hr Ht. destruct segs as [|s [|s' segs]]; simpl.
  - reflexivity.
  - rewrite Hrw. reflexivity.
  - rewrite Hr, Ht. reflexivity.
Qed.

Lemma round_integer (e : Q) (z : Z) :
  e == inject_Z z -> inject_Z (py_round e) == e.
Proof.
  intros He. rewrite (py_round_proper _ _ He), py_round_inject_Z.
  symmetry. exact He.
Qed.

(** C8.  Let the original portfolio be keyed by identifiers and have
    aggregates that agree with its segments (as [from_csv] builds it), and
    let the allocation hold multiplier 1 for each of its (asset, segment)
    pairs.  Then [new_portfolio] returns a portfolio whose totals are those of
    the original with each segment exposure rounded to an integer, and whose
    average risk weight is the ratio of these totals.  When all original
    exposures are integers, the four aggregates of the new portfolio, and of
    each of its assets, equal the original's. *)
Theorem C8_unit_multipliers (self : InstanceManager) (p : Portfolio)
    (alloc : dict (string * string) Q) :
  portfolio_wf p ->
  portfolio_consistent p ->
  (forall k, k ∈ known_pairs p -> exists m, dict_get k alloc = Some m /\ m == 1) ->
  exists p',
    new_portfolio self p alloc = Ok p'
    /\ Portfolio.total_exposure p'
       == Qsum (map (fun s => inject_Z (py_round (Segment.exposure s)))
                    (all_segments p))
    /\ Portfolio.total_profit p'
       == Qsum (map (fun s => inject_Z (py_round (Segment.exposure s))
                              * Segment.profitability s)
                    (all_segments p))
    /\ Portfolio.total_risk_weighted_assets p'
       == Qsum (map (fun s => inject_Z (py_round (Segment.exposure s))
                              * Segment.risk_weight s)
                    (all_segments p))
    /\ Portfolio.average_risk_weight p'
       == ratio_or_zero (Portfolio.total_risk_weighted_assets p')
                        (Portfolio.total_exposure p')
    /\ ((forall s, s ∈ all_segments p ->
           exists z, Segment.exposure s == inject_Z z) ->
        Portfolio.total_exposure p' == Portfolio.total_exposure p
        /\ Portfolio.total_profit p' == Portfolio.total_profit p
        /\ Portfolio.total_risk_weighted_assets p'
           == Portfolio.total_risk_weighted_assets p
        /\ Portfolio.average_risk_weight p' == Portfolio.average_risk_weight p
        /\ forall aid a a',
             dict_get aid (Portfolio.assets p) = Some a ->
             dict_get aid (Portfolio.assets p') = Some a' ->
             Asset.total_exposure a' == Asset.total_exposure a
             /\ Asset.total_profit a' == Asset.total_profit a
             /\ Asset.total_risk_weighted_assets a'
                == Asset.total_risk_weighted_assets a
             /\ Asset.average_risk_weight a' == Asset.average_risk_weight a).
Proof.
  intros Hwf (Hassets & Hpe & Hpp & Hpr & Hpa) Hunit.
  assert (Hall : forall k, k ∈ known_pairs p -> is_Some (dict_get k alloc)).
  { intros k Hk. destruct (Hunit k Hk) as (m & Hm & _). eauto. }
  assert (Hone : forall a : Asset, a ∈ dict_values (Portfolio.assets p) ->
            forall s, s ∈ dict_values (Asset.segments a) ->
              multiplier_of alloc (Asset.asset_id a, Segment.segment_id s) == 1).
  { intros a Ha s Hs.
    destruct (Hunit _ (known_pairs_elem p a s Ha Hs)) as (m & Hm & Hm1).
    unfold multiplier_of. rewrite Hm. exact Hm1. }
  assert (Hawf : forall a : Asset, a ∈ dict_values (Portfolio.assets p) ->
            asset_wf (Asset.asset_id a) a).
  { intros a Ha. apply (dict_value_get_wf p a Hwf Ha). }
  pose proof (asset_ids_of_wf p Hwf) as Hids.
  assert (Hnd : NoDup (map Asset.asset_id (dict_values (Portfolio.assets p))))
    by (rewrite Hids; apply Hwf).
  eexists. split; [apply (new_portfolio_shape self p alloc Hwf Hall)|].
  set (p' := Portfolio.new _ _ _).
  assert (Hc' : portfolio_consistent p').
  { apply Portfolio_new_consistent, rebuilt_assets_consistent, Hwf. }
  destruct Hc' as (_ & He' & Hp' & Hr' & Ha').
  unfold p' in He', Hp', Hr'. rewrite Portfolio_new_assets in He', Hp', Hr'.
  fold p' in He', Hp', Hr'.
  destruct (rebuilt_assets_totals alloc (dict_values (Portfolio.assets p)) Hawf)
    as (Ht1 & Ht2 & Ht3).
  cbv zeta in Ht1, Ht2, Ht3.
  assert (Hsum :
    Portfolio.total_exposure p'
    == Qsum (map (fun s => inject_Z (py_round (Segment.exposure s)))
                 (all_segments p))
    /\ Portfolio.total_profit p'
       == Qsum (map (fun s => inject_Z (py_round (Segment.exposure s))
                              * Segment.profitability s)
                    (all_segments p))
    /\ Portfolio.total_risk_weighted_assets p'
       == Qsum (map (fun s => inject_Z (py_round (Segment.exposure s))
                              * Segment.risk_weight s)
                    (all_segments p))).
  { rewrite He', Hp', Hr', Ht1, Ht2, Ht3. unfold all_segments.
    rewrite !Qsum_map_flat_map.
    repeat split; apply Qsum_map_ext; intros a Ha;
      apply (rebalanced_segments_unit alloc a (Hone a Ha)). }
  destruct Hsum as (Hs1 & Hs2 & Hs3).
  split; [exact Hs1|]. split; [exact Hs2|]. split; [exact Hs3|].
  split; [exact Ha'|].
  intros Hint.
  assert (Hround : forall s, s ∈ all_segments p ->
            inject_Z (py_round (Segment.exposure s)) == Segment.exposure s).
  { intros s Hs. destruct (Hint s Hs) as [z Hz]. exact (round_integer _ z Hz). }
  assert (Horig :
    Portfolio.total_exposure p' == Portfolio.total_exposure p
    /\ Portfolio.total_profit p' == Portfolio.total_profit p
    /\ Portfolio.total_risk_weighted_assets p'
       == Portfolio.total_risk_weighted_assets p).
  { rewrite Hs1, Hs2, Hs3, Hpe, Hpp, Hpr. unfold all_segments.
    rewrite !Qsum_map_flat_map. rewrite Forall_forall in Hassets.
    repeat split; apply Qsum_map_ext; intros a Ha;
      destruct (Hassets a Ha) as (H1 & H2 & H3 & _);
      rewrite ?H1, ?H2, ?H3;
      unfold sum_exposure, sum_profit, sum_risk_weighted;
      apply Qsum_map_ext; intros s Hs;
      rewrite (Hround s (all_segments_elem p a s Ha Hs)); reflexivity. }
  destruct Horig as (Ho1 & Ho2 & Ho3).
  split; [exact Ho1|]. split; [exact Ho2|]. split; [exact Ho3|]. split.
  { rewrite Ha', Hpa, Ho1, Ho3. reflexivity. }
  intros aid a a' Hget Hget'.
  destruct (dict_get_value_wf p aid a Hwf Hget) as [Ha Hwfa].
  unfold p' in Hget'. rewrite Portfolio_new_assets in Hget'.
  destruct Hwfa as [Hid Hwfa]. rewrite <- Hid in Hget'.
  rewrite (rebuilt_assets_get alloc _ a Hnd Ha) in Hget'.
  destruct (rebuilt_asset_values alloc _ a a' (Hawf a Ha) Hget')
    as (Hvals & H1' & H2' & H3' & H4').
  rewrite Forall_forall in Hassets.
  destruct (Hassets a Ha) as (H1 & H2 & H3 & H4).
  destruct (rebalanced_segments_unit alloc a (Hone a Ha)) as (Hu1 & Hu2 & Hu3).
  rewrite Hvals in H1', H2', H3', H4'.
  assert (Hagg :
    Asset.total_exposure a' == Asset.total_exposure a
    /\ Asset.total_profit a' == Asset.total_profit a
    /\ Asset.total_risk_weighted_assets a' == Asset.total_risk_weighted_assets a).
  { rewrite H1', H2', H3', Hu1, Hu2, Hu3, H1, H2, H3.
    unfold sum_exposure, sum_profit, sum_risk_weighted.
    repeat split; apply Qsum_map_ext; intros s Hs;
      rewrite (Hround s (all_segments_elem p a s Ha Hs)); reflexivity. }
  destruct Hagg as (Hg1 & Hg2 & Hg3).
  split; [exact Hg1|]. split; [exact Hg2|]. split; [exact Hg3|].
  rewrite H4', H4. unfold rebalanced_segments.
  apply average_of_map; [reflexivity | exact Hg3 | exact Hg1].
Qed.

(** ** instance_manager.py: [from_csv] builds well-formed, consistent
    portfolios *)

Lemma dict_set_Forall_entries {K V : Type} `{EqDecision K} (P : K * V -> Prop)
    (k : K) (v : V) (d : dict K V) :
  Forall P d -> P (k, v) -> Forall P (dict_set k v d).
Proof.
  intros Hd Hv. induction d as [|[k0 v0] d IH]; simpl.
  - repeat constructor. exact Hv.
  - apply Forall_cons in Hd as [Hv0 Hd].
    destruct (decide (k = k0)) as [->|]; constructor; auto.
Qed.

Lemma dict_keys_set_new {K V : Type} `{EqDecision K} (k : K) (v : V)
    (d : dict K V) :
  dict_get k d = None -> dict_keys (dict_set k v d) = dict_keys d ++ [k].
Proof.
  intros Hnew. rewrite (dict_set_new _ _ _ Hnew). unfold dict_keys.
  rewrite map_app. reflexivity.
Qed.

Lemma from_csv_segment_step_inv (sid : string) (row : SegmentRow)
    (later : list string) (acc : dict string Asset) :
  sid ∉ later ->
  built_so_far (sid :: later) acc ->
  built_so_far later (from_csv_segment_step acc (sid, row)).
Proof.
  intros Hsid [Hnd Hall]. unfold from_csv_segment_step.
  set (segment := Segment.mk sid (row_asset row) (row_exposure row)
                    (row_average_profitability row) (row_risk_weight row)
                    (row_get (row_rel_sell_cost row) 0)
                    (row_get (row_rel_origination_cost row) 0)).
  assert (Hweak : Forall (fun ka : string * Asset =>
               asset_wf (fst ka) (snd ka)
               /\ asset_consistent (snd ka)
               /\ Asset.segments (snd ka) <> []
               /\ forall k, k ∈ dict_keys (Asset.segments (snd ka)) -> k ∉ later)
            acc).
  { eapply Forall_impl; [exact Hall|]. intros [k a] (H1 & H2 & H3 & H4).
    split; [exact H1|]. split; [exact H2|]. split; [exact H3|].
    intros k0 Hk0 Hin. apply (H4 k0 Hk0). now constructor. }
  destruct (dict_get (row_asset row) acc) as [a|] eqn:Ha.
  - split.
    + rewrite dict_keys_set_present by (rewrite Ha; eauto). exact Hnd.
    + apply dict_set_Forall_entries; [exact Hweak|]. simpl.
      rewrite Forall_forall in Hall.
      destruct (Hall _ (dict_get_Some_elem _ _ _ Ha)) as (H1 & H2 & H3 & H4).
      simpl in *.
      assert (Hnew : dict_get (Segment.segment_id segment) (Asset.segments a) = None).
      { apply dict_get_None. intros Hin. apply (H4 _ Hin). constructor. }
      split; [apply add_segment_wf; assumption|].
      split; [apply add_segment_consistent; assumption|].
      split; [exact (add_segment_segments_nonempty a segment)|].
      intros k Hk. simpl in Hk. rewrite (dict_keys_set_new _ _ _ Hnew) in Hk.
      apply elem_of_app in Hk as [Hk|Hk].
      * intros Hin. apply (H4 k Hk). now constructor.
      * apply list_elem_of_singleton in Hk as ->. exact Hsid.
  - split.
    + rewrite (dict_keys_set_new _ _ _ Ha).
      apply NoDup_app. split; [exact Hnd|]. split; [|apply NoDup_singleton].
      intros k Hk Hk'. apply list_elem_of_singleton in Hk' as ->.
      apply dict_get_None in Ha. exact (Ha Hk).
    + apply dict_set_Forall_entries; [exact Hweak|]. simpl.
      split; [apply asset_of_first_segment_wf|].
      split; [apply asset_of_first_segment_consistent|].
      split; [discriminate|].
      intros k Hk. simpl in Hk. apply list_elem_of_singleton in Hk as ->.
      exact Hsid.
Qed.

Lemma from_csv_segment_loop_inv (rows : list (string * SegmentRow))
    (acc : dict string Asset) :
  NoDup (map fst rows) ->
  built_so_far (map fst rows) acc ->
  built_so_far [] (fold_left from_csv_segment_step rows acc).
Proof.
  revert acc. induction rows as [|[sid row] rows IH]; intros acc Hnd Hacc; simpl.
  - exact Hacc.
  - simpl in Hnd. apply NoDup_cons in Hnd as [Hsid Hnd].
    apply IH; [exact Hnd|].
    apply from_csv_segment_step_inv; assumption.
Qed.

Lemma from_csv_asset_step_inv (r : string * AssetRow) (acc : dict string Asset) :
  built_so_far [] acc -> built_so_far [] (from_csv_asset_step acc r).
Proof.
  destruct r as [aid row]. intros [Hnd Hall]. unfold from_csv_asset_step.
  destruct (dict_get aid acc) as [a|] eqn:Ha; [|split; assumption].
  split.
  - rewrite dict_keys_set_present by (rewrite Ha; eauto). exact Hnd.
  - apply dict_set_Forall_entries; [exact Hall|].
    rewrite Forall_forall in Hall.
    exact (Hall _ (dict_get_Some_elem _ _ _ Ha)).
Qed.

Lemma from_csv_asset_loop_inv (arows : list (string * AssetRow))
    (acc : dict string Asset) :
  built_so_far [] acc -> built_so_far [] (fold_left from_csv_asset_step arows acc).
Proof.
  revert acc. induction arows as [|r arows IH]; intros acc Hacc; simpl.
  - exact Hacc.
  - apply IH, from_csv_asset_step_inv, Hacc.
Qed.

(** From a segment table with distinct segment identifiers [from_csv] builds
    a portfolio that is keyed by identifiers and consistent: the portfolios
    C4 and C8 speak about. *)
Lemma from_csv_wf_consistent (self : InstanceManager)
    (df_segments : list (string * SegmentRow))
    (df_assets : list (string * AssetRow)) (df_correlation_matrix : DataFrame)
    (p : Portfolio) :
  NoDup (map fst df_segments) ->
  from_csv self df_segments df_assets df_correlation_matrix = Ok p ->
  portfolio_wf p /\ portfolio_consistent p.
Proof.
  intros Hnd [= <-].
  assert (Hinv : built_so_far []
                   (fold_left from_csv_asset_step df_assets
                      (fold_left from_csv_segment_step df_segments []))).
  { apply from_csv_asset_loop_inv, from_csv_segment_loop_inv; [exact Hnd|].
    split; constructor. }
  destruct Hinv as [Hkeys Hall]. split.
  - unfold portfolio_wf. rewrite Portfolio_new_assets. split; [exact Hkeys|].
    eapply Forall_impl; [exact Hall|]. intros ka H. apply H.
  - apply Portfolio_new_consistent. unfold dict_values.
    apply Forall_forall. intros a Ha.
    apply elem_of_map in Ha as (ka & -> & Hin).
    rewrite Forall_forall in Hall. apply (Hall ka Hin).
Qed.

Lemma C8_unit_multipliers_witness :
  exists p',
    new_portfolio Examples.manager Examples.portfolio2 Examples.alloc2_unit = Ok p'
    /\ Portfolio.total_exposure p'
       == Qsum (map (fun s => inject_Z (py_round (Segment.exposure s)))
                    (all_segments Examples.portfolio2))
    /\ Portfolio.total_profit p'
       == Qsum (map (fun s => inject_Z (py_round (Segment.exposure s))
                              * Segment.profitability s)
                    (all_segments Examples.portfolio2))
    /\ Portfolio.total_risk_weighted_assets p'
       == Qsum (map (fun s => inject_Z (py_round (Segment.exposure s))
                              * Segment.risk_weight s)
                    (all_segments Examples.portfolio2))
    /\ Portfolio.average_risk_weight p'
       == ratio_or_zero (Portfolio.total_risk_weighted_assets p')
                        (Portfolio.total_exposure p')
    /\ ((forall s, s ∈ all_segments Examples.portfolio2 ->
           exists z, Segment.exposure s == inject_Z z) ->
        Portfolio.total_exposure p' == Portfolio.total_exposure Examples.portfolio2
        /\ Portfolio.total_profit p' == Portfolio.total_profit Examples.portfolio2
        /\ Portfolio.total_risk_weighted_assets p'
           == Portfolio.total_risk_weighted_assets Examples.portfolio2
        /\ Portfolio.average_risk_weight p'
           == Portfolio.average_risk_weight Examples.portfolio2
        /\ forall aid a a',
             dict_get aid (Portfolio.assets Examples.portfolio2) = Some a ->
             dict_get aid (Portfolio.assets p') = Some a' ->
             Asset.total_exposure a' == Asset.total_exposure a
             /\ Asset.total_profit a' == Asset.total_profit a
             /\ Asset.total_risk_weighted_assets a'
                == Asset.total_risk_weighted_assets a
             /\ Asset.average_risk_weight a' == Asset.average_risk_weight a).
Proof.
  assert (Hbuilt : from_csv Examples.manager Examples.rows2 Examples.arows2
                     Examples.corr2 = Ok Examples.portfolio2)
    by (vm_compute; reflexivity).
  assert (Hnd : NoDup (map fst Examples.rows2)).
  { vm_compute. repeat constructor; intros Hin;
      repeat (apply elem_of_cons in Hin as [Hin|Hin]; [discriminate|]);
      inversion Hin. }
  destruct (from_csv_wf_consistent _ _ _ _ _ Hnd Hbuilt) as [Hwf Hc].
  apply (C8_unit_multipliers Examples.manager Examples.portfolio2
           Examples.alloc2_unit Hwf Hc).
  intros k Hk. vm_compute in Hk.
  repeat (apply elem_of_cons in Hk as [->|Hk];
          [exists 1; split; [vm_compute; reflexivity | reflexivity]|]).
  inversion Hk.
Defined.

(** ** The object heap: running the statements *)

Module HeapFacts.
(** The value-level functions, under names the heap-level ones do not hide. *)
Abbreviation value_new_portfolio_step := new_portfolio_step.
Abbreviation value_new_portfolio_assets := new_portfolio_assets.
Abbreviation value_new_portfolio := new_portfolio.
Import Heap.
Local Open Scope nat_scope.

Lemma run_bind {A B : Type} (m : M A) (k : A -> M B) (h h1 : heap) (a : A) :
  m h = Some (Ok a, h1) -> (m ≫= k) h = k a h1.
Proof. intros Hm. unfold mbind, M_bind. rewrite Hm. reflexivity. Qed.

Lemma run_get_segment (h : heap) (l : loc) (s : Segment.t) :
  h !! l = Some (OSegment s) -> get_segment l h = Some (Ok s, h).
Proof. intros Hl. unfold get_segment. rewrite Hl. reflexivity. Qed.

Lemma run_get_dict (h : heap) (l : loc) (d : dict string loc) :
  h !! l = Some (ODict d) -> get_dict l h = Some (Ok d, h).
Proof. intros Hl. unfold get_dict. rewrite Hl. reflexivity. Qed.

Lemma run_get_asset (h : heap) (l : loc) (a : Asset.t loc) :
  h !! l = Some (OAsset a) -> get_asset l h = Some (Ok a, h).
Proof. intros Hl. unfold get_asset. rewrite Hl. reflexivity. Qed.

Lemma run_get_portfolio (h : heap) (l : loc) (p : Portfolio.t loc loc) :
  h !! l = Some (OPortfolio p) -> get_portfolio l h = Some (Ok p, h).
Proof. intros Hl. unfold get_portfolio. rewrite Hl. reflexivity. Qed.

Lemma run_put_segment (h : heap) (l : loc) (s0 s : Segment.t) :
  h !! l = Some (OSegment s0) ->
  put_segment l s h = Some (Ok tt, <[l := OSegment s]> h).
Proof. intros Hl. unfold put_segment. rewrite Hl. reflexivity. Qed.

Lemma run_put_dict (h : heap) (l : loc) (d0 d : dict string loc) :
  h !! l = Some (ODict d0) -> put_dict l d h = Some (Ok tt, <[l := ODict d]> h).
Proof. intros Hl. unfold put_dict. rewrite Hl. reflexivity. Qed.

Lemma run_put_asset (h : heap) (l : loc) (a0 a : Asset.t loc) :
  h !! l = Some (OAsset a0) -> put_asset l a h = Some (Ok tt, <[l := OAsset a]> h).
Proof. intros Hl. unfold put_asset. rewrite Hl. reflexivity. Qed.

Lemma run_put_portfolio (h : heap) (l : loc) (p0 p : Portfolio.t loc loc) :
  h !! l = Some (OPortfolio p0) ->
  put_portfolio l p h = Some (Ok tt, <[l := OPortfolio p]> h).
Proof. intros Hl. unfold put_portfolio. rewrite Hl. reflexivity. Qed.

Lemma run_alloc (h : heap) (o : obj) : alloc o h = Some (Ok (length h), h ++ [o]).
Proof. reflexivity. Qed.

Lemma lookup_snoc_new (h : heap) (o : obj) : (h ++ [o]) !! length h = Some o.
Proof. apply list_lookup_middle. reflexivity. Qed.

Lemma lookup_snoc_old (h : heap) (o x : obj) (l : loc) :
  h !! l = Some x -> (h ++ [o]) !! l = Some x.
Proof. apply lookup_app_l_Some. Qed.

(** Overwriting the last object. *)
Lemma insert_snoc_new (h : heap) (o o' : obj) :
  <[length h := o']> (h ++ [o]) = h ++ [o'].
Proof.
  replace (length h) with (length h + 0)%nat by lia.
  rewrite insert_app_r. reflexivity.
Qed.

(** [add_segment] overwrites the asset's dict and the asset, nothing else. *)
Lemma run_add_segment (h : heap) (self segment : loc) (a : Asset.t loc)
    (seg : Segment.t) (d : dict string loc) :
  h !! self = Some (OAsset a) ->
  h !! segment = Some (OSegment seg) ->
  h !! Asset.segments a = Some (ODict d) ->
  add_segment self segment h
  = Some (Ok tt,
          <[self := OAsset (Asset.add_totals (Asset.segments a) a seg)]>
            (<[Asset.segments a :=
                 ODict (dict_set (Segment.segment_id seg) segment d)]> h)).
Proof.
  intros Hself Hseg Hd. unfold add_segment.
  rewrite (run_bind _ _ _ _ _ (run_get_asset _ _ _ Hself)).
  rewrite (run_bind _ _ _ _ _ (run_get_segment _ _ _ Hseg)).
  rewrite (run_bind _ _ _ _ _ (run_get_dict _ _ _ Hd)).
  rewrite (run_bind _ _ _ _ _ (run_put_dict _ _ _ _ Hd)).
  assert (Hself' : <[Asset.segments a :=
                       ODict (dict_set (Segment.segment_id seg) segment d)]> h
                   !! self = Some (OAsset a)).
  { rewrite list_lookup_insert_ne; [exact Hself | congruence]. }
  assert (Hseg' : <[Asset.segments a :=
                      ODict (dict_set (Segment.segment_id seg) segment d)]> h
                  !! segment = Some (OSegment seg)).
  { rewrite list_lookup_insert_ne; [exact Hseg | congruence]. }
  rewrite (run_bind _ _ _ _ _ (run_get_asset _ _ _ Hself')).
  rewrite (run_bind _ _ _ _ _ (run_get_segment _ _ _ Hseg')).
  apply (run_put_asset _ _ _ _ Hself').
Qed.

(** *** Reading back is stable under changes elsewhere *)

Lemma read_segments_kept (h h' : heap) (d : dict string loc)
    (segs : dict string Segment.t) :
  segments_kept h h' ->
  read_segments h d = Some segs -> read_segments h' d = Some segs.
Proof.
  intros Hkept. revert segs.
  induction d as [|[k l] d IH]; intros segs; simpl; [auto|].
  destruct (h !! l) as [[s| | | |]|] eqn:Hl; try discriminate.
  destruct (read_segments h d) as [segs0|]; [|discriminate].
  intros [= <-]. rewrite (Hkept l s Hl), (IH segs0 eq_refl). reflexivity.
Qed.

Lemma read_asset_inv (h : heap) (l : loc) (a : Asset) :
  read_asset h l = Some a ->
  exists ah d,
    h !! l = Some (OAsset ah)
    /\ h !! Asset.segments ah = Some (ODict d)
    /\ read_segments h d = Some (Asset.segments a)
    /\ a = Asset.mk (Asset.asset_id ah) (Asset.segments a)
             (Asset.total_exposure ah) (Asset.total_profit ah)
             (Asset.total_risk_weighted_assets ah) (Asset.average_risk_weight ah)
             (Asset.min_rel_exposure ah) (Asset.max_rel_exposure ah)
             (Asset.profit_stdev ah).
Proof.
  unfold read_asset.
  destruct (h !! l) as [[| |ah| |]|]; try discriminate.
  destruct (h !! Asset.segments ah) as [[|d| | |]|] eqn:Hd; try discriminate.
  destruct (read_segments h d) as [segs|] eqn:Hsegs; [|discriminate].
  intros [= <-]. exists ah, d. auto.
Qed.

Lemma read_asset_intro (h : heap) (l : loc) (ah : Asset.t loc)
    (d : dict string loc) (segs : dict string Segment.t) :
  h !! l = Some (OAsset ah) ->
  h !! Asset.segments ah = Some (ODict d) ->
  read_segments h d = Some segs ->
  read_asset h l
  = Some (Asset.mk (Asset.asset_id ah) segs
            (Asset.total_exposure ah) (Asset.total_profit ah)
            (Asset.total_risk_weighted_assets ah) (Asset.average_risk_weight ah)
            (Asset.min_rel_exposure ah) (Asset.max_rel_exposure ah)
            (Asset.profit_stdev ah)).
Proof.
  intros Hl Hd Hsegs. unfold read_asset. rewrite Hl, Hd, Hsegs. reflexivity.
Qed.

(** An asset reads back the same when its object, its dict and all segment
    objects are kept. *)
Lemma read_asset_kept (h h' : heap) (l : loc) (a : Asset) :
  segments_kept h h' ->
  h' !! l = h !! l ->
  (forall ah, h !! l = Some (OAsset ah) ->
     h' !! Asset.segments ah = h !! Asset.segments ah) ->
  read_asset h l = Some a -> read_asset h' l = Some a.
Proof.
  intros Hkept Hl Hd Hread.
  destruct (read_asset_inv h l a Hread) as (ah & d & Hah & Hdh & Hsegs & ->).
  apply (read_asset_intro h' l ah d).
  - rewrite Hl. exact Hah.
  - rewrite (Hd ah Hah). exact Hdh.
  - exact (read_segments_kept h h' d _ Hkept Hsegs).
Qed.

Lemma read_assets_kept (h h' : heap) (d : dict string loc)
    (assets : dict string Asset) :
  (forall l a, l ∈ dict_values d -> read_asset h l = Some a ->
     read_asset h' l = Some a) ->
  read_assets h d = Some assets -> read_assets h' d = Some assets.
Proof.
  revert assets. induction d as [|[k l] d IH]; intros assets Hkept; simpl; [auto|].
  destruct (read_asset h l) as [a|] eqn:Ha; [|discriminate].
  destruct (read_assets h d) as [assets0|]; [|discriminate].
  intros [= <-].
  rewrite (Hkept l a (list_elem_of_here _ _) Ha).
  rewrite (IH assets0); [reflexivity| |reflexivity].
  intros l' a' Hl'. apply Hkept. now constructor.
Qed.

(** Appending objects keeps everything. *)
Lemma segments_kept_app (h ext : heap) : segments_kept h (h ++ ext).
Proof. intros l s Hl. apply lookup_app_l_Some, Hl. Qed.

Lemma read_asset_app (h ext : heap) (l : loc) (a : Asset) :
  read_asset h l = Some a -> read_asset (h ++ ext) l = Some a.
Proof.
  intros Hread.
  destruct (read_asset_inv h l a Hread) as (ah & d & Hah & Hdh & Hsegs & ->).
  apply (read_asset_intro (h ++ ext) l ah d).
  - apply lookup_app_l_Some, Hah.
  - apply lookup_app_l_Some, Hdh.
  - exact (read_segments_kept h _ d _ (segments_kept_app h ext) Hsegs).
Qed.

Lemma read_assets_app (h ext : heap) (d : dict string loc)
    (assets : dict string Asset) :
  read_assets h d = Some assets -> read_assets (h ++ ext) d = Some assets.
Proof.
  apply read_assets_kept. intros l a _. apply read_asset_app.
Qed.

Lemma read_portfolio_app (h ext : heap) (l : loc) (p : Portfolio) :
  read_portfolio h l = Some p -> read_portfolio (h ++ ext) l = Some p.
Proof.
  unfold read_portfolio.
  destruct (h !! l) as [[| | | |ph]|] eqn:Hl; try discriminate.
  destruct (h !! Portfolio.assets ph) as [[|d| | |]|] eqn:Hd; try discriminate.
  destruct (h !! Portfolio.correlation_matrix ph) as [[| | |df|]|] eqn:Hdf;
    try discriminate.
  destruct (read_assets h d) as [assets|] eqn:Hassets; [|discriminate].
  intros [= <-].
  rewrite (lookup_app_l_Some _ _ _ _ Hl), (lookup_app_l_Some _ _ _ _ Hd),
    (lookup_app_l_Some _ _ _ _ Hdf), (read_assets_app _ _ _ _ Hassets).
  reflexivity.
Qed.

(** Reading a dict of references commutes with lookup and assignment. *)
Lemma read_segments_set (h : heap) (d : dict string loc)
    (segs : dict string Segment.t) (k : string) (l : loc) (s : Segment.t) :
  read_segments h d = Some segs -> h !! l = Some (OSegment s) ->
  read_segments h (dict_set k l d) = Some (dict_set k s segs).
Proof.
  intros Hread Hl. revert segs Hread.
  induction d as [|[k0 l0] d IH]; intros segs; simpl.
  - intros [= <-]. simpl. rewrite Hl. reflexivity.
  - destruct (h !! l0) as [[s0| | | |]|] eqn:Hl0; try discriminate.
    destruct (read_segments h d) as [segs0|] eqn:Hd0; [|discriminate].
    intros [= <-]. simpl. destruct (decide (k = k0)); simpl.
    + rewrite Hl, Hd0. reflexivity.
    + rewrite Hl0, (IH segs0 eq_refl). reflexivity.
Qed.

Lemma read_assets_get (h : heap) (d : dict string loc)
    (assets : dict string Asset) (k : string) :
  read_assets h d = Some assets ->
  dict_get k assets
  = match dict_get k d with Some l => read_asset h l | None => None end.
Proof.
  revert assets. induction d as [|[k0 l0] d IH]; intros assets; simpl.
  - intros [= <-]. reflexivity.
  - destruct (read_asset h l0) as [a0|] eqn:Ha0; [|discriminate].
    destruct (read_assets h d) as [assets0|]; [|discriminate].
    intros [= <-]. simpl. destruct (decide (k = k0)); [auto|].
    apply IH. reflexivity.
Qed.

Lemma read_assets_snoc (h : heap) (d : dict string loc)
    (assets : dict string Asset) (k : string) (l : loc) (a : Asset) :
  read_assets h d = Some assets -> read_asset h l = Some a ->
  read_assets h (d ++ [(k, l)]) = Some (assets ++ [(k, a)]).
Proof.
  intros Hread Hl. revert assets Hread.
  induction d as [|[k0 l0] d IH]; intros assets; simpl.
  - intros [= <-]. simpl. rewrite Hl. reflexivity.
  - destruct (read_asset h l0) as [a0|]; [|discriminate].
    destruct (read_assets h d) as [assets0|]; [|discriminate].
    intros [= <-]. rewrite (IH assets0 eq_refl). reflexivity.
Qed.

(** Replacing what one reference of the dict reads as, all references being
    distinct. *)
Lemma read_assets_update (h h' : heap) (d : dict string loc)
    (assets : dict string Asset) (k : string) (l : loc) (a' : Asset) :
  NoDup (dict_values d) ->
  read_assets h d = Some assets ->
  dict_get k d = Some l ->
  (forall l0 a0, l0 ∈ dict_values d -> l0 <> l ->
     read_asset h l0 = Some a0 -> read_asset h' l0 = Some a0) ->
  read_asset h' l = Some a' ->
  read_assets h' d = Some (dict_set k a' assets).
Proof.
  intros Hnd Hread Hget Hother Hl. revert assets Hread.
  induction d as [|[k0 l0] d IH]; intros assets; simpl in *; [discriminate|].
  apply NoDup_cons in Hnd as [Hnotin Hnd].
  destruct (read_asset h l0) as [a0|] eqn:Ha0; [|discriminate].
  destruct (read_assets h d) as [assets0|] eqn:Hd; [|discriminate].
  intros [= <-]. simpl. destruct (decide (k = k0)) as [->|Hne].
  - injection Hget as ->. simpl. rewrite Hl.
    rewrite (read_assets_kept h h' d assets0); [reflexivity| |exact Hd].
    intros l1 a1 Hl1 Ha1. apply Hother; [now constructor| |exact Ha1].
    intros ->. contradiction.
  - simpl. rewrite (Hother l0 a0); [| constructor | | exact Ha0].
    + assert (Htail : read_assets h' d = Some (dict_set k a' assets0)).
      { apply IH; [exact Hnd | exact Hget | | reflexivity].
        intros l1 a1 Hl1. apply Hother. now constructor. }
      rewrite Htail. reflexivity.
    + intros ->. apply Hnotin. apply elem_of_map. exists (k, l).
      split; [reflexivity|]. apply dict_get_Some_elem, Hget.
Qed.

(** *** The loop body of [new_portfolio], outcome by outcome *)

Lemma extends_refl (h : heap) : extends h h.
Proof. exists []. now rewrite app_nil_r. Qed.

Lemma extends_app (h0 h ext : heap) : extends h0 h -> extends h0 (h ++ ext).
Proof. intros [e ->]. exists (e ++ ext). now rewrite app_assoc. Qed.

Lemma extends_insert (h0 h : heap) (l : loc) (o : obj) :
  extends h0 h -> length h0 <= l -> extends h0 (<[l := o]> h).
Proof.
  intros [e ->] Hl. exists (<[l - length h0 := o]> e).
  apply insert_app_r_alt. exact Hl.
Qed.

Lemma extends_lookup (h0 h : heap) (l : loc) (o : obj) :
  extends h0 h -> h0 !! l = Some o -> h !! l = Some o.
Proof. intros [e ->]. apply lookup_app_l_Some. Qed.

Lemma run_step_missing (alloc : dict (string * string) Q) (h : heap)
    (new_assets asset segment : loc) (a : Asset.t loc) (seg : Segment.t) :
  h !! segment = Some (OSegment seg) ->
  h !! asset = Some (OAsset a) ->
  dict_get (Asset.asset_id a, Segment.segment_id seg) alloc = None ->
  exists o,
    new_portfolio_step alloc new_assets asset segment h
    = Some (Raise (KeyError (Asset.asset_id a, Segment.segment_id seg)), h ++ [o]).
Proof.
  intros Hseg Ha Hm. eexists. unfold new_portfolio_step.
  rewrite (run_bind _ _ _ _ _ (run_get_segment _ _ _ Hseg)).
  rewrite (run_bind _ _ _ _ _ (run_alloc _ _)).
  rewrite (run_bind _ _ _ _ _ (run_get_asset _ _ _ (lookup_snoc_old _ _ _ _ Ha))).
  rewrite (run_bind _ _ _ _ _ (run_get_segment _ _ _ (lookup_snoc_old _ _ _ _ Hseg))).
  rewrite Hm. reflexivity.
Qed.

(** Common prefix of the two successful outcomes: the copy is allocated and
    its exposure assigned. *)
Lemma run_step_present (alloc : dict (string * string) Q) (h : heap)
    (new_assets asset segment : loc) (a : Asset.t loc) (seg : Segment.t)
    (m : Q) (d : dict string loc) :
  h !! segment = Some (OSegment seg) ->
  h !! asset = Some (OAsset a) ->
  h !! new_assets = Some (ODict d) ->
  dict_get (Asset.asset_id a, Segment.segment_id seg) alloc = Some m ->
  new_portfolio_step alloc new_assets asset segment h
  = match dict_get (Asset.asset_id a) d with
    | None =>
        (ns ← get_segment (length h);
         segments ← Heap.alloc (ODict [(Segment.segment_id ns, length h)]);
         a' ← Heap.alloc
                (OAsset
                   (Asset.mk (Asset.asset_id a) segments
                      (Segment.exposure ns)
                      (Segment.exposure ns * Segment.profitability ns)
                      (Segment.exposure ns * Segment.risk_weight ns)
                      (Segment.risk_weight ns)
                      (Asset.min_rel_exposure a) (Asset.max_rel_exposure a)
                      Asset.default_profit_stdev));
         d ← get_dict new_assets;
         put_dict new_assets (dict_set (Asset.asset_id a) a' d))
          (h ++ [OSegment (rebalanced_segment m seg)])
    | Some a' =>
        add_segment a' (length h) (h ++ [OSegment (rebalanced_segment m seg)])
    end.
Proof.
  intros Hseg Ha Hna Hm. unfold new_portfolio_step.
  rewrite (run_bind _ _ _ _ _ (run_get_segment _ _ _ Hseg)).
  rewrite (run_bind _ _ _ _ _ (run_alloc _ _)).
  rewrite (run_bind _ _ _ _ _ (run_get_asset _ _ _ (lookup_snoc_old _ _ _ _ Ha))).
  rewrite (run_bind _ _ _ _ _ (run_get_segment _ _ _ (lookup_snoc_old _ _ _ _ Hseg))).
  rewrite Hm.
  rewrite (run_bind _ _ _ _ _ (run_get_segment _ _ _ (lookup_snoc_new _ _))).
  rewrite (run_bind _ _ _ _ _ (run_put_segment _ _ _ _ (lookup_snoc_new _ _))).
  rewrite insert_snoc_new.
  change (Segment.set_exposure _ _) with (rebalanced_segment m seg).
  rewrite (run_bind _ _ _ _ _ (run_get_asset _ _ _ (lookup_snoc_old _ _ _ _ Ha))).
  rewrite (run_bind _ _ _ _ _ (run_get_dict _ _ _ (lookup_snoc_old _ _ _ _ Hna))).
  destruct (dict_get (Asset.asset_id a) d); reflexivity.
Qed.

Lemma run_step_first (h1 : heap) (new_assets ls : loc) (a : Asset.t loc)
    (ns : Segment.t) (d : dict string loc) :
  h1 !! ls = Some (OSegment ns) ->
  h1 !! new_assets = Some (ODict d) ->
  (ns ← get_segment ls;
   segments ← Heap.alloc (ODict [(Segment.segment_id ns, ls)]);
   a' ← Heap.alloc
          (OAsset
             (Asset.mk (Asset.asset_id a) segments
                (Segment.exposure ns)
                (Segment.exposure ns * Segment.profitability ns)
                (Segment.exposure ns * Segment.risk_weight ns)
                (Segment.risk_weight ns)
                (Asset.min_rel_exposure a) (Asset.max_rel_exposure a)
                Asset.default_profit_stdev));
   d ← get_dict new_assets;
   put_dict new_assets (dict_set (Asset.asset_id a) a' d)) h1
  = Some (Ok tt,
          <[new_assets := ODict (dict_set (Asset.asset_id a) (S (length h1)) d)]>
            ((h1 ++ [ODict [(Segment.segment_id ns, ls)]])
             ++ [OAsset
                   (Asset.mk (Asset.asset_id a) (length h1)
                      (Segment.exposure ns)
                      (Segment.exposure ns * Segment.profitability ns)
                      (Segment.exposure ns * Segment.risk_weight ns)
                      (Segment.risk_weight ns)
                      (Asset.min_rel_exposure a) (Asset.max_rel_exposure a)
                      Asset.default_profit_stdev)])).
Proof.
  intros Hls Hna.
  rewrite (run_bind _ _ _ _ _ (run_get_segment _ _ _ Hls)).
  rewrite (run_bind _ _ _ _ _ (run_alloc _ _)).
  rewrite (run_bind _ _ _ _ _ (run_alloc _ _)).
  rewrite length_app. simpl. replace (length h1 + 1)%nat with (S (length h1)) by lia.
  assert (Hna' : ((h1 ++ [ODict [(Segment.segment_id ns, ls)]])
                  ++ [OAsset
                        (Asset.mk (Asset.asset_id a) (length h1)
                           (Segment.exposure ns)
                           (Segment.exposure ns * Segment.profitability ns)
                           (Segment.exposure ns * Segment.risk_weight ns)
                           (Segment.risk_weight ns)
                           (Asset.min_rel_exposure a) (Asset.max_rel_exposure a)
                           Asset.default_profit_stdev)]) !! new_assets
                 = Some (ODict d)).
  { apply lookup_snoc_old, lookup_snoc_old, Hna. }
  rewrite (run_bind _ _ _ _ _ (run_get_dict _ _ _ Hna')).
  apply (run_put_dict _ _ _ _ Hna').
Qed.
Lemma read_assets_elem (h : heap) (d : dict string loc)
    (assets : dict string Asset) (l : loc) :
  read_assets h d = Some assets -> l ∈ dict_values d ->
  exists a, read_asset h l = Some a.
Proof.
  revert assets. induction d as [|[k0 l0] d IH]; intros assets; simpl.
  - intros _ Hin. inversion Hin.
  - destruct (read_asset h l0) as [a0|] eqn:Ha0; [|discriminate].
    destruct (read_assets h d) as [assets0|]; [|discriminate].
    intros _ Hin. apply elem_of_cons in Hin as [->|Hin]; [eauto|].
    exact (IH assets0 eq_refl Hin).
Qed.

(** Lookups after the two assignments of [add_segment] on a heap that grew
    by one object, and after the assignment to [new_assets] on a heap that
    grew by three. *)
Lemma lookup_after_add (h : heap) (al sd l : loc) (o o1 o2 x : obj) :
  h !! l = Some o -> l <> al -> l <> sd ->
  <[al := o1]> (<[sd := o2]> (h ++ [x])) !! l = Some o.
Proof.
  intros Hl Hal Hsd.
  rewrite !list_lookup_insert_ne by congruence.
  apply lookup_snoc_old, Hl.
Qed.

Lemma lookup_after_first (h : heap) (na l : loc) (o o1 x y z : obj) :
  h !! l = Some o -> l <> na ->
  <[na := o1]> (((h ++ [x]) ++ [y]) ++ [z]) !! l = Some o.
Proof.
  intros Hl Hna.
  rewrite list_lookup_insert_ne by congruence.
  apply lookup_snoc_old, lookup_snoc_old, lookup_snoc_old, Hl.
Qed.

(** An entry of [new_assets] other than the written ones reads back as
    before. *)
Lemma entry_kept (h h' : heap) (na l0 : loc) (a0 : Asset) :
  segments_kept h h' ->
  (forall l o, h !! l = Some o -> l <> na ->
     (forall ah, o = OAsset ah -> l <> l0 -> False) ->
     (forall d, o = ODict d -> S l <> l0 -> False) ->
     h' !! l = Some o) ->
  (exists ah, h !! l0 = Some (OAsset ah) /\ S (Asset.segments ah) = l0
              /\ na < Asset.segments ah) ->
  read_asset h l0 = Some a0 ->
  read_asset h' l0 = Some a0
  /\ exists ah, h' !! l0 = Some (OAsset ah) /\ S (Asset.segments ah) = l0
                /\ na < Asset.segments ah.
Proof.
  intros Hsegs Hkept (ah & Hah & HS & Hlt) Hread.
  assert (Hl0 : h' !! l0 = Some (OAsset ah)).
  { apply Hkept; [exact Hah | lia | intros ? _ Hne; now apply Hne | discriminate]. }
  split; [|exists ah; auto].
  apply (read_asset_kept h h' l0 a0 Hsegs).
  - rewrite Hl0, Hah. reflexivity.
  - intros ah' Hah'. assert (ah' = ah) as -> by congruence.
    destruct (read_asset_inv h l0 a0 Hread) as (ah2 & d2 & Hah2 & Hd2 & _).
    assert (ah2 = ah) as -> by congruence.
    rewrite Hd2. apply Hkept; [exact Hd2 | lia | discriminate |].
    intros ? _ Hne. now apply Hne.
  - exact Hread.
Qed.
(** *** Every portfolio value has a heap that reads back as it *)

Lemma store_segments_read (d : dict string Segment.t) (h : heap) :
  exists dl h',
    store_segments d h = Some (Ok dl, h')
    /\ extends h h'
    /\ read_segments h' dl = Some d.
Proof.
  revert h. induction d as [|[k s] d IH]; intros h; simpl.
  - exists [], h. split; [reflexivity|]. split; [apply extends_refl | reflexivity].
  - destruct (IH (h ++ [OSegment s])) as (dl & h' & Hrun & Hext & Hread).
    exists ((k, length h) :: dl), h'. split; [|split].
    + rewrite (run_bind _ _ _ _ _ (run_alloc _ _)).
      rewrite (run_bind _ _ _ _ _ Hrun). reflexivity.
    + destruct Hext as [e ->]. exists ([OSegment s] ++ e). now rewrite app_assoc.
    + simpl. rewrite (extends_lookup _ _ _ _ Hext (lookup_snoc_new h _)), Hread.
      reflexivity.
Qed.

Lemma store_asset_read (a : Asset) (h : heap) :
  exists l h',
    store_asset a h = Some (Ok l, h')
    /\ extends h h'
    /\ read_asset h' l = Some a.
Proof.
  destruct (store_segments_read (Asset.segments a) h) as (dl & h1 & Hrun & Hext & Hread).
  set (ah := Asset.mk (Asset.asset_id a) (length h1) (Asset.total_exposure a)
               (Asset.total_profit a) (Asset.total_risk_weighted_assets a)
               (Asset.average_risk_weight a) (Asset.min_rel_exposure a)
               (Asset.max_rel_exposure a) (Asset.profit_stdev a)).
  exists (length (h1 ++ [ODict dl])), ((h1 ++ [ODict dl]) ++ [OAsset ah]).
  split; [|split].
  - unfold store_asset.
    rewrite (run_bind _ _ _ _ _ Hrun).
    rewrite (run_bind _ _ _ _ _ (run_alloc _ _)).
    apply run_alloc.
  - apply extends_app, extends_app, Hext.
  - rewrite (read_asset_intro _ _ ah dl (Asset.segments a)).
    + destruct a. reflexivity.
    + apply lookup_snoc_new.
    + simpl. apply lookup_snoc_old, lookup_snoc_new.
    + apply (read_segments_kept h1); [|exact Hread].
      intros l s Hl. apply lookup_snoc_old, lookup_snoc_old, Hl.
Qed.

Lemma store_assets_read (d : dict string Asset) (h : heap) :
  exists dl h',
    store_assets d h = Some (Ok dl, h')
    /\ extends h h'
    /\ read_assets h' dl = Some d.
Proof.
  revert h. induction d as [|[k a] d IH]; intros h; simpl.
  - exists [], h. split; [reflexivity|]. split; [apply extends_refl | reflexivity].
  - destruct (store_asset_read a h) as (l & h1 & Hrun1 & Hext1 & Hread1).
    destruct (IH h1) as (dl & h' & Hrun & Hext & Hread).
    exists ((k, l) :: dl), h'. split; [|split].
    + rewrite (run_bind _ _ _ _ _ Hrun1).
      rewrite (run_bind _ _ _ _ _ Hrun). reflexivity.
    + destruct Hext1 as [e1 ->]. destruct Hext as [e ->].
      exists (e1 ++ e). now rewrite app_assoc.
    + simpl. destruct Hext as [e ->].
      rewrite (read_asset_app _ e _ _ Hread1), Hread. reflexivity.
Qed.

(** Storing a portfolio value gives a reference that reads back as it. *)
Lemma store_portfolio_read (p : Portfolio) (h : heap) :
  exists l h',
    store_portfolio p h = Some (Ok l, h')
    /\ extends h h'
    /\ read_portfolio h' l = Some p.
Proof.
  destruct (store_assets_read (Portfolio.assets p) h) as (dl & h1 & Hrun & Hext & Hread).
  eexists _, _. split; [|split].
  - unfold store_portfolio.
    rewrite (run_bind _ _ _ _ _ Hrun).
    rewrite (run_bind _ _ _ _ _ (run_alloc _ _)).
    rewrite (run_bind _ _ _ _ _ (run_alloc _ _)).
    apply run_alloc.
  - apply extends_app, extends_app, extends_app, Hext.
  - unfold read_portfolio.
    set (h2 := h1 ++ [ODict dl]).
    set (h3 := h2 ++ [ODataFrame (Portfolio.correlation_matrix p)]).
    rewrite lookup_snoc_new. simpl.
    assert (H2 : (h3 ++ [OPortfolio
                           (Portfolio.mk (Portfolio.portfolio_id p) (length h1)
                              (length h2) (Portfolio.total_exposure p)
                              (Portfolio.total_profit p)
                              (Portfolio.total_risk_weighted_assets p)
                              (Portfolio.average_risk_weight p))]) !! length h1
                 = Some (ODict dl)).
    { apply lookup_snoc_old, lookup_snoc_old, lookup_snoc_new. }
    assert (H3 : (h3 ++ [OPortfolio
                           (Portfolio.mk (Portfolio.portfolio_id p) (length h1)
                              (length h2) (Portfolio.total_exposure p)
                              (Portfolio.total_profit p)
                              (Portfolio.total_risk_weighted_assets p)
                              (Portfolio.average_risk_weight p))]) !! length h2
                 = Some (ODataFrame (Portfolio.correlation_matrix p))).
    { apply lookup_snoc_old, lookup_snoc_new. }
    rewrite H2, H3.
    unfold h3, h2. rewrite <- !app_assoc.
    rewrite (read_assets_app _ _ _ _ Hread).
    destruct p. reflexivity.
Qed.

(** *** The loop body refines the value-level step *)

Lemma step_sim (alloc : dict (string * string) Q) (h0 h : heap)
    (acc : dict string Asset) (asset_l seg_l : loc) (asset : Asset)
    (seg : Segment.t) :
  extends h0 h ->
  new_assets_inv (length h0) h acc ->
  read_asset h0 asset_l = Some asset ->
  h0 !! seg_l = Some (OSegment seg) ->
  exists r h',
    new_portfolio_step alloc (length h0) asset_l seg_l h = Some (r, h')
    /\ extends h0 h'
    /\ match r with
       | Raise e => value_new_portfolio_step alloc asset acc seg = Raise e
       | Ok _ =>
           exists acc',
             value_new_portfolio_step alloc asset acc seg = Ok acc'
             /\ new_assets_inv (length h0) h' acc'
       end.
Proof.
  intros Hext (d & Hna & Hread & Hnd & Hall) Hasset Hseg0.
  destruct (read_asset_inv h0 asset_l asset Hasset) as (ah & ds0 & Hah0 & _ & _ & Heq).
  pose proof (extends_lookup _ _ _ _ Hext Hah0) as Hah.
  pose proof (extends_lookup _ _ _ _ Hext Hseg0) as Hseg.
  assert (Hid : Asset.asset_id asset = Asset.asset_id ah) by (rewrite Heq; reflexivity).
  assert (Hmin : Asset.min_rel_exposure asset = Asset.min_rel_exposure ah)
    by (rewrite Heq; reflexivity).
  assert (Hmax : Asset.max_rel_exposure asset = Asset.max_rel_exposure ah)
    by (rewrite Heq; reflexivity).
  pose proof (lookup_lt_Some _ _ _ Hna) as Hlen.
  rewrite Forall_forall in Hall.
  destruct (dict_get (Asset.asset_id ah, Segment.segment_id seg) alloc)
    as [m|] eqn:Hm.
  2:{ destruct (run_step_missing alloc h (length h0) asset_l seg_l ah seg
                  Hseg Hah Hm) as [o Hrun].
      eexists _, _. split; [exact Hrun|]. split; [apply extends_app, Hext|].
      unfold value_new_portfolio_step. cbv zeta. rewrite Hid, Hm. reflexivity. }
  pose proof (run_step_present alloc h (length h0) asset_l seg_l ah seg m d
                Hseg Hah Hna Hm) as Hrun.
  pose proof (read_assets_get h d acc (Asset.asset_id ah) Hread) as Hget.
  set (ns := rebalanced_segment m seg) in *.
  assert (Hm' : dict_get (Asset.asset_id asset, Segment.segment_id seg) alloc = Some m)
    by (rewrite Hid; exact Hm).
  destruct (dict_get (Asset.asset_id ah) d) as [al|] eqn:Hd.
  - (* the asset has an entry: add_segment *)
    assert (Hal : al ∈ dict_values d).
    { apply elem_of_map. exists (Asset.asset_id ah, al).
      split; [reflexivity | apply dict_get_Some_elem, Hd]. }
    destruct (Hall al Hal) as (aobj & Haobj & HS & Hlt).
    destruct (read_assets_elem h d acc al Hread Hal) as [aold Haold].
    rewrite Haold in Hget.
    destruct (read_asset_inv h al aold Haold) as (aobj' & ds & Haobj' & Hds & Hsegs & Heqold).
    assert (aobj' = aobj) as -> by congruence.
    set (sd := Asset.segments aobj) in *.
    assert (Hne : al <> sd) by lia.
    pose proof (lookup_lt_Some _ _ _ Haobj) as Hallt.
    pose proof (lookup_lt_Some _ _ _ Hds) as Hsdlt.
    rewrite (run_add_segment (h ++ [OSegment ns]) al (length h) aobj ns ds
               (lookup_snoc_old _ _ _ _ Haobj) (lookup_snoc_new _ _)
               (lookup_snoc_old _ _ _ _ Hds)) in Hrun.
    fold sd in Hrun.
    set (h' := <[al := OAsset (Asset.add_totals sd aobj ns)]>
                 (<[sd := ODict (dict_set (Segment.segment_id ns) (length h) ds)]>
                    (h ++ [OSegment ns]))) in *.
    assert (Hkeep : forall l o, h !! l = Some o -> l <> al -> l <> sd ->
                      h' !! l = Some o).
    { intros l o Hl H1 H2. apply lookup_after_add; assumption. }
    assert (Hsk : segments_kept h h').
    { intros l s Hl. apply Hkeep; [exact Hl | congruence | congruence]. }
    assert (Hhal : h' !! al = Some (OAsset (Asset.add_totals sd aobj ns))).
    { apply list_lookup_insert_eq. rewrite length_insert, length_app. lia. }
    assert (Hhsd : h' !! sd
                   = Some (ODict (dict_set (Segment.segment_id ns) (length h) ds))).
    { unfold h'. rewrite list_lookup_insert_ne by exact Hne.
      apply list_lookup_insert_eq. rewrite length_app. lia. }
    assert (Hhls : h' !! length h = Some (OSegment ns)).
    { unfold h'. rewrite !list_lookup_insert_ne by lia. apply lookup_snoc_new. }
    assert (Hnew : read_asset h' al = Some (Asset.add_segment aold ns)).
    { rewrite (read_asset_intro h' al _ _ (dict_set (Segment.segment_id ns) ns
                                             (Asset.segments aold)) Hhal Hhsd).
      - rewrite Heqold. reflexivity.
      - apply read_segments_set; [|exact Hhls].
        exact (read_segments_kept h h' ds _ Hsk Hsegs). }
    assert (Hold : forall l0 a0, l0 ∈ dict_values d -> l0 <> al ->
                     read_asset h l0 = Some a0 ->
                     read_asset h' l0 = Some a0
                     /\ exists ah0, h' !! l0 = Some (OAsset ah0)
                                    /\ S (Asset.segments ah0) = l0
                                    /\ length h0 < Asset.segments ah0).
    { intros l0 a0 Hl0 Hl0ne Ha0.
      apply (entry_kept h h' (length h0) l0 a0 Hsk); [|exact (Hall l0 Hl0)|exact Ha0].
      intros l o Hl _ Hasset_only Hdict_only.
      apply Hkeep; [exact Hl| |].
      - intros ->. rewrite Haobj in Hl. injection Hl as <-.
        apply (Hasset_only aobj eq_refl). congruence.
      - intros ->. rewrite Hds in Hl. injection Hl as <-.
        apply (Hdict_only ds eq_refl). lia. }
    eexists (Ok tt), h'. split; [exact Hrun|]. split.
    { apply extends_insert; [apply extends_insert; [apply extends_app, Hext|]|]; lia. }
    exists (dict_set (Asset.asset_id asset) (Asset.add_segment aold ns) acc).
    split.
    { apply (new_portfolio_step_present alloc asset acc seg m aold Hm').
      rewrite Hid. exact Hget. }
    exists d. split; [apply Hkeep; [exact Hna | lia | lia]|].
    split.
    { apply (read_assets_update h h' d acc (Asset.asset_id asset) al _ Hnd Hread).
      - rewrite Hid. exact Hd.
      - intros l0 a0 Hl0 Hl0ne Ha0. apply (Hold l0 a0 Hl0 Hl0ne Ha0).
      - exact Hnew. }
    split; [exact Hnd|].
    apply Forall_forall. intros l0 Hl0.
    destruct (decide (l0 = al)) as [->|Hl0ne].
    + eexists. split; [exact Hhal|]. simpl. split; [exact HS | exact Hlt].
    + destruct (read_assets_elem h d acc l0 Hread Hl0) as [a0 Ha0].
      apply (Hold l0 a0 Hl0 Hl0ne Ha0).
  - (* the asset has no entry yet: the constructor call *)
    set (h1 := h ++ [OSegment ns]) in *.
    rewrite (run_step_first h1 (length h0) (length h) ah ns d
               (lookup_snoc_new _ _) (lookup_snoc_old _ _ _ _ Hna)) in Hrun.
    assert (Hlen1 : length h1 = S (length h)) by (unfold h1; rewrite length_app; simpl; lia).
    rewrite Hlen1 in Hrun.
    set (a0 := Asset.mk (Asset.asset_id ah) (S (length h)) (Segment.exposure ns)
                 (Segment.exposure ns * Segment.profitability ns)%Q
                 (Segment.exposure ns * Segment.risk_weight ns)%Q
                 (Segment.risk_weight ns) (Asset.min_rel_exposure ah)
                 (Asset.max_rel_exposure ah) Asset.default_profit_stdev) in *.
    set (la := S (S (length h))) in *.
    set (h' := <[length h0 := ODict (dict_set (Asset.asset_id ah) la d)]>
                 ((h1 ++ [ODict [(Segment.segment_id ns, length h)]]) ++ [OAsset a0]))
      in *.
    assert (Hkeep : forall l o, h !! l = Some o -> l <> length h0 -> h' !! l = Some o).
    { intros l o Hl H1. apply lookup_after_first; assumption. }
    assert (Hsk : segments_kept h h').
    { intros l s Hl. apply Hkeep; [exact Hl | congruence]. }
    assert (Hhla : h' !! la = Some (OAsset a0)).
    { unfold h'. rewrite list_lookup_insert_ne by lia.
      replace la with (length (h1 ++ [ODict [(Segment.segment_id ns, length h)]]))
        by (rewrite length_app, Hlen1; simpl; lia).
      apply lookup_snoc_new. }
    assert (Hhld : h' !! S (length h)
                   = Some (ODict [(Segment.segment_id ns, length h)])).
    { unfold h'. rewrite list_lookup_insert_ne by lia.
      apply lookup_snoc_old. rewrite <- Hlen1. apply lookup_snoc_new. }
    assert (Hhls : h' !! length h = Some (OSegment ns)).
    { unfold h'. rewrite list_lookup_insert_ne by lia.
      apply lookup_snoc_old, lookup_snoc_old, lookup_snoc_new. }
    assert (Hnone : dict_get (Asset.asset_id asset) acc = None)
      by (rewrite Hid; exact Hget).
    assert (Hnew : read_asset h' la
                   = Some (asset_of_first_segment (Asset.asset_id asset) ns
                             (Asset.min_rel_exposure asset)
                             (Asset.max_rel_exposure asset))).
    { rewrite (read_asset_intro h' la a0 _ [(Segment.segment_id ns, ns)] Hhla Hhld).
      - rewrite Hid, Hmin, Hmax. reflexivity.
      - simpl. rewrite Hhls. reflexivity. }
    assert (Hold : forall l0 a1, l0 ∈ dict_values d ->
                     read_asset h l0 = Some a1 ->
                     read_asset h' l0 = Some a1
                     /\ exists ah0, h' !! l0 = Some (OAsset ah0)
                                    /\ S (Asset.segments ah0) = l0
                                    /\ length h0 < Asset.segments ah0).
    { intros l0 a1 Hl0 Ha1.
      apply (entry_kept h h' (length h0) l0 a1 Hsk); [|exact (Hall l0 Hl0)|exact Ha1].
      intros l o Hl Hlne _ _. apply Hkeep; assumption. }
    eexists (Ok tt), h'. split; [exact Hrun|]. split.
    { apply extends_insert; [|lia].
      apply extends_app, extends_app, extends_app, Hext. }
    exists (dict_set (Asset.asset_id asset)
              (asset_of_first_segment (Asset.asset_id asset) ns
                 (Asset.min_rel_exposure asset) (Asset.max_rel_exposure asset))
              acc).
    split; [exact (new_portfolio_step_absent alloc asset acc seg m Hm' Hnone)|].
    exists (dict_set (Asset.asset_id ah) la d). split.
    { apply list_lookup_insert_eq. rewrite !length_app. lia. }
    rewrite (dict_set_new _ _ _ Hd), (dict_set_new _ _ _ Hnone). split.
    { rewrite <- Hid. apply read_assets_snoc; [|exact Hnew].
      apply (read_assets_kept h h' d acc); [|exact Hread].
      intros l0 a1 Hl0 Ha1. apply (Hold l0 a1 Hl0 Ha1). }
    unfold dict_values. rewrite map_app. simpl. split.
    { apply NoDup_app. split; [exact Hnd|]. split; [|apply NoDup_singleton].
      intros l0 Hl0 Hin. apply list_elem_of_singleton in Hin as ->.
      destruct (Hall la Hl0) as (ah0 & Hah0' & _).
      apply lookup_lt_Some in Hah0'. unfold la in Hah0'. lia. }
    apply Forall_app. split.
    + apply Forall_forall. intros l0 Hl0.
      destruct (read_assets_elem h d acc l0 Hread Hl0) as [a1 Ha1].
      apply (Hold l0 a1 Hl0 Ha1).
    + repeat constructor. exists a0. split; [exact Hhla|]. simpl. split; lia.
Qed.

(** *** The loops refine the value-level loops *)

Lemma run_bind_raise {A B : Type} (m : M A) (k : A -> M B) (h h1 : heap)
    (e : exn) :
  m h = Some (Raise e, h1) -> (m ≫= k) h = Some (Raise e, h1).
Proof. intros Hm. unfold mbind, M_bind. rewrite Hm. reflexivity. Qed.

Lemma read_segments_values (h : heap) (d : dict string loc)
    (segs : dict string Segment.t) :
  read_segments h d = Some segs ->
  Forall2 (fun sl s => h !! sl = Some (OSegment s)) (dict_values d)
          (dict_values segs).
Proof.
  revert segs. induction d as [|[k l] d IH]; intros segs; simpl.
  - intros [= <-]. constructor.
  - destruct (h !! l) as [[s| | | |]|] eqn:Hl; try discriminate.
    destruct (read_segments h d) as [segs0|]; [|discriminate].
    intros [= <-]. simpl. constructor; [exact Hl | apply IH; reflexivity].
Qed.

Lemma read_assets_values (h : heap) (d : dict string loc)
    (assets : dict string Asset) :
  read_assets h d = Some assets ->
  Forall2 (fun al a => read_asset h al = Some a) (dict_values d)
          (dict_values assets).
Proof.
  revert assets. induction d as [|[k l] d IH]; intros assets; simpl.
  - intros [= <-]. constructor.
  - destruct (read_asset h l) as [a|] eqn:Hl; [|discriminate].
    destruct (read_assets h d) as [assets0|]; [|discriminate].
    intros [= <-]. simpl. constructor; [exact Hl | apply IH; reflexivity].
Qed.

Lemma segments_loop_sim (alloc : dict (string * string) Q) (h0 : heap)
    (asset_l : loc) (asset : Asset) (slocs : list loc) (segs : list Segment.t) :
  read_asset h0 asset_l = Some asset ->
  Forall2 (fun sl s => h0 !! sl = Some (OSegment s)) slocs segs ->
  forall h acc,
    extends h0 h ->
    new_assets_inv (length h0) h acc ->
    exists r h',
      for_each_h (new_portfolio_step alloc (length h0) asset_l) slocs h
      = Some (r, h')
      /\ extends h0 h'
      /\ match r with
         | Raise e =>
             for_each (value_new_portfolio_step alloc asset) segs acc = Raise e
         | Ok _ =>
             exists acc',
               for_each (value_new_portfolio_step alloc asset) segs acc = Ok acc'
               /\ new_assets_inv (length h0) h' acc'
         end.
Proof.
  intros Hasset Hsegs.
  induction Hsegs as [|sl s slocs segs Hsl _ IH]; intros h acc Hext Hinv; simpl.
  - exists (Ok tt), h. split; [reflexivity|]. split; [exact Hext|].
    exists acc. split; [reflexivity | exact Hinv].
  - destruct (step_sim alloc h0 h acc asset_l sl asset s Hext Hinv Hasset Hsl)
      as (r & h1 & Hrun & Hext1 & Hr).
    destruct r as [[]|e].
    + destruct Hr as (acc1 & Hstep & Hinv1).
      destruct (IH h1 acc1 Hext1 Hinv1) as (r2 & h2 & Hrun2 & Hext2 & Hr2).
      exists r2, h2. split; [|split; [exact Hext2|]].
      * rewrite (run_bind _ _ _ _ _ Hrun). exact Hrun2.
      * rewrite Hstep. exact Hr2.
    + exists (Raise e), h1. split; [|split; [exact Hext1|]].
      * apply run_bind_raise, Hrun.
      * rewrite Hr. reflexivity.
Qed.

Lemma assets_loop_sim (alloc : dict (string * string) Q) (h0 : heap)
    (alocs : list loc) (assets : list Asset) :
  Forall2 (fun al a => read_asset h0 al = Some a) alocs assets ->
  forall h acc,
    extends h0 h ->
    new_assets_inv (length h0) h acc ->
    exists r h',
      for_each_h
        (fun asset =>
           a ← get_asset asset;
           segments ← get_dict (Asset.segments a);
           for_each_h (new_portfolio_step alloc (length h0) asset)
                      (dict_values segments))
        alocs h
      = Some (r, h')
      /\ extends h0 h'
      /\ match r with
         | Raise e => value_new_portfolio_assets alloc assets acc = Raise e
         | Ok _ =>
             exists acc',
               value_new_portfolio_assets alloc assets acc = Ok acc'
               /\ new_assets_inv (length h0) h' acc'
         end.
Proof.
  unfold value_new_portfolio_assets.
  induction 1 as [|al a alocs assets Hal _ IH]; intros h acc Hext Hinv; simpl.
  - exists (Ok tt), h. split; [reflexivity|]. split; [exact Hext|].
    exists acc. split; [reflexivity | exact Hinv].
  - destruct (read_asset_inv h0 al a Hal) as (ah & ds & Hah & Hds & Hsegs & _).
    pose proof (read_segments_values h0 ds _ Hsegs) as Hvals.
    destruct (segments_loop_sim alloc h0 al a _ _ Hal Hvals h acc Hext Hinv)
      as (r & h1 & Hrun & Hext1 & Hr).
    assert (Hbody :
      (a0 ← get_asset al;
       segments ← get_dict (Asset.segments a0);
       for_each_h (new_portfolio_step alloc (length h0) al) (dict_values segments)) h
      = Some (r, h1)).
    { rewrite (run_bind _ _ _ _ _ (run_get_asset _ _ _ (extends_lookup _ _ _ _ Hext Hah))).
      rewrite (run_bind _ _ _ _ _ (run_get_dict _ _ _ (extends_lookup _ _ _ _ Hext Hds))).
      exact Hrun. }
    destruct r as [[]|e].
    + destruct Hr as (acc1 & Hstep & Hinv1).
      destruct (IH h1 acc1 Hext1 Hinv1) as (r2 & h2 & Hrun2 & Hext2 & Hr2).
      exists r2, h2. split; [|split; [exact Hext2|]].
      * rewrite (run_bind _ _ _ _ _ Hbody). exact Hrun2.
      * rewrite Hstep. exact Hr2.
    + exists (Raise e), h1. split; [|split; [exact Hext1|]].
      * apply run_bind_raise, Hbody.
      * rewrite Hr. reflexivity.
Qed.

(** *** The constructor of the new portfolio *)

Lemma post_init_loop_sim (hb : heap) (self : loc) (d : dict string loc)
    (acc : dict string Asset) :
  read_assets hb d = Some acc ->
  self < length hb ->
  (forall al, al ∈ dict_values d -> al <> self) ->
  forall (pc : Portfolio.t loc loc) (pp : Portfolio),
    same_totals pc pp ->
    exists pf,
      for_each_h
        (fun asset =>
           a ← get_asset asset;
           p ← get_portfolio self;
           put_portfolio self (Portfolio.post_init_step p a))
        (dict_values d) (<[self := OPortfolio pc]> hb)
      = Some (Ok tt, <[self := OPortfolio pf]> hb)
      /\ same_totals pf (fold_left Portfolio.post_init_step (dict_values acc) pp)
      /\ Portfolio.portfolio_id pf = Portfolio.portfolio_id pc
      /\ Portfolio.assets pf = Portfolio.assets pc
      /\ Portfolio.correlation_matrix pf = Portfolio.correlation_matrix pc.
Proof.
  intros Hread Hself. revert acc Hread.
  induction d as [|[k al] d IH]; intros acc Hread Hne pc pp Hsame; simpl in *.
  - injection Hread as <-. exists pc. simpl. auto.
  - destruct (read_asset hb al) as [a|] eqn:Ha; [|discriminate].
    destruct (read_assets hb d) as [acc0|] eqn:Hd; [|discriminate].
    injection Hread as <-. simpl.
    destruct (read_asset_inv hb al a Ha) as (ah & ds & Hah & _ & _ & Heq).
    assert (Hal : al <> self) by (apply Hne; constructor).
    assert (Hah' : <[self := OPortfolio pc]> hb !! al = Some (OAsset ah)).
    { rewrite list_lookup_insert_ne by congruence. exact Hah. }
    assert (Hp : <[self := OPortfolio pc]> hb !! self = Some (OPortfolio pc)).
    { apply list_lookup_insert_eq, Hself. }
    assert (Hbody :
      (a0 ← get_asset al;
       p ← get_portfolio self;
       put_portfolio self (Portfolio.post_init_step p a0))
        (<[self := OPortfolio pc]> hb)
      = Some (Ok tt, <[self := OPortfolio (Portfolio.post_init_step pc ah)]> hb)).
    { rewrite (run_bind _ _ _ _ _ (run_get_asset _ _ _ Hah')).
      rewrite (run_bind _ _ _ _ _ (run_get_portfolio _ _ _ Hp)).
      rewrite (run_put_portfolio _ _ _ _ Hp), list_insert_insert_eq.
      reflexivity. }
    rewrite (run_bind _ _ _ _ _ Hbody).
    destruct (IH acc0 eq_refl
                (fun l Hl => Hne l (list_elem_of_further _ _ _ Hl))
                (Portfolio.post_init_step pc ah) (Portfolio.post_init_step pp a))
      as (pf & Hrun & Htot & Hid & Hassets & Hcorr).
    { destruct Hsame as (H1 & H2 & H3 & H4). rewrite Heq.
      unfold same_totals, Portfolio.post_init_step. simpl.
      rewrite H1, H2, H3. auto. }
    exists pf. split; [exact Hrun|]. split; [exact Htot|]. auto.
Qed.

Lemma read_assets_keeps (h h' : heap) (d : dict string loc)
    (assets : dict string Asset) :
  (forall l o, h !! l = Some o -> h' !! l = Some o) ->
  read_assets h d = Some assets -> read_assets h' d = Some assets.
Proof.
  intros Hkeep. apply read_assets_kept. intros l a _ Hread.
  destruct (read_asset_inv h l a Hread) as (ah & ds & Hah & Hds & _).
  apply (read_asset_kept h h' l a).
  - intros l0 s Hl0. apply Hkeep, Hl0.
  - rewrite Hah. apply Hkeep, Hah.
  - intros ah' Hah'. assert (ah' = ah) as -> by congruence.
    rewrite Hds. apply Hkeep, Hds.
  - exact Hread.
Qed.

Lemma portfolio_new_sim (id : string) (h0 h : heap) (acc : dict string Asset) :
  extends h0 h ->
  new_assets_inv (length h0) h acc ->
  exists l h',
    Portfolio_new id (length h0) h = Some (Ok l, h')
    /\ extends h0 h'
    /\ read_portfolio h' l = Some (Portfolio.new id acc empty_DataFrame).
Proof.
  intros Hext (d & Hna & Hread & Hnd & Hall).
  pose proof (lookup_lt_Some _ _ _ Hna) as Hlen.
  set (p0 := Portfolio.mk id (length h0) (length h) 0%Q 0%Q 0%Q 0%Q).
  set (hb := (h ++ [ODataFrame empty_DataFrame]) ++ [OPortfolio p0]).
  set (self := S (length h)).
  assert (Hselfb : hb !! self = Some (OPortfolio p0)).
  { unfold hb, self.
    replace (S (length h)) with (length (h ++ [ODataFrame empty_DataFrame]))
      by (rewrite length_app; simpl; lia).
    apply lookup_snoc_new. }
  assert (Hkeepb : forall l o, h !! l = Some o -> hb !! l = Some o).
  { intros l o Hl. apply lookup_snoc_old, lookup_snoc_old, Hl. }
  assert (Hselflt : self < length hb) by (apply lookup_lt_Some in Hselfb; exact Hselfb).
  assert (Hne : forall al, al ∈ dict_values d -> al <> self).
  { intros al Hal. rewrite Forall_forall in Hall.
    destruct (Hall al Hal) as (ah & Hah & _).
    apply lookup_lt_Some in Hah. unfold self. lia. }
  destruct (post_init_loop_sim hb self d acc
              (read_assets_keeps h hb d acc Hkeepb Hread) Hselflt Hne p0
              (Portfolio.mk id acc empty_DataFrame 0%Q 0%Q 0%Q 0%Q))
    as (pf & Hloop & Htot & Hid & Hassets & Hcorr).
  { repeat split. }
  rewrite (list_insert_id hb self (OPortfolio p0) Hselfb) in Hloop.
  set (h' := <[self := OPortfolio pf]> hb) in *.
  assert (Hkeep : forall l o, h !! l = Some o -> h' !! l = Some o).
  { intros l o Hl. unfold h'. rewrite list_lookup_insert_ne.
    - apply Hkeepb, Hl.
    - apply lookup_lt_Some in Hl. unfold self. lia. }
  exists self, h'. split; [|split].
  - unfold Portfolio_new.
    rewrite (run_bind _ _ _ _ _ (run_alloc _ _)).
    rewrite (run_bind _ _ _ _ _ (run_alloc _ _)).
    rewrite length_app. simpl. replace (length h + 1) with (S (length h)) by lia.
    fold p0 hb self.
    rewrite (run_bind _ _ _ _ _ (run_get_portfolio _ _ _ Hselfb)).
    simpl Portfolio.assets.
    rewrite (run_bind _ _ _ _ _ (run_get_dict _ _ _ (Hkeepb _ _ Hna))).
    rewrite (run_bind _ _ _ _ _ Hloop).
    reflexivity.
  - apply extends_insert; [|unfold self; lia].
    apply extends_app, extends_app, Hext.
  - unfold read_portfolio.
    assert (Hself' : h' !! self = Some (OPortfolio pf))
      by (apply list_lookup_insert_eq, Hselflt).
    rewrite Hself', Hassets, Hcorr. simpl.
    rewrite (Hkeep _ _ Hna).
    assert (Hdf : h' !! length h = Some (ODataFrame empty_DataFrame)).
    { unfold h'. rewrite list_lookup_insert_ne by (unfold self; lia).
      apply lookup_snoc_old, lookup_snoc_new. }
    rewrite Hdf, (read_assets_keeps h h' d acc Hkeep Hread).
    destruct Htot as (H1 & H2 & H3 & H4).
    destruct (post_init_fold_fields (dict_values acc)
                (Portfolio.mk id acc empty_DataFrame 0%Q 0%Q 0%Q 0%Q))
      as (F1 & F2 & F3).
    rewrite Hid, H1, H2, H3, H4. unfold Portfolio.new.
    set (pn := fold_left Portfolio.post_init_step (dict_values acc) _) in *.
    destruct pn. simpl in *. subst. reflexivity.
Qed.

(** C5.  [new_portfolio], run on a heap in which [portfolio] refers to a
    portfolio that reads back as [p], returns (normally or with the
    [KeyError]) in a heap that still holds every object of the initial heap
    unchanged, so that [portfolio] still reads back as [p]: its segments,
    assets, aggregates, bounds and correlation frame are what they were.  What
    the call returns is what the value-level [new_portfolio] computes from
    [p]. *)
Theorem C5_new_portfolio_keeps_original (self : InstanceManager) (h : heap)
    (portfolio : loc) (p : Portfolio) (alloc : dict (string * string) Q) :
  read_portfolio h portfolio = Some p ->
  exists r h',
    new_portfolio self portfolio alloc h = Some (r, h')
    /\ (forall l o, h !! l = Some o -> h' !! l = Some o)
    /\ read_portfolio h' portfolio = Some p
    /\ match r with
       | Ok l' =>
           exists p',
             value_new_portfolio self p alloc = Ok p'
             /\ read_portfolio h' l' = Some p'
       | Raise e => value_new_portfolio self p alloc = Raise e
       end.
Proof.
  intros Hp.
  assert (Hframe : forall h', extends h h' ->
            (forall l o, h !! l = Some o -> h' !! l = Some o)
            /\ read_portfolio h' portfolio = Some p).
  { intros h' [ext ->]. split.
    - intros l o. apply lookup_app_l_Some.
    - apply read_portfolio_app, Hp. }
  pose proof Hp as Hp'. unfold read_portfolio in Hp'.
  destruct (h !! portfolio) as [[| | | |ph]|] eqn:Hph; try discriminate.
  destruct (h !! Portfolio.assets ph) as [[|d| | |]|] eqn:Hd; try discriminate.
  destruct (h !! Portfolio.correlation_matrix ph) as [[| | |df|]|] eqn:Hdf;
    try discriminate.
  destruct (read_assets h d) as [assets|] eqn:Hassets; [|discriminate].
  injection Hp' as Hpeq.
  assert (Hpa : Portfolio.assets p = assets) by (rewrite <- Hpeq; reflexivity).
  set (h1 := h ++ [ODict []]).
  assert (Hext1 : extends h h1) by (exists [ODict []]; reflexivity).
  assert (Hinv1 : new_assets_inv (length h) h1 []).
  { exists []. split; [apply lookup_snoc_new|]. split; [reflexivity|].
    split; constructor. }
  destruct (assets_loop_sim alloc h (dict_values d) (dict_values assets)
              (read_assets_values h d assets Hassets) h1 [] Hext1 Hinv1)
    as (r & h2 & Hloop & Hext2 & Hr).
  assert (Hrun :
            new_portfolio self portfolio alloc h
            = match r with
              | Ok _ => Portfolio_new (instance_name self ++ "_optimized_portfolio")
                                      (length h) h2
              | Raise e => Some (Raise e, h2)
              end).
  { unfold new_portfolio.
    rewrite (run_bind _ _ _ _ _ (run_alloc _ _)). fold h1.
    rewrite (run_bind _ _ _ _ _
               (run_get_portfolio _ _ _ (extends_lookup _ _ _ _ Hext1 Hph))).
    rewrite (run_bind _ _ _ _ _
               (run_get_dict _ _ _ (extends_lookup _ _ _ _ Hext1 Hd))).
    destruct r as [[]|e].
    - rewrite (run_bind _ _ _ _ _ Hloop). reflexivity.
    - apply run_bind_raise, Hloop. }
  unfold value_new_portfolio. rewrite Hpa.
  destruct r as [[]|e].
  - destruct Hr as (acc & Hval & Hinv2).
    destruct (portfolio_new_sim (instance_name self ++ "_optimized_portfolio")
                h h2 acc Hext2 Hinv2) as (l' & h3 & Hnew & Hext3 & Hread3).
    exists (Ok l'), h3. rewrite Hrun.
    destruct (Hframe h3 Hext3) as [Hk Hrp].
    split; [exact Hnew|]. split; [exact Hk|]. split; [exact Hrp|].
    eexists. split; [|exact Hread3].
    rewrite Hval. reflexivity.
  - exists (Raise e), h2. rewrite Hrun.
    destruct (Hframe h2 Hext2) as [Hk Hrp].
    split; [reflexivity|]. split; [exact Hk|]. split; [exact Hrp|].
    rewrite Hr. reflexivity.
Qed.

Lemma C5_new_portfolio_keeps_original_witness :
  exists r h',
    new_portfolio Examples.manager (fst Examples.stored2) Examples.alloc2
      (snd Examples.stored2) = Some (r, h')
    /\ (forall l o, snd Examples.stored2 !! l = Some o -> h' !! l = Some o)
    /\ read_portfolio h' (fst Examples.stored2) = Some Examples.portfolio2
    /\ match r with
       | Ok l' =>
           exists p',
             value_new_portfolio Examples.manager Examples.portfolio2
               Examples.alloc2 = Ok p'
             /\ read_portfolio h' l' = Some p'
       | Raise e =>
           value_new_portfolio Examples.manager Examples.portfolio2
             Examples.alloc2 = Raise e
       end.
Proof.
  apply (C5_new_portfolio_keeps_original Examples.manager (snd Examples.stored2)
           (fst Examples.stored2) Examples.portfolio2 Examples.alloc2).
  vm_compute. reflexivity.
Defined.

End HeapFacts.

(* ------------------------------------------------------------------ *)
(** ** Further properties of the builder *)

(** A decidable closed proposition, settled by evaluating its decision
    procedure. *)
Ltac by_computation :=
  match goal with
  | |- ?P => apply (bool_decide_unpack P); vm_compute; exact I
  end.

(** *** Sums over the values of a dict under item assignment *)

Lemma Qsum_values_set_absent {K V : Type} `{EqDecision K} (f : V -> Q) (k : K)
    (v : V) (d : dict K V) :
  dict_get k d = None ->
  Qsum (map f (dict_values (dict_set k v d)))
  == Qsum (map f (dict_values d)) + f v.
Proof.
  intros Hnew. rewrite (dict_set_new _ _ _ Hnew). unfold dict_values.
  rewrite !map_app. simpl. apply Qsum_snoc.
Qed.

Lemma Qsum_values_set_present {K V : Type} `{EqDecision K} (f : V -> Q) (k : K)
    (v v0 : V) (d : dict K V) :
  dict_get k d = Some v0 ->
  Qsum (map f (dict_values (dict_set k v d)))
  == Qsum (map f (dict_values d)) - f v0 + f v.
Proof.
  unfold dict_values. induction d as [|[k' v'] d IH]; simpl; [discriminate|].
  destruct (decide (k = k')) as [->|Hne]; intros Hget; simpl.
  - injection Hget as ->. rewrite !Qsum_cons. ring.
  - rewrite !Qsum_cons, (IH Hget). ring.
Qed.

(** *** [Portfolio.__post_init__] *)

(** X1.  Whatever dict of assets a [Portfolio] is constructed with,
    [__post_init__] leaves in its three totals the sums of the assets' totals,
    in dict order, and in [average_risk_weight] the ratio of the summed
    risk-weighted assets to the summed exposure when that exposure is
    positive, and 0 otherwise: the division is never reached with a total
    exposure that is zero or negative. *)
Theorem X1_post_init_aggregates (portfolio_id : string)
    (assets : dict string Asset) (correlation_matrix : DataFrame) :
  let p := Portfolio.new portfolio_id assets correlation_matrix in
  Portfolio.total_exposure p
  == Qsum (map Asset.total_exposure (dict_values assets))
  /\ Portfolio.total_profit p
     == Qsum (map Asset.total_profit (dict_values assets))
  /\ Portfolio.total_risk_weighted_assets p
     == Qsum (map Asset.total_risk_weighted_assets (dict_values assets))
  /\ (0 < Portfolio.total_exposure p ->
      Portfolio.average_risk_weight p
      == Portfolio.total_risk_weighted_assets p / Portfolio.total_exposure p)
  /\ (Portfolio.total_exposure p <= 0 -> Portfolio.average_risk_weight p == 0)
  /\ Portfolio.assets p = assets
  /\ Portfolio.correlation_matrix p = correlation_matrix.
Proof.
  intros p. unfold p, Portfolio.new.
  set (p0 := Portfolio.mk portfolio_id assets correlation_matrix 0 0 0 0).
  destruct (post_init_fold_totals (dict_values assets) p0) as (H1 & H2 & H3).
  assert (Havg := post_init_fold_average (dict_values assets) p0
                    ltac:(reflexivity)).
  destruct (post_init_fold_fields (dict_values assets) p0) as (_ & Ha & Hc).
  split; [rewrite H1; simpl; ring|].
  split; [rewrite H2; simpl; ring|].
  split; [rewrite H3; simpl; ring|].
  split; [|split; [|split; assumption]].
  - intros Hpos. rewrite Havg. unfold ratio_or_zero.
    apply Qltb_lt in Hpos. rewrite Hpos. reflexivity.
  - intros Hle. rewrite Havg. unfold ratio_or_zero.
    apply Qltb_ge in Hle. rewrite Hle. reflexivity.
Qed.

(** *** [Asset.add_segment] *)

(** X2.  Starting from [Asset(asset_id)] and calling [add_segment] with
    segments of distinct identifiers, the asset holds exactly those segments
    in call order, keyed by their identifiers; the three totals are the sums
    over them; the average risk weight is the ratio of the totals when the
    total exposure is positive and 0 otherwise; the identifier, the bounds
    and the standard deviation stay as constructed. *)
Theorem X2_add_segment_from_fresh (asset_id : string) (segs : list Segment.t) :
  NoDup (map Segment.segment_id segs) ->
  let a := fold_left Asset.add_segment segs (fresh_asset asset_id) in
  dict_values (Asset.segments a) = segs
  /\ dict_keys (Asset.segments a) = map Segment.segment_id segs
  /\ Asset.total_exposure a == sum_exposure segs
  /\ Asset.total_profit a == sum_profit segs
  /\ Asset.total_risk_weighted_assets a == sum_risk_weighted segs
  /\ (0 < sum_exposure segs ->
      Asset.average_risk_weight a == sum_risk_weighted segs / sum_exposure segs)
  /\ (sum_exposure segs <= 0 -> Asset.average_risk_weight a == 0)
  /\ Asset.asset_id a = asset_id
  /\ has_default_bounds a.
Proof.
  intros Hnd a.
  destruct (add_segment_run_from_fresh asset_id segs Hnd)
    as (Hv & He & Hp & Hr & Havg).
  fold a in Hv, He, Hp, Hr, Havg.
  destruct (add_segment_run_fields segs (fresh_asset asset_id))
    as (Hid & Hmin & Hmax & Hsd).
  fold a in Hid, Hmin, Hmax, Hsd.
  split; [exact Hv|].
  split.
  { unfold a. rewrite add_segment_run_segments by exact Hnd. simpl.
    unfold dict_keys. rewrite map_map. reflexivity. }
  split; [exact He|]. split; [exact Hp|]. split; [exact Hr|].
  split; [|split; [|split; [exact Hid|]]].
  - intros Hpos. rewrite Havg, Hr, He. unfold ratio_or_zero.
    apply Qltb_lt in Hpos. rewrite Hpos. reflexivity.
  - intros Hle. rewrite Havg, Hr, He. unfold ratio_or_zero.
    apply Qltb_ge in Hle. rewrite Hle. reflexivity.
  - unfold has_default_bounds. rewrite Hmin, Hmax, Hsd. auto.
Qed.

Lemma X2_add_segment_from_fresh_witness :
  NoDup (map Segment.segment_id Examples.segments3)
  /\ let a := fold_left Asset.add_segment Examples.segments3 (fresh_asset "A") in
     dict_values (Asset.segments a) = Examples.segments3
     /\ dict_keys (Asset.segments a)
        = map Segment.segment_id Examples.segments3
     /\ Asset.total_exposure a == sum_exposure Examples.segments3
     /\ Asset.total_profit a == sum_profit Examples.segments3
     /\ Asset.total_risk_weighted_assets a
        == sum_risk_weighted Examples.segments3
     /\ (0 < sum_exposure Examples.segments3 ->
         Asset.average_risk_weight a
         == sum_risk_weighted Examples.segments3
            / sum_exposure Examples.segments3)
     /\ (sum_exposure Examples.segments3 <= 0 ->
         Asset.average_risk_weight a == 0)
     /\ Asset.asset_id a = "A"%string
     /\ has_default_bounds a.
Proof.
  assert (Hnd : NoDup (map Segment.segment_id Examples.segments3)).
  { by_computation. }
  split; [exact Hnd|].
  exact (X2_add_segment_from_fresh "A" Examples.segments3 Hnd).
Defined.

(** X3.  [add_segment] with a segment whose identifier the asset already
    holds overwrites the dict entry in place (no new key) but still adds the
    new segment's amounts to the totals, so the replaced segment stays
    counted: on a consistent asset each total then exceeds the sum over the
    segments held by the amount of the replaced segment. *)
Theorem X3_add_segment_same_identifier (a : Asset) (s s0 : Segment.t) :
  asset_consistent a ->
  dict_get (Segment.segment_id s) (Asset.segments a) = Some s0 ->
  let a' := Asset.add_segment a s in
  let segs' := dict_values (Asset.segments a') in
  dict_keys (Asset.segments a') = dict_keys (Asset.segments a)
  /\ dict_get (Segment.segment_id s) (Asset.segments a') = Some s
  /\ Asset.total_exposure a' == sum_exposure segs' + Segment.exposure s0
  /\ Asset.total_profit a'
     == sum_profit segs' + Segment.exposure s0 * Segment.profitability s0
  /\ Asset.total_risk_weighted_assets a'
     == sum_risk_weighted segs' + Segment.exposure s0 * Segment.risk_weight s0.
Proof.
  intros (He & Hp & Hr & _) Hget a' segs'.
  split.
  { unfold a'. simpl. apply dict_keys_set_present. rewrite Hget. eauto. }
  split.
  { unfold a'. simpl. apply dict_get_set_eq. }
  unfold segs', a', sum_exposure, sum_profit, sum_risk_weighted. simpl.
  rewrite !(Qsum_values_set_present _ _ _ _ _ Hget).
  unfold sum_exposure, sum_profit, sum_risk_weighted in He, Hp, Hr.
  rewrite He, Hp, Hr. repeat split; ring.
Qed.

Lemma X3_add_segment_same_identifier_witness :
  asset_consistent Examples.asset3
  /\ dict_get (Segment.segment_id Examples.segment_again)
              (Asset.segments Examples.asset3)
     = Some Examples.segment_first
  /\ let a' := Asset.add_segment Examples.asset3 Examples.segment_again in
     let segs' := dict_values (Asset.segments a') in
     dict_keys (Asset.segments a') = dict_keys (Asset.segments Examples.asset3)
     /\ dict_get (Segment.segment_id Examples.segment_again) (Asset.segments a')
        = Some Examples.segment_again
     /\ Asset.total_exposure a'
        == sum_exposure segs' + Segment.exposure Examples.segment_first
     /\ Asset.total_profit a'
        == sum_profit segs'
           + Segment.exposure Examples.segment_first
             * Segment.profitability Examples.segment_first
     /\ Asset.total_risk_weighted_assets a'
        == sum_risk_weighted segs'
           + Segment.exposure Examples.segment_first
             * Segment.risk_weight Examples.segment_first.
Proof.
  assert (Hc : asset_consistent Examples.asset3).
  { vm_compute. repeat split; intros; discriminate. }
  assert (Hg : dict_get (Segment.segment_id Examples.segment_again)
                        (Asset.segments Examples.asset3)
               = Some Examples.segment_first) by reflexivity.
  split; [exact Hc|]. split; [exact Hg|].
  exact (X3_add_segment_same_identifier Examples.asset3 Examples.segment_again
           Examples.segment_first Hc Hg).
Defined.

(** *** [from_csv]: what each loop leaves under a key *)

Lemma from_csv_segment_step_get (acc : dict string Asset)
    (r : string * SegmentRow) (aid : string) :
  dict_get aid (from_csv_segment_step acc r)
  = if decide (row_asset (snd r) = aid)
    then built_from aid (dict_get aid acc) [r]
    else dict_get aid acc.
Proof.
  destruct r as [sid row]. unfold from_csv_segment_step, built_from, segment_of_row.
  simpl. destruct (decide (row_asset row = aid)) as [<-|Hne].
  - destruct (dict_get (row_asset row) acc); apply dict_get_set_eq.
  - destruct (dict_get (row_asset row) acc);
      [rewrite dict_get_set_ne by exact Hne|rewrite dict_get_set_ne by exact Hne];
      reflexivity.
Qed.

Lemma built_from_nil (aid : string) (a0 : option Asset) :
  built_from aid a0 [] = a0.
Proof. destruct a0; reflexivity. Qed.

Lemma built_from_cons (aid : string) (a0 : option Asset)
    (r : string * SegmentRow) (rs : list (string * SegmentRow)) :
  built_from aid a0 (r :: rs) = built_from aid (built_from aid a0 [r]) rs.
Proof. destruct a0; reflexivity. Qed.

Lemma from_csv_segment_loop_get (rows : list (string * SegmentRow))
    (acc : dict string Asset) (aid : string) :
  dict_get aid (fold_left from_csv_segment_step rows acc)
  = built_from aid (dict_get aid acc) (rows_of_asset aid rows).
Proof.
  revert acc. induction rows as [|r rows IH]; intros acc; simpl.
  - symmetry. apply built_from_nil.
  - rewrite IH, from_csv_segment_step_get. unfold rows_of_asset.
    rewrite filter_cons.
    destruct (decide (row_asset (snd r) = aid)); [|reflexivity].
    symmetry. apply built_from_cons.
Qed.

Lemma from_csv_asset_step_get (acc : dict string Asset) (r : string * AssetRow)
    (aid : string) :
  dict_get aid (from_csv_asset_step acc r)
  = if decide (fst r = aid)
    then option_map (with_asset_row (snd r)) (dict_get aid acc)
    else dict_get aid acc.
Proof.
  destruct r as [k row]. unfold from_csv_asset_step, with_asset_row. simpl.
  destruct (decide (k = aid)) as [<-|Hne].
  - destruct (dict_get k acc) eqn:Hk; [apply dict_get_set_eq|].
    rewrite Hk. reflexivity.
  - destruct (dict_get k acc); [|reflexivity].
    apply dict_get_set_ne. exact Hne.
Qed.

Lemma from_csv_asset_loop_get (arows : list (string * AssetRow))
    (acc : dict string Asset) (aid : string) :
  dict_get aid (fold_left from_csv_asset_step arows acc)
  = option_map
      (fun a =>
         fold_left (fun a (r : string * AssetRow) => with_asset_row (snd r) a)
                   (filter (fun r : string * AssetRow => fst r = aid) arows) a)
      (dict_get aid acc).
Proof.
  revert acc. induction arows as [|r arows IH]; intros acc; simpl.
  - destruct (dict_get aid acc); reflexivity.
  - rewrite IH, from_csv_asset_step_get, filter_cons.
    destruct (decide (fst r = aid)); [|reflexivity].
    destruct (dict_get aid acc); reflexivity.
Qed.

(** The second loop keeps everything but the bounds and the deviation. *)
Lemma with_asset_rows_fields (rs : list (string * AssetRow)) (a : Asset) :
  let a' := fold_left (fun a (r : string * AssetRow) => with_asset_row (snd r) a)
                      rs a in
  Asset.asset_id a' = Asset.asset_id a
  /\ Asset.segments a' = Asset.segments a
  /\ Asset.total_exposure a' = Asset.total_exposure a
  /\ Asset.total_profit a' = Asset.total_profit a
  /\ Asset.total_risk_weighted_assets a' = Asset.total_risk_weighted_assets a
  /\ Asset.average_risk_weight a' = Asset.average_risk_weight a.
Proof.
  revert a. induction rs as [|r rs IH]; intros a; simpl.
  - repeat split.
  - destruct (IH (with_asset_row (snd r) a)) as (H1 & H2 & H3 & H4 & H5 & H6).
    simpl in *. rewrite H1, H2, H3, H4, H5, H6. repeat split.
Qed.

Lemma from_csv_asset_loop_keys (arows : list (string * AssetRow))
    (acc : dict string Asset) :
  dict_keys (fold_left from_csv_asset_step arows acc) = dict_keys acc.
Proof.
  revert acc. induction arows as [|[k row] arows IH]; intros acc; simpl.
  - reflexivity.
  - rewrite IH. unfold from_csv_asset_step.
    destruct (dict_get k acc) eqn:Hk; [|reflexivity].
    apply dict_keys_set_present. rewrite Hk. eauto.
Qed.

(** *** [from_csv]: the keys of [assets] *)

Lemma filter_filter_not_in (l acc : list string) (x : string) :
  filter (fun k => k ∉ acc ++ [x]) l
  = filter (fun k => k ∉ acc) (filter (fun y => y <> x) l).
Proof.
  induction l as [|y l IH]; [reflexivity|].
  rewrite !filter_cons.
  destruct (decide (y ∉ acc ++ [x])) as [Hy|Hy].
  - destruct (decide (y <> x)) as [Hyx|Hyx].
    + rewrite filter_cons. destruct (decide (y ∉ acc)) as [Hya|Hya].
      * rewrite IH. reflexivity.
      * exfalso. apply Hya. intros Hin. apply Hy, elem_of_app. now left.
    + exfalso. apply Hyx. intros ->. apply Hy, elem_of_app. right. constructor.
  - destruct (decide (y <> x)) as [Hyx|Hyx]; [|exact IH].
    rewrite filter_cons. destruct (decide (y ∉ acc)) as [Hya|Hya]; [|exact IH].
    exfalso. apply Hy. intros Hin. apply elem_of_app in Hin as [Hin|Hin].
    + exact (Hya Hin).
    + apply list_elem_of_singleton in Hin. exact (Hyx Hin).
Qed.

Lemma filter_not_in_absorb (l acc : list string) (x : string) :
  x ∈ acc ->
  filter (fun k => k ∉ acc) (filter (fun y => y <> x) l)
  = filter (fun k => k ∉ acc) l.
Proof.
  intros Hx. induction l as [|y l IH]; [reflexivity|].
  rewrite !filter_cons.
  destruct (decide (y <> x)) as [Hyx|Hyx].
  - rewrite filter_cons, IH. reflexivity.
  - destruct (decide (y ∉ acc)) as [Hya|Hya]; [|exact IH].
    exfalso. apply Hya. apply dec_stable in Hyx. subst y. exact Hx.
Qed.

Lemma from_csv_segment_step_keys (acc : dict string Asset)
    (r : string * SegmentRow) :
  dict_keys (from_csv_segment_step acc r)
  = if decide (row_asset (snd r) ∈ dict_keys acc)
    then dict_keys acc
    else dict_keys acc ++ [row_asset (snd r)].
Proof.
  destruct r as [sid row]. unfold from_csv_segment_step. simpl.
  destruct (dict_get (row_asset row) acc) as [a|] eqn:Ha.
  - rewrite dict_keys_set_present by (rewrite Ha; eauto).
    destruct (decide (row_asset row ∈ dict_keys acc)) as [|Hn]; [reflexivity|].
    apply dict_get_None in Hn. congruence.
  - rewrite (dict_keys_set_new _ _ _ Ha).
    destruct (decide (row_asset row ∈ dict_keys acc)) as [Hin|]; [|reflexivity].
    apply dict_get_None in Ha. contradiction.
Qed.

Lemma from_csv_segment_loop_keys (rows : list (string * SegmentRow))
    (acc : dict string Asset) :
  dict_keys (fold_left from_csv_segment_step rows acc)
  = dict_keys acc
    ++ filter (fun k => k ∉ dict_keys acc) (first_occurrences (asset_column rows)).
Proof.
  revert acc. induction rows as [|r rows IH]; intros acc; simpl.
  - rewrite app_nil_r. reflexivity.
  - rewrite IH, from_csv_segment_step_keys, filter_cons.
    destruct (decide (row_asset (snd r) ∈ dict_keys acc)) as [Hin|Hn].
    + destruct (decide (row_asset (snd r) ∉ dict_keys acc)) as [Hn|_];
        [contradiction|].
      rewrite filter_not_in_absorb by exact Hin. reflexivity.
    + destruct (decide (row_asset (snd r) ∉ dict_keys acc)) as [_|Hnn];
        [|contradiction].
      rewrite <- app_assoc. simpl. rewrite filter_filter_not_in. reflexivity.
Qed.

Lemma filter_not_in_nil (l : list string) : filter (fun k => k ∉ []) l = l.
Proof.
  induction l as [|x l IH]; [reflexivity|].
  rewrite filter_cons. destruct (decide (x ∉ [])) as [_|Hn].
  - rewrite IH. reflexivity.
  - exfalso. apply Hn. intros Hin. inversion Hin.
Qed.

Lemma first_occurrences_elem (l : list string) (x : string) :
  x ∈ first_occurrences l <-> x ∈ l.
Proof.
  induction l as [|y l IH]; simpl; [reflexivity|].
  rewrite !elem_of_cons, list_elem_of_filter, IH.
  destruct (decide (x = y)); tauto.
Qed.

Lemma first_occurrences_NoDup (l : list string) : NoDup (first_occurrences l).
Proof.
  induction l as [|y l IH]; simpl; constructor.
  - rewrite list_elem_of_filter. tauto.
  - apply NoDup_filter, IH.
Qed.

Lemma rows_of_asset_nil (aid : string) (rows : list (string * SegmentRow)) :
  rows_of_asset aid rows = [] <-> aid ∉ asset_column rows.
Proof.
  unfold rows_of_asset, asset_column.
  induction rows as [|r rows IH]; simpl.
  - split; [intros _ Hin; inversion Hin|reflexivity].
  - rewrite filter_cons, not_elem_of_cons.
    destruct (decide (row_asset (snd r) = aid)) as [Heq|Hne].
    + split; [discriminate|]. intros [Hn _]. congruence.
    + rewrite IH. split; [intros H; split; [congruence|exact H]|tauto].
Qed.

Lemma from_csv_keys (self : InstanceManager)
    (df_segments : list (string * SegmentRow))
    (df_assets : list (string * AssetRow)) (df_correlation_matrix : DataFrame)
    (p : Portfolio) :
  from_csv self df_segments df_assets df_correlation_matrix = Ok p ->
  dict_keys (Portfolio.assets p) = first_occurrences (asset_column df_segments)
  /\ NoDup (dict_keys (Portfolio.assets p)).
Proof.
  intros [= <-]. rewrite Portfolio_new_assets.
  assert (Hkeys : dict_keys
            (fold_left from_csv_asset_step df_assets
               (fold_left from_csv_segment_step df_segments []))
          = first_occurrences (asset_column df_segments)).
  { rewrite from_csv_asset_loop_keys, from_csv_segment_loop_keys. simpl.
    apply filter_not_in_nil. }
  split; [exact Hkeys|]. rewrite Hkeys. apply first_occurrences_NoDup.
Qed.

(** X4.  [from_csv] always returns, and creates one asset per distinct value
    of the [asset] column of the segments table, in order of first
    appearance, whatever the assets table holds: the assets table adds no
    asset and removes none, and an identifier that no segment row names is
    not a key of [assets]. *)
Theorem X4_from_csv_asset_keys (self : InstanceManager)
    (df_segments : list (string * SegmentRow))
    (df_assets : list (string * AssetRow)) (df_correlation_matrix : DataFrame) :
  exists p,
    from_csv self df_segments df_assets df_correlation_matrix = Ok p
    /\ dict_keys (Portfolio.assets p)
       = first_occurrences (asset_column df_segments)
    /\ NoDup (dict_keys (Portfolio.assets p))
    /\ (forall aid,
          dict_get aid (Portfolio.assets p) = None
          <-> aid ∉ asset_column df_segments)
    /\ Portfolio.portfolio_id p
       = (instance_name self ++ "_input_portfolio")%string.
Proof.
  destruct (from_csv_keys self df_segments df_assets df_correlation_matrix _
              eq_refl) as (Hkeys & Hnd).
  eexists. split; [reflexivity|].
  split; [exact Hkeys|]. split; [exact Hnd|].
  split.
  - intros aid. rewrite dict_get_None, Hkeys, first_occurrences_elem.
    reflexivity.
  - unfold Portfolio.new.
    apply (post_init_fold_fields (A := dict string Asset) (D := DataFrame)).
Qed.
(** *** [from_csv]: the asset under a key *)

Lemma from_csv_get (self : InstanceManager)
    (df_segments : list (string * SegmentRow))
    (df_assets : list (string * AssetRow)) (df_correlation_matrix : DataFrame)
    (p : Portfolio) (aid : string) :
  from_csv self df_segments df_assets df_correlation_matrix = Ok p ->
  dict_get aid (Portfolio.assets p)
  = option_map
      (fun a =>
         fold_left (fun a (r : string * AssetRow) => with_asset_row (snd r) a)
                   (filter (fun r : string * AssetRow => fst r = aid) df_assets) a)
      (built_from aid None (rows_of_asset aid df_segments)).
Proof.
  intros [= <-]. rewrite Portfolio_new_assets, from_csv_asset_loop_get,
    from_csv_segment_loop_get. reflexivity.
Qed.

Lemma segment_of_row_sums (rs : list (string * SegmentRow)) :
  sum_exposure (map segment_of_row rs)
  = Qsum (map (fun r : string * SegmentRow => row_exposure (snd r)) rs)
  /\ sum_profit (map segment_of_row rs)
     = Qsum (map (fun r : string * SegmentRow =>
                    row_exposure (snd r) * row_average_profitability (snd r)) rs)
  /\ sum_risk_weighted (map segment_of_row rs)
     = Qsum (map (fun r : string * SegmentRow =>
                    row_exposure (snd r) * row_risk_weight (snd r)) rs).
Proof.
  unfold sum_exposure, sum_profit, sum_risk_weighted.
  rewrite !map_map. repeat split.
Qed.

(** X5.  Without any assumption on the tables: the asset [from_csv] stores
    for an identifier that segment rows name carries that identifier, and its
    three totals are the sums of exposure, exposure times profitability and
    exposure times risk weight over the rows naming it, duplicated segment
    identifiers included.  With one such row its average risk weight is the
    row's risk weight; with more it is the ratio of the totals when the total
    exposure is positive and 0 otherwise. *)
Theorem X5_from_csv_asset_totals (self : InstanceManager)
    (df_segments : list (string * SegmentRow))
    (df_assets : list (string * AssetRow)) (df_correlation_matrix : DataFrame)
    (aid : string) (r : string * SegmentRow) (rs : list (string * SegmentRow)) :
  rows_of_asset aid df_segments = r :: rs ->
  exists p a,
    from_csv self df_segments df_assets df_correlation_matrix = Ok p
    /\ dict_get aid (Portfolio.assets p) = Some a
    /\ Asset.asset_id a = aid
    /\ Asset.total_exposure a
       == Qsum (map (fun r : string * SegmentRow => row_exposure (snd r)) (r :: rs))
    /\ Asset.total_profit a
       == Qsum (map (fun r : string * SegmentRow =>
                       row_exposure (snd r) * row_average_profitability (snd r))
                    (r :: rs))
    /\ Asset.total_risk_weighted_assets a
       == Qsum (map (fun r : string * SegmentRow =>
                       row_exposure (snd r) * row_risk_weight (snd r))
                    (r :: rs))
    /\ (rs = [] -> Asset.average_risk_weight a = row_risk_weight (snd r))
    /\ (rs <> [] -> 0 < Asset.total_exposure a ->
        Asset.average_risk_weight a
        == Asset.total_risk_weighted_assets a / Asset.total_exposure a)
    /\ (rs <> [] -> Asset.total_exposure a <= 0 ->
        Asset.average_risk_weight a == 0).
Proof.
  intros Hrows.
  set (a0 := asset_of_first_segment aid (segment_of_row r)
               Asset.default_min_rel_exposure Asset.default_max_rel_exposure).
  set (a1 := fold_left Asset.add_segment (map segment_of_row rs) a0).
  set (a := fold_left (fun a (r : string * AssetRow) => with_asset_row (snd r) a)
              (filter (fun r : string * AssetRow => fst r = aid) df_assets) a1).
  exists (Portfolio.new (instance_name self ++ "_input_portfolio")%string
            (fold_left from_csv_asset_step df_assets
               (fold_left from_csv_segment_step df_segments []))
            df_correlation_matrix), a.
  split; [reflexivity|].
  split.
  { rewrite (from_csv_get self df_segments df_assets df_correlation_matrix _ aid
               eq_refl), Hrows. reflexivity. }
  destruct (with_asset_rows_fields
              (filter (fun r : string * AssetRow => fst r = aid) df_assets) a1)
    as (Hid & _ & He & Hp & Hr & Havg).
  fold a in Hid, He, Hp, Hr, Havg.
  destruct (add_segment_run_fields (map segment_of_row rs) a0) as (Hid1 & _).
  destruct (add_segment_run_totals (map segment_of_row rs) a0) as (He1 & Hp1 & Hr1).
  fold a1 in Hid1, He1, Hp1, Hr1.
  destruct (segment_of_row_sums rs) as (Hs1 & Hs2 & Hs3).
  rewrite Hs1 in He1. rewrite Hs2 in Hp1. rewrite Hs3 in Hr1.
  assert (Havg1 : rs <> [] ->
            Asset.average_risk_weight a
            = ratio_or_zero (Asset.total_risk_weighted_assets a)
                            (Asset.total_exposure a)).
  { intros Hne. rewrite Havg, Hr, He. unfold a1.
    apply add_segment_run_average. destruct rs; [contradiction|discriminate]. }
  split; [rewrite Hid, Hid1; reflexivity|].
  split; [rewrite He, He1; simpl; rewrite Qsum_cons; reflexivity|].
  split; [rewrite Hp, Hp1; simpl; rewrite Qsum_cons; reflexivity|].
  split; [rewrite Hr, Hr1; simpl; rewrite Qsum_cons; reflexivity|].
  split; [|split].
  - intros ->. rewrite Havg. reflexivity.
  - intros Hne Hpos. rewrite (Havg1 Hne). unfold ratio_or_zero.
    apply Qltb_lt in Hpos. rewrite Hpos. reflexivity.
  - intros Hne Hle. rewrite (Havg1 Hne). unfold ratio_or_zero.
    apply Qltb_ge in Hle. rewrite Hle. reflexivity.
Qed.

Lemma X5_from_csv_asset_totals_witness :
  rows_of_asset "A1" Examples.rows4 = [Examples.row_s1; Examples.row_s3]
  /\ exists p a,
       from_csv Examples.manager Examples.rows4 Examples.arows2 Examples.corr2
       = Ok p
       /\ dict_get "A1"%string (Portfolio.assets p) = Some a
       /\ Asset.total_exposure a == 1600
       /\ Asset.total_profit a == 68
       /\ Asset.total_risk_weighted_assets a == 420
       /\ Asset.average_risk_weight a == 420 / 1600.
Proof.
  assert (Hrows : rows_of_asset "A1" Examples.rows4
                  = [Examples.row_s1; Examples.row_s3])
    by (vm_compute; reflexivity).
  split; [exact Hrows|].
  destruct (X5_from_csv_asset_totals Examples.manager Examples.rows4
              Examples.arows2 Examples.corr2 "A1" Examples.row_s1
              [Examples.row_s3] Hrows)
    as (p & a & Hp & Ha & _ & He & Hpr & Hr & _ & Havg & _).
  exists p, a. split; [exact Hp|]. split; [exact Ha|].
  split; [rewrite He; vm_compute; reflexivity|].
  split; [rewrite Hpr; vm_compute; reflexivity|].
  split; [rewrite Hr; vm_compute; reflexivity|].
  rewrite Havg.
  - rewrite Hr, He. vm_compute. reflexivity.
  - discriminate.
  - rewrite He. vm_compute. reflexivity.
Defined.
(** *** [from_csv]: the segments of an asset *)

Lemma segment_ids_of_rows (rs : list (string * SegmentRow)) :
  map Segment.segment_id (map segment_of_row rs) = map fst rs.
Proof. rewrite map_map. reflexivity. Qed.

Lemma built_from_segments (aid : string) (rs : list (string * SegmentRow))
    (a : Asset) :
  NoDup (map fst rs) ->
  built_from aid None rs = Some a ->
  Asset.segments a
  = map (fun r : string * SegmentRow => (fst r, segment_of_row r)) rs
  /\ asset_consistent a
  /\ Asset.asset_id a = aid
  /\ rs <> [].
Proof.
  intros Hnd Hb. destruct rs as [|r rs]; [discriminate|].
  simpl in Hb. injection Hb as <-.
  destruct (built_asset_spec aid (segment_of_row r) (map segment_of_row rs)
              Asset.default_min_rel_exposure Asset.default_max_rel_exposure)
    as (Hs & Hc & Hid & _).
  { change (NoDup (map Segment.segment_id (map segment_of_row (r :: rs)))).
    rewrite segment_ids_of_rows. exact Hnd. }
  split; [|split; [exact Hc|split; [exact Hid|discriminate]]].
  rewrite Hs. change (segment_of_row r :: map segment_of_row rs)
    with (map segment_of_row (r :: rs)).
  rewrite map_map. reflexivity.
Qed.

Lemma rows_of_asset_asset (aid : string) (rows : list (string * SegmentRow)) :
  Forall (fun r : string * SegmentRow => row_asset (snd r) = aid)
         (rows_of_asset aid rows).
Proof.
  apply Forall_forall. intros r Hr. unfold rows_of_asset in Hr.
  apply list_elem_of_filter in Hr as [Hr _]. exact Hr.
Qed.

(** X6.  When the segment rows naming an asset have distinct identifiers,
    the [segments] dict of the asset [from_csv] stores for it holds exactly
    those rows, in table order, each under its identifier and with the cost
    columns defaulted to 0 where absent; the [asset] field of every segment
    is the asset's key. *)
Theorem X6_from_csv_segments_of_asset (self : InstanceManager)
    (df_segments : list (string * SegmentRow))
    (df_assets : list (string * AssetRow)) (df_correlation_matrix : DataFrame)
    (p : Portfolio) (aid : string) (a : Asset) :
  NoDup (map fst (rows_of_asset aid df_segments)) ->
  from_csv self df_segments df_assets df_correlation_matrix = Ok p ->
  dict_get aid (Portfolio.assets p) = Some a ->
  Asset.segments a
  = map (fun r : string * SegmentRow => (fst r, segment_of_row r))
        (rows_of_asset aid df_segments)
  /\ Asset.segments a <> []
  /\ Forall (fun s => Segment.asset s = aid) (dict_values (Asset.segments a)).
Proof.
  intros Hnd Hp Ha.
  rewrite (from_csv_get _ _ _ _ _ aid Hp) in Ha.
  destruct (built_from aid None (rows_of_asset aid df_segments)) as [a1|] eqn:Hb;
    [|discriminate].
  simpl in Ha. injection Ha as <-.
  destruct (with_asset_rows_fields
              (filter (fun r : string * AssetRow => fst r = aid) df_assets) a1)
    as (_ & Hs & _).
  destruct (built_from_segments aid _ a1 Hnd Hb) as (Hs1 & _ & _ & Hne).
  rewrite Hs, Hs1. split; [reflexivity|]. split.
  - destruct (rows_of_asset aid df_segments); [contradiction|discriminate].
  - unfold dict_values. rewrite map_map. simpl.
    apply Forall_forall. intros s Hs'.
    apply elem_of_map in Hs' as (r & -> & Hr).
    pose proof (rows_of_asset_asset aid df_segments) as Hall.
    rewrite Forall_forall in Hall. exact (Hall r Hr).
Qed.

Lemma X6_from_csv_segments_of_asset_witness :
  NoDup (map fst (rows_of_asset "A1" Examples.rows4))
  /\ from_csv Examples.manager Examples.rows4 Examples.arows2 Examples.corr2
     = Ok Examples.portfolio4
  /\ exists a,
       dict_get "A1"%string (Portfolio.assets Examples.portfolio4) = Some a
       /\ Asset.segments a
          = [("s1"%string, segment_of_row Examples.row_s1);
             ("s3"%string, segment_of_row Examples.row_s3)].
Proof.
  assert (Hnd : NoDup (map fst (rows_of_asset "A1" Examples.rows4)))
    by by_computation.
  assert (Hp : from_csv Examples.manager Examples.rows4 Examples.arows2
                 Examples.corr2 = Ok Examples.portfolio4)
    by (vm_compute; reflexivity).
  split; [exact Hnd|]. split; [exact Hp|].
  eexists. split; [vm_compute; reflexivity|].
  refine (proj1 (X6_from_csv_segments_of_asset _ _ _ _ _ "A1" _ Hnd Hp _)).
  vm_compute. reflexivity.
Defined.

(** *** [from_csv]: the second loop *)

Lemma with_asset_rows_last (rs : list (string * AssetRow))
    (r : string * AssetRow) (a : Asset) :
  fold_left (fun a (r : string * AssetRow) => with_asset_row (snd r) a)
            (rs ++ [r]) a
  = with_asset_row (snd r)
      (fold_left (fun a (r : string * AssetRow) => with_asset_row (snd r) a) rs a).
Proof. rewrite fold_left_app. reflexivity. Qed.

Lemma filter_key_absent {V : Type} (aid : string) (l : list (string * V)) :
  aid ∉ map fst l -> filter (fun r : string * V => fst r = aid) l = [].
Proof.
  induction l as [|r l IH]; intros Hn; [reflexivity|].
  simpl in Hn. apply not_elem_of_cons in Hn as [Hne Hn].
  rewrite filter_cons. destruct (decide (fst r = aid)); [congruence|].
  apply IH, Hn.
Qed.

(** X7.  For an asset that has segment rows, the last row of the assets
    table labelled with its identifier sets the bounds and the deviation:
    [min_rel_exposure = 1 - max_exposure_decrease],
    [max_rel_exposure = 1 + max_exposure_increase], and [profit_stdev] is the
    [stdev_profitability] column, 0 when the table has no such column.  The
    identifier, the segments and the four aggregates are those the first loop
    built. *)
Theorem X7_from_csv_asset_row (self : InstanceManager)
    (df_segments : list (string * SegmentRow))
    (df_assets before after : list (string * AssetRow))
    (df_correlation_matrix : DataFrame) (p : Portfolio) (aid : string)
    (row : AssetRow) (a : Asset) :
  df_assets = before ++ (aid, row) :: after ->
  aid ∉ map fst after ->
  from_csv self df_segments df_assets df_correlation_matrix = Ok p ->
  dict_get aid (Portfolio.assets p) = Some a ->
  Asset.min_rel_exposure a = 1 - row_max_exposure_decrease row
  /\ Asset.max_rel_exposure a = 1 + row_max_exposure_increase row
  /\ Asset.profit_stdev a
     = match row_stdev_profitability row with Some sd => sd | None => 0 end
  /\ exists p0 a0,
       from_csv self df_segments [] df_correlation_matrix = Ok p0
       /\ dict_get aid (Portfolio.assets p0) = Some a0
       /\ Asset.asset_id a = Asset.asset_id a0
       /\ Asset.segments a = Asset.segments a0
       /\ Asset.total_exposure a = Asset.total_exposure a0
       /\ Asset.total_profit a = Asset.total_profit a0
       /\ Asset.total_risk_weighted_assets a = Asset.total_risk_weighted_assets a0
       /\ Asset.average_risk_weight a = Asset.average_risk_weight a0.
Proof.
  intros -> Hafter Hp Ha.
  rewrite (from_csv_get _ _ _ _ _ aid Hp) in Ha.
  destruct (built_from aid None (rows_of_asset aid df_segments)) as [a1|] eqn:Hb;
    [|discriminate].
  simpl in Ha. injection Ha as <-.
  rewrite filter_app, filter_cons.
  destruct (decide (fst (aid, row) = aid)) as [_|Hne]; [|contradiction].
  rewrite (filter_key_absent aid after Hafter).
  rewrite with_asset_rows_last. simpl.
  split; [reflexivity|]. split; [reflexivity|]. split; [reflexivity|].
  eexists _, a1. split; [reflexivity|].
  split.
  { rewrite (from_csv_get self df_segments [] df_correlation_matrix _ aid eq_refl),
      Hb. reflexivity. }
  destruct (with_asset_rows_fields
              (filter (fun r : string * AssetRow => fst r = aid) before) a1)
    as (H1 & H2 & H3 & H4 & H5 & H6).
  repeat split; assumption.
Qed.

Lemma X7_from_csv_asset_row_witness :
  exists a,
    dict_get "A1"%string (Portfolio.assets Examples.portfolio4) = Some a
    /\ Asset.min_rel_exposure a = 1 - (2 # 10)
    /\ Asset.max_rel_exposure a = 1 + (2 # 10)
    /\ Asset.profit_stdev a = 1 # 10.
Proof.
  eexists. split; [vm_compute; reflexivity|].
  destruct (X7_from_csv_asset_row Examples.manager Examples.rows4
              Examples.arows2 [] (tl Examples.arows2) Examples.corr2
              Examples.portfolio4 "A1"
              {| row_max_exposure_decrease := 2 # 10;
                 row_max_exposure_increase := 2 # 10;
                 row_stdev_profitability := Some (1 # 10) |} _
              eq_refl ltac:(by_computation) ltac:(vm_compute; reflexivity)
              ltac:(vm_compute; reflexivity))
    as (H1 & H2 & H3 & _).
  split; [exact H1|]. split; [exact H2|exact H3].
Defined.
(** *** [from_csv]: invariants of the portfolio built *)

(** X8.  From a segments table with distinct segment identifiers [from_csv]
    builds a portfolio in which every dict key is the identifier of the
    object stored under it and occurs once, every asset holds at least one
    segment, the three totals of every asset are the sums over its segments,
    and the aggregates of the portfolio are the sums over its assets and
    their ratio.  The average risk weight of an asset with a single segment
    is that segment's risk weight; an asset's average is the ratio of its
    totals (0 when the total exposure is not positive) in every case but
    one: a single segment whose exposure is not positive and whose risk
    weight is not 0. *)
Theorem X8_from_csv_invariants (self : InstanceManager)
    (df_segments : list (string * SegmentRow))
    (df_assets : list (string * AssetRow)) (df_correlation_matrix : DataFrame)
    (p : Portfolio) :
  NoDup (map fst df_segments) ->
  from_csv self df_segments df_assets df_correlation_matrix = Ok p ->
  portfolio_wf p
  /\ portfolio_totals_agree p
  /\ Forall (fun a : Asset => Asset.segments a <> [])
            (dict_values (Portfolio.assets p))
  /\ Forall (fun a : Asset =>
               (forall s, dict_values (Asset.segments a) = [s] ->
                          Asset.average_risk_weight a == Segment.risk_weight s)
               /\ (asset_average_agrees a <-> ~ lone_idle_segment a))
            (dict_values (Portfolio.assets p)).
Proof.
  intros Hnd [= <-].
  assert (Hinv : built_so_far []
                   (fold_left from_csv_asset_step df_assets
                      (fold_left from_csv_segment_step df_segments []))).
  { apply from_csv_asset_loop_inv, from_csv_segment_loop_inv; [exact Hnd|].
    split; constructor. }
  destruct Hinv as [Hkeys Hall]. rewrite Forall_forall in Hall.
  split; [|split; [|split]].
  - unfold portfolio_wf. rewrite Portfolio_new_assets. split; [exact Hkeys|].
    apply Forall_forall. intros ka Hka. apply (Hall ka Hka).
  - apply portfolio_consistent_totals, Portfolio_new_consistent.
    unfold dict_values. apply Forall_forall. intros a Ha.
    apply elem_of_map in Ha as (ka & -> & Hin). apply (Hall ka Hin).
  - rewrite Portfolio_new_assets. unfold dict_values.
    apply Forall_forall. intros a Ha.
    apply elem_of_map in Ha as (ka & -> & Hin). apply (Hall ka Hin).
  - rewrite Portfolio_new_assets. unfold dict_values.
    apply Forall_forall. intros a Ha.
    apply elem_of_map in Ha as (ka & -> & Hin).
    destruct (Hall ka Hin) as (_ & Hc & _). split.
    + intros s Hs. exact (asset_consistent_lone _ s Hc Hs).
    + exact (asset_consistent_average _ Hc).
Qed.

Lemma X8_from_csv_invariants_witness :
  NoDup (map fst Examples.rows4)
  /\ portfolio_wf Examples.portfolio4
  /\ portfolio_totals_agree Examples.portfolio4
  /\ Forall (fun a : Asset => Asset.segments a <> [])
            (dict_values (Portfolio.assets Examples.portfolio4))
  /\ Forall (fun a : Asset =>
               (forall s, dict_values (Asset.segments a) = [s] ->
                          Asset.average_risk_weight a == Segment.risk_weight s)
               /\ (asset_average_agrees a <-> ~ lone_idle_segment a))
            (dict_values (Portfolio.assets Examples.portfolio4)).
Proof.
  assert (Hnd : NoDup (map fst Examples.rows4)) by by_computation.
  split; [exact Hnd|].
  apply (X8_from_csv_invariants Examples.manager Examples.rows4 Examples.arows2
           Examples.corr2 Examples.portfolio4 Hnd).
  vm_compute. reflexivity.
Defined.

(** *** [from_csv] then [to_tables] *)

Lemma flat_map_values_keys {V B : Type} (F : V -> list B) (G : string -> list B)
    (d : dict string V) :
  (forall k v, (k, v) ∈ d -> F v = G k) ->
  flat_map F (dict_values d) = flat_map G (dict_keys d).
Proof.
  induction d as [|[k v] d IH]; intros H; simpl; [reflexivity|].
  rewrite (H k v) by constructor. f_equal.
  apply IH. intros k' v' Hin. apply H. now constructor.
Qed.

Lemma map_flat_map {A B C : Type} (f : B -> C) (F : A -> list B) (l : list A) :
  flat_map (fun a => map f (F a)) l = map f (flat_map F l).
Proof.
  induction l as [|a l IH]; simpl; [reflexivity|].
  rewrite map_app, IH. reflexivity.
Qed.

Lemma rows_of_asset_cons (aid : string) (r : string * SegmentRow)
    (rows : list (string * SegmentRow)) :
  rows_of_asset aid (r :: rows)
  = (if decide (row_asset (snd r) = aid) then [r] else [])
    ++ rows_of_asset aid rows.
Proof.
  unfold rows_of_asset. rewrite filter_cons.
  destruct (decide (row_asset (snd r) = aid)); reflexivity.
Qed.

Lemma grouped_insert (r : string * SegmentRow) (rows : list (string * SegmentRow))
    (ks : list string) :
  NoDup ks ->
  flat_map (fun aid => rows_of_asset aid (r :: rows)) ks
  ≡ₚ (if decide (row_asset (snd r) ∈ ks) then [r] else [])
     ++ flat_map (fun aid => rows_of_asset aid rows) ks.
Proof.
  induction 1 as [|k ks Hk Hnd IH]; cbn [flat_map].
  - rewrite decide_False by (intros Hin; inversion Hin). reflexivity.
  - rewrite rows_of_asset_cons, IH.
    destruct (decide (row_asset (snd r) = k)) as [Heq|Hne].
    + rewrite (decide_True (P := row_asset (snd r) ∈ k :: ks))
        by (rewrite Heq; constructor).
      rewrite (decide_False (P := row_asset (snd r) ∈ ks))
        by (rewrite Heq; exact Hk).
      reflexivity.
    + destruct (decide (row_asset (snd r) ∈ ks)) as [Hin|Hn].
      * rewrite (decide_True (P := row_asset (snd r) ∈ k :: ks))
          by (now constructor).
        simpl. symmetry. apply Permutation_middle.
      * rewrite (decide_False (P := row_asset (snd r) ∈ k :: ks)); [reflexivity|].
        intros Hin. apply elem_of_cons in Hin as [?|?]; contradiction.
Qed.

Lemma grouped_permutation (rows : list (string * SegmentRow)) (ks : list string) :
  NoDup ks ->
  (forall k, k ∈ asset_column rows -> k ∈ ks) ->
  flat_map (fun aid => rows_of_asset aid rows) ks ≡ₚ rows.
Proof.
  intros Hnd. induction rows as [|r rows IH]; intros Hks.
  - clear. induction ks as [|k ks IH]; simpl; [reflexivity|exact IH].
  - rewrite (grouped_insert r rows ks Hnd).
    rewrite decide_True by (apply Hks; simpl; constructor). simpl.
    constructor. apply IH. intros k Hk. apply Hks. simpl. now constructor.
Qed.

(** Grouping by asset loses no row and repeats none. *)
Lemma grouped_by_asset_permutation (rows : list (string * SegmentRow)) :
  grouped_by_asset rows ≡ₚ rows.
Proof.
  apply grouped_permutation; [apply first_occurrences_NoDup|].
  intros k Hk. apply first_occurrences_elem, Hk.
Qed.

Lemma grouped_by_asset_nil (rows : list (string * SegmentRow)) :
  grouped_by_asset rows = [] <-> rows = [].
Proof.
  split.
  - intros Hnil. pose proof (grouped_by_asset_permutation rows) as Hperm.
    rewrite Hnil in Hperm. apply Permutation_nil_l in Hperm.
    symmetry. exact Hperm.
  - intros ->. reflexivity.
Qed.

(** X9.  When segment identifiers are distinct within each asset and the
    input table has a row, the segments table [to_tables] returns for the
    portfolio [from_csv] built is the input table grouped by asset: assets in
    order of first appearance, the rows of an asset in input order, every row
    with its input values and with absent cost columns as 0.  No input row is
    lost or repeated.  For an input table without rows [to_tables] raises
    the [KeyError] of [set_index]. *)
Theorem X9_from_csv_to_tables (self : InstanceManager)
    (df_segments : list (string * SegmentRow))
    (df_assets : list (string * AssetRow)) (df_correlation_matrix : DataFrame)
    (p : Portfolio) :
  (forall aid, NoDup (map fst (rows_of_asset aid df_segments))) ->
  from_csv self df_segments df_assets df_correlation_matrix = Ok p ->
  (df_segments <> [] ->
   exists tables,
     to_tables p = Ok tables
     /\ fst tables = map table_row_of (grouped_by_asset df_segments)
     /\ fst tables ≡ₚ map table_row_of df_segments)
  /\ (df_segments = [] -> to_tables p = Raise (KeyError_column "segment_id")).
Proof.
  intros Hnd Hp.
  assert (Heq : segments_data p
                = map table_row_of (grouped_by_asset df_segments)).
  { destruct (from_csv_keys self df_segments df_assets df_correlation_matrix p Hp)
      as (Hkeys & Hndk).
    unfold segments_data, grouped_by_asset.
    rewrite <- map_flat_map, <- Hkeys.
    apply flat_map_values_keys. intros k a Hin.
    assert (Ha : dict_get k (Portfolio.assets p) = Some a)
      by (apply dict_get_elem_NoDup; assumption).
    rewrite (from_csv_get _ _ _ _ _ k Hp) in Ha.
    destruct (built_from k None (rows_of_asset k df_segments)) as [a1|] eqn:Hb;
      [|discriminate].
    simpl in Ha. injection Ha as <-.
    destruct (with_asset_rows_fields
                (filter (fun r : string * AssetRow => fst r = k) df_assets) a1)
      as (Hid & Hs & _).
    destruct (built_from_segments k _ a1 (Hnd k) Hb) as (Hs1 & _ & Hid1 & _).
    rewrite Hid, Hid1, Hs, Hs1. unfold dict_values. rewrite !map_map. simpl.
    apply map_ext_Forall.
    eapply Forall_impl; [apply rows_of_asset_asset|].
    intros r Hr. simpl in Hr. unfold table_row_of. rewrite Hr. reflexivity. }
  split.
  - intros Hne. exists (segments_data p, assets_data p). split.
    + apply to_tables_Ok. rewrite Heq. intros Hnil.
      apply map_eq_nil in Hnil.
      apply (proj1 (grouped_by_asset_nil _)) in Hnil. contradiction.
    + simpl. split; [exact Heq|].
      rewrite Heq. apply Permutation_map, grouped_by_asset_permutation.
  - intros ->. apply to_tables_Raise. rewrite Heq. reflexivity.
Qed.

Lemma X9_from_csv_to_tables_witness :
  (forall aid, NoDup (map fst (rows_of_asset aid Examples.rows4)))
  /\ exists tables,
       to_tables Examples.portfolio4 = Ok tables
       /\ fst tables
          = map table_row_of
              [Examples.row_s1; Examples.row_s3; Examples.row_s2; Examples.row_s4]
       /\ fst tables ≡ₚ map table_row_of Examples.rows4.
Proof.
  assert (Hnd : forall aid, NoDup (map fst (rows_of_asset aid Examples.rows4))).
  { intros aid. unfold Examples.rows4. rewrite !rows_of_asset_cons.
    unfold rows_of_asset. rewrite filter_nil.
    repeat match goal with |- context [decide ?P] => destruct (decide P) end;
      simpl; by_computation. }
  split; [exact Hnd|].
  apply (X9_from_csv_to_tables Examples.manager Examples.rows4 Examples.arows2
           Examples.corr2 Examples.portfolio4 Hnd eq_refl).
  discriminate.
Defined.

(** *** [from_csv]: the portfolio totals *)

Lemma from_csv_segment_step_sums (acc : dict string Asset)
    (r : string * SegmentRow) :
  Qsum (map Asset.total_exposure (dict_values (from_csv_segment_step acc r)))
  == Qsum (map Asset.total_exposure (dict_values acc)) + row_exposure (snd r)
  /\ Qsum (map Asset.total_profit (dict_values (from_csv_segment_step acc r)))
     == Qsum (map Asset.total_profit (dict_values acc))
        + row_exposure (snd r) * row_average_profitability (snd r)
  /\ Qsum (map Asset.total_risk_weighted_assets
               (dict_values (from_csv_segment_step acc r)))
     == Qsum (map Asset.total_risk_weighted_assets (dict_values acc))
        + row_exposure (snd r) * row_risk_weight (snd r).
Proof.
  destruct r as [sid row]. unfold from_csv_segment_step. simpl.
  destruct (dict_get (row_asset row) acc) as [a|] eqn:Ha.
  - rewrite !(Qsum_values_set_present _ _ _ _ _ Ha). simpl.
    repeat split; ring.
  - rewrite !(Qsum_values_set_absent _ _ _ _ Ha). simpl.
    repeat split; ring.
Qed.

Lemma from_csv_segment_loop_sums (rows : list (string * SegmentRow))
    (acc : dict string Asset) :
  let acc' := fold_left from_csv_segment_step rows acc in
  Qsum (map Asset.total_exposure (dict_values acc'))
  == Qsum (map Asset.total_exposure (dict_values acc))
     + Qsum (map (fun r : string * SegmentRow => row_exposure (snd r)) rows)
  /\ Qsum (map Asset.total_profit (dict_values acc'))
     == Qsum (map Asset.total_profit (dict_values acc))
        + Qsum (map (fun r : string * SegmentRow =>
                       row_exposure (snd r) * row_average_profitability (snd r))
                    rows)
  /\ Qsum (map Asset.total_risk_weighted_assets (dict_values acc'))
     == Qsum (map Asset.total_risk_weighted_assets (dict_values acc))
        + Qsum (map (fun r : string * SegmentRow =>
                       row_exposure (snd r) * row_risk_weight (snd r))
                    rows).
Proof.
  revert acc. induction rows as [|r rows IH]; intros acc; simpl.
  - rewrite Qsum_nil. repeat split; ring.
  - destruct (IH (from_csv_segment_step acc r)) as (H1 & H2 & H3).
    destruct (from_csv_segment_step_sums acc r) as (S1 & S2 & S3).
    simpl in H1, H2, H3. rewrite H1, H2, H3, S1, S2, S3, !Qsum_cons.
    repeat split; ring.
Qed.

Lemma from_csv_asset_loop_sums (arows : list (string * AssetRow))
    (acc : dict string Asset) :
  let acc' := fold_left from_csv_asset_step arows acc in
  Qsum (map Asset.total_exposure (dict_values acc'))
  == Qsum (map Asset.total_exposure (dict_values acc))
  /\ Qsum (map Asset.total_profit (dict_values acc'))
     == Qsum (map Asset.total_profit (dict_values acc))
  /\ Qsum (map Asset.total_risk_weighted_assets (dict_values acc'))
     == Qsum (map Asset.total_risk_weighted_assets (dict_values acc)).
Proof.
  revert acc. induction arows as [|[k row] arows IH]; intros acc; simpl.
  - repeat split; reflexivity.
  - destruct (IH (from_csv_asset_step acc (k, row))) as (H1 & H2 & H3).
    simpl in H1, H2, H3. rewrite H1, H2, H3. unfold from_csv_asset_step.
    destruct (dict_get k acc) as [a|] eqn:Ha; [|repeat split; reflexivity].
    rewrite !(Qsum_values_set_present _ _ _ _ _ Ha). simpl.
    repeat split; ring.
Qed.

(** X10.  Without any assumption on the tables: the three totals of the
    portfolio [from_csv] returns are the sums, over all rows of the segments
    table, of the exposure, of exposure times profitability and of exposure
    times risk weight; its average risk weight is the ratio of the last to
    the first when the total exposure is positive and 0 otherwise; the
    correlation matrix is stored as given. *)
Theorem X10_from_csv_portfolio_totals (self : InstanceManager)
    (df_segments : list (string * SegmentRow))
    (df_assets : list (string * AssetRow)) (df_correlation_matrix : DataFrame) :
  exists p,
    from_csv self df_segments df_assets df_correlation_matrix = Ok p
    /\ Portfolio.total_exposure p
       == Qsum (map (fun r : string * SegmentRow => row_exposure (snd r))
                    df_segments)
    /\ Portfolio.total_profit p
       == Qsum (map (fun r : string * SegmentRow =>
                       row_exposure (snd r) * row_average_profitability (snd r))
                    df_segments)
    /\ Portfolio.total_risk_weighted_assets p
       == Qsum (map (fun r : string * SegmentRow =>
                       row_exposure (snd r) * row_risk_weight (snd r))
                    df_segments)
    /\ (0 < Portfolio.total_exposure p ->
        Portfolio.average_risk_weight p
        == Portfolio.total_risk_weighted_assets p / Portfolio.total_exposure p)
    /\ (Portfolio.total_exposure p <= 0 -> Portfolio.average_risk_weight p == 0)
    /\ Portfolio.correlation_matrix p = df_correlation_matrix.
Proof.
  eexists. split; [reflexivity|].
  set (assets := fold_left from_csv_asset_step df_assets
                   (fold_left from_csv_segment_step df_segments [])).
  set (p0 := Portfolio.mk (instance_name self ++ "_input_portfolio")%string
               assets df_correlation_matrix 0 0 0 0).
  unfold Portfolio.new. fold p0.
  destruct (post_init_fold_totals (dict_values assets) p0) as (H1 & H2 & H3).
  assert (Havg := post_init_fold_average (dict_values assets) p0
                    ltac:(reflexivity)).
  destruct (post_init_fold_fields (dict_values assets) p0) as (_ & _ & Hc).
  destruct (from_csv_asset_loop_sums df_assets
              (fold_left from_csv_segment_step df_segments []))
    as (A1 & A2 & A3).
  destruct (from_csv_segment_loop_sums df_segments []) as (S1 & S2 & S3).
  fold assets in A1, A2, A3. simpl in A1, A2, A3, S1, S2, S3.
  split; [rewrite H1, A1, S1; simpl; rewrite Qsum_nil; ring|].
  split; [rewrite H2, A2, S2; simpl; rewrite Qsum_nil; ring|].
  split; [rewrite H3, A3, S3; simpl; rewrite Qsum_nil; ring|].
  split; [|split; [|exact Hc]].
  - intros Hpos. rewrite Havg. unfold ratio_or_zero.
    apply Qltb_lt in Hpos. rewrite Hpos. reflexivity.
  - intros Hle. rewrite Havg. unfold ratio_or_zero.
    apply Qltb_ge in Hle. rewrite Hle. reflexivity.
Qed.

(** *** Python's [round] *)

Lemma py_round_cases (x : Q) :
  let f := Qfloor x in
  (py_round x = f /\ x - inject_Z f <= 1 # 2)
  \/ (py_round x = (f + 1)%Z /\ 1 # 2 <= x - inject_Z f).
Proof.
  intros f. unfold py_round. fold f.
  destruct (Qcompare (x - inject_Z f) (1 # 2)) eqn:Hc.
  - apply Qeq_alt in Hc.
    destruct (Z.even f); [left|right]; (split; [reflexivity|]);
      rewrite Hc; apply Qle_refl.
  - apply Qlt_alt in Hc. left. split; [reflexivity|]. apply Qlt_le_weak, Hc.
  - apply Qgt_alt in Hc. right. split; [reflexivity|]. apply Qlt_le_weak, Hc.
Qed.

(** [round(x)] is within one half of [x]. *)
Lemma py_round_error (x : Q) :
  - (1 # 2) <= inject_Z (py_round x) - x /\ inject_Z (py_round x) - x <= 1 # 2.
Proof.
  pose proof (Qfloor_le x) as Hlo. pose proof (Qlt_floor x) as Hhi.
  destruct (py_round_cases x) as [[-> H]|[-> H]].
  - split; lra.
  - rewrite inject_Z_plus in *. change (inject_Z 1) with 1 in *. split; lra.
Qed.

(** [round] of a number that is not negative is not negative. *)
Lemma py_round_nonneg (x : Q) : 0 <= x -> (0 <= py_round x)%Z.
Proof.
  intros Hx.
  assert (Hf : (0 <= Qfloor x)%Z).
  { change 0%Z with (Qfloor 0). apply Qfloor_resp_le, Hx. }
  destruct (py_round_cases x) as [[-> _]|[-> _]]; lia.
Qed.

Lemma Qabs_sum_bound (xs ys : list Q) (b : Q) :
  Forall2 (fun x y => Qabs (x - y) <= b) xs ys ->
  Qabs (Qsum xs - Qsum ys) <= inject_Z (Z.of_nat (length xs)) * b.
Proof.
  induction 1 as [|x y xs ys Hxy _ IH]; simpl length.
  - rewrite Qsum_nil. change (Qabs (0 - 0)) with 0.
    change (inject_Z (Z.of_nat 0)) with 0. lra.
  - rewrite !Qsum_cons, Nat2Z.inj_succ, <- Z.add_1_r, inject_Z_plus.
    assert (E : x + Qsum xs - (y + Qsum ys) == (x - y) + (Qsum xs - Qsum ys))
      by ring.
    rewrite E. clear E.
    eapply Qle_trans; [apply Qabs_triangle|].
    change (inject_Z 1) with 1. lra.
Qed.
(** *** [new_portfolio]: what rounding does *)

Lemma new_portfolio_Ok_covered (self : InstanceManager) (p p' : Portfolio)
    (alloc : dict (string * string) Q) :
  new_portfolio self p alloc = Ok p' ->
  forall k, k ∈ known_pairs p -> is_Some (dict_get k alloc).
Proof.
  intros Hok. apply first_missing_None.
  pose proof (new_portfolio_outcome self p alloc) as Hout.
  destruct (first_missing alloc (known_pairs p)); [congruence|reflexivity].
Qed.

Lemma new_portfolio_Ok_shape (self : InstanceManager) (p p' : Portfolio)
    (alloc : dict (string * string) Q) :
  portfolio_wf p ->
  new_portfolio self p alloc = Ok p' ->
  p' = Portfolio.new (instance_name self ++ "_optimized_portfolio")%string
         (rebuilt_assets alloc (dict_values (Portfolio.assets p)))
         empty_DataFrame.
Proof.
  intros Hwf Hok.
  rewrite (new_portfolio_shape self p alloc Hwf
             (new_portfolio_Ok_covered self p p' alloc Hok)) in Hok.
  congruence.
Qed.

Lemma new_portfolio_lookup (self : InstanceManager) (p p' : Portfolio)
    (alloc : dict (string * string) Q) (aid : string) (a : Asset) :
  portfolio_wf p ->
  new_portfolio self p alloc = Ok p' ->
  dict_get aid (Portfolio.assets p) = Some a ->
  Asset.segments a <> [] ->
  exists a',
    dict_get aid (Portfolio.assets p') = Some a'
    /\ Asset.segments a'
       = map (fun ks : string * Segment.t =>
                (fst ks,
                 rebalanced_segment (multiplier_of alloc (aid, fst ks)) (snd ks)))
             (Asset.segments a).
Proof.
  intros Hwf Hok Hget Hne.
  rewrite (new_portfolio_Ok_shape self p p' alloc Hwf Hok), Portfolio_new_assets.
  destruct (dict_get_value_wf p aid a Hwf Hget) as [Ha Hawf].
  destruct (rebuilt_asset_spec alloc aid a Hawf Hne)
    as (a' & Hreb & _ & _ & _ & Hsegs & _).
  exists a'. split; [|exact Hsegs].
  destruct Hawf as [<- _].
  rewrite (rebuilt_assets_get alloc _ a); [exact Hreb| |exact Ha].
  rewrite (asset_ids_of_wf p Hwf). apply Hwf.
Qed.

(** X11.  In the portfolio [new_portfolio] returns, the exposure of every
    segment is a whole number within one half of the product of the
    segment's multiplier and its original exposure, and it is not negative
    when that product is not negative; every other field of the segment is
    the original's. *)
Theorem X11_new_portfolio_rounding (self : InstanceManager) (p p' : Portfolio)
    (alloc : dict (string * string) Q) (aid sid : string) (a : Asset)
    (s : Segment.t) (m : Q) :
  portfolio_wf p ->
  new_portfolio self p alloc = Ok p' ->
  dict_get aid (Portfolio.assets p) = Some a ->
  dict_get sid (Asset.segments a) = Some s ->
  dict_get (aid, sid) alloc = Some m ->
  exists a' s',
    dict_get aid (Portfolio.assets p') = Some a'
    /\ dict_get sid (Asset.segments a') = Some s'
    /\ (exists z, Segment.exposure s' = inject_Z z)
    /\ Qabs (Segment.exposure s' - m * Segment.exposure s) <= 1 # 2
    /\ (0 <= m * Segment.exposure s -> 0 <= Segment.exposure s')
    /\ Segment.segment_id s' = Segment.segment_id s
    /\ Segment.asset s' = Segment.asset s
    /\ Segment.profitability s' = Segment.profitability s
    /\ Segment.risk_weight s' = Segment.risk_weight s
    /\ Segment.rel_sell_cost s' = Segment.rel_sell_cost s
    /\ Segment.rel_origination_cost s' = Segment.rel_origination_cost s.
Proof.
  intros Hwf Hok Ha Hs Hm.
  assert (Hne : Asset.segments a <> []).
  { intros Hnil. rewrite Hnil in Hs. discriminate. }
  destruct (new_portfolio_lookup self p p' alloc aid a Hwf Hok Ha Hne)
    as (a' & Ha' & Hsegs).
  exists a', (rebalanced_segment m s). split; [exact Ha'|].
  split.
  { rewrite Hsegs.
    rewrite (dict_get_map_values
               (fun sid s => rebalanced_segment (multiplier_of alloc (aid, sid)) s)).
    rewrite Hs. simpl. unfold multiplier_of. rewrite Hm. reflexivity. }
  unfold rebalanced_segment, Segment.set_exposure.
  cbn [Segment.exposure Segment.segment_id Segment.asset Segment.profitability
       Segment.risk_weight Segment.rel_sell_cost Segment.rel_origination_cost].
  split; [eexists; reflexivity|].
  split.
  { apply (proj2 (Qabs_Qle_condition _ _)). apply py_round_error. }
  split; [|repeat split].
  intros Hpos. change 0 with (inject_Z 0). rewrite <- Zle_Qle.
  apply py_round_nonneg, Hpos.
Qed.

Lemma X11_new_portfolio_rounding_witness :
  portfolio_wf Examples.portfolio4
  /\ new_portfolio Examples.manager Examples.portfolio4 Examples.alloc4
     = Ok Examples.rebalanced4
  /\ dict_get "A1"%string (Portfolio.assets Examples.portfolio4)
     = Some Examples.asset4_A1
  /\ dict_get "s3"%string (Asset.segments Examples.asset4_A1)
     = Some (segment_of_row Examples.row_s3)
  /\ dict_get ("A1"%string, "s3"%string) Examples.alloc4 = Some (13 # 12)
  /\ exists a' s',
       dict_get "A1"%string (Portfolio.assets Examples.rebalanced4) = Some a'
       /\ dict_get "s3"%string (Asset.segments a') = Some s'
       /\ Segment.exposure s' == 650
       /\ Qabs (Segment.exposure s' - (13 # 12) * 600) <= 1 # 2.
Proof.
  assert (Hwf : portfolio_wf Examples.portfolio4).
  { apply (from_csv_wf_consistent Examples.manager Examples.rows4
             Examples.arows2 Examples.corr2);
      [by_computation|vm_compute; reflexivity]. }
  assert (Hok : new_portfolio Examples.manager Examples.portfolio4 Examples.alloc4
                = Ok Examples.rebalanced4) by (vm_compute; reflexivity).
  assert (Ha : dict_get "A1"%string (Portfolio.assets Examples.portfolio4)
               = Some Examples.asset4_A1) by (vm_compute; reflexivity).
  assert (Hs : dict_get "s3"%string (Asset.segments Examples.asset4_A1)
               = Some (segment_of_row Examples.row_s3))
    by (vm_compute; reflexivity).
  assert (Hm : dict_get ("A1"%string, "s3"%string) Examples.alloc4
               = Some (13 # 12)) by (vm_compute; reflexivity).
  split; [exact Hwf|]. split; [exact Hok|]. split; [exact Ha|].
  split; [exact Hs|]. split; [exact Hm|].
  destruct (X11_new_portfolio_rounding Examples.manager Examples.portfolio4
              Examples.rebalanced4 Examples.alloc4 "A1" "s3" Examples.asset4_A1
              (segment_of_row Examples.row_s3) (13 # 12) Hwf Hok Ha Hs Hm)
    as (a' & s' & Ha' & Hs' & _ & Habs & _).
  exists a', s'. split; [exact Ha'|]. split; [exact Hs'|].
  split; [|exact Habs].
  vm_compute in Ha'. injection Ha' as <-.
  vm_compute in Hs'. injection Hs' as <-. reflexivity.
Defined.
Lemma Forall2_map_self {A B : Type} (R : B -> A -> Prop) (f : A -> B)
    (l : list A) :
  (forall x, R (f x) x) -> Forall2 R (map f l) l.
Proof. intros H. induction l; simpl; constructor; auto. Qed.

Lemma length_flat_map_map {A B C : Type} (F : A -> list B) (f : A -> B -> C)
    (l : list A) :
  length (flat_map (fun a => map (f a) (F a)) l) = length (flat_map F l).
Proof.
  induction l as [|a l IH]; simpl; [reflexivity|].
  rewrite !length_app, length_map, IH. reflexivity.
Qed.

(** X12.  The total exposure of the portfolio [new_portfolio] returns is the
    sum of the rounded segment exposures, so it differs from the sum of the
    products of multipliers and original exposures (the total the allocation
    asks for) by at most one half per segment. *)
Theorem X12_new_portfolio_total_exposure (self : InstanceManager)
    (p p' : Portfolio) (alloc : dict (string * string) Q) :
  portfolio_wf p ->
  new_portfolio self p alloc = Ok p' ->
  Portfolio.total_exposure p'
  == Qsum (map (fun x => inject_Z (py_round x)) (target_exposures alloc p))
  /\ Qabs (Portfolio.total_exposure p' - Qsum (target_exposures alloc p))
     <= inject_Z (Z.of_nat (length (all_segments p))) * (1 # 2).
Proof.
  intros Hwf Hok.
  rewrite (new_portfolio_Ok_shape self p p' alloc Hwf Hok).
  set (assets := dict_values (Portfolio.assets p)).
  set (R := rebuilt_assets alloc assets).
  assert (Htot : Portfolio.total_exposure
                   (Portfolio.new (instance_name self ++ "_optimized_portfolio")
                      R empty_DataFrame)
                 == Qsum (map (fun x => inject_Z (py_round x))
                              (target_exposures alloc p))).
  { unfold Portfolio.new.
    destruct (post_init_fold_totals (dict_values R)
                (Portfolio.mk (instance_name self ++ "_optimized_portfolio")%string
                   R empty_DataFrame 0 0 0 0)) as (H1 & _).
    rewrite H1. simpl.
    destruct (rebuilt_assets_totals alloc assets) as (H2 & _).
    { intros a Ha. apply (dict_value_get_wf p a Hwf Ha). }
    simpl in H2. fold R in H2. rewrite H2.
    unfold target_exposures. fold assets.
    rewrite <- map_flat_map, (Qsum_flat_map _ assets).
    rewrite Qplus_0_l. apply Qsum_map_ext. intros a _.
    unfold sum_exposure, rebalanced_segments. rewrite !map_map. reflexivity. }
  split; [exact Htot|].
  rewrite Htot.
  eapply Qle_trans; [apply Qabs_sum_bound|].
  - apply (Forall2_map_self (fun x y => Qabs (x - y) <= 1 # 2)
             (fun x => inject_Z (py_round x))).
    intros x. apply (proj2 (Qabs_Qle_condition _ _)). apply py_round_error.
  - rewrite length_map. unfold target_exposures, all_segments.
    rewrite (length_flat_map_map (fun a : Asset => dict_values (Asset.segments a))
               (fun a s => multiplier_of alloc
                             (Asset.asset_id a, Segment.segment_id s)
                           * Segment.exposure s)).
    apply Qle_refl.
Qed.

Lemma X12_new_portfolio_total_exposure_witness :
  portfolio_wf Examples.portfolio4
  /\ new_portfolio Examples.manager Examples.portfolio4 Examples.alloc4
     = Ok Examples.rebalanced4
  /\ Qsum (target_exposures Examples.alloc4 Examples.portfolio4) == 21504 # 10
  /\ Portfolio.total_exposure Examples.rebalanced4 == 2150
  /\ Qabs (Portfolio.total_exposure Examples.rebalanced4
           - Qsum (target_exposures Examples.alloc4 Examples.portfolio4))
     <= inject_Z (Z.of_nat (length (all_segments Examples.portfolio4))) * (1 # 2).
Proof.
  assert (Hwf : portfolio_wf Examples.portfolio4).
  { apply (from_csv_wf_consistent Examples.manager Examples.rows4
             Examples.arows2 Examples.corr2);
      [by_computation|vm_compute; reflexivity]. }
  assert (Hok : new_portfolio Examples.manager Examples.portfolio4 Examples.alloc4
                = Ok Examples.rebalanced4) by (vm_compute; reflexivity).
  split; [exact Hwf|]. split; [exact Hok|].
  split; [vm_compute; reflexivity|]. split; [vm_compute; reflexivity|].
  exact (proj2 (X12_new_portfolio_total_exposure Examples.manager
                  Examples.portfolio4 Examples.rebalanced4 Examples.alloc4
                  Hwf Hok)).
Defined.

(** *** [new_portfolio]: the portfolio returned can be rebalanced again *)

Lemma rebuilt_assets_keys_NoDup (alloc : dict (string * string) Q)
    (assets : list Asset) :
  NoDup (map Asset.asset_id assets) ->
  NoDup (dict_keys (rebuilt_assets alloc assets)).
Proof.
  induction assets as [|a assets IH]; simpl; intros Hnd; [constructor|].
  apply NoDup_cons in Hnd as [Ha Hnd].
  destruct (rebuilt_asset alloc a) as [a'|]; simpl; [|apply IH, Hnd].
  constructor; [|apply IH, Hnd].
  apply dict_get_None, rebuilt_assets_get_None, Ha.
Qed.

Lemma rebuilt_assets_entries (alloc : dict (string * string) Q)
    (assets : list Asset) (k : string) (a' : Asset) :
  (k, a') ∈ rebuilt_assets alloc assets ->
  exists a, a ∈ assets /\ Asset.asset_id a = k /\ rebuilt_asset alloc a = Some a'.
Proof.
  induction assets as [|a assets IH]; simpl; intros Hin; [inversion Hin|].
  apply elem_of_app in Hin as [Hin|Hin].
  - destruct (rebuilt_asset alloc a) as [a1|] eqn:Hr; [|inversion Hin].
    apply list_elem_of_singleton in Hin. injection Hin as -> ->.
    exists a. split; [constructor|]. split; [reflexivity|exact Hr].
  - destruct (IH Hin) as (a0 & Ha0 & Hk & Hr).
    exists a0. split; [now constructor|]. split; assumption.
Qed.

Lemma rebuilt_asset_wf (alloc : dict (string * string) Q) (a a' : Asset) :
  asset_wf (Asset.asset_id a) a ->
  rebuilt_asset alloc a = Some a' ->
  asset_wf (Asset.asset_id a) a'.
Proof.
  intros Hwf Hr.
  assert (Hne : Asset.segments a <> []).
  { intros Hnil. apply (rebuilt_asset_None alloc) in Hnil. congruence. }
  destruct (rebuilt_asset_spec alloc _ a Hwf Hne)
    as (a1 & Hr1 & Hid & _ & _ & Hsegs & _).
  rewrite Hr in Hr1. injection Hr1 as <-.
  destruct Hwf as (_ & Hnd & Hkeys).
  split; [exact Hid|]. rewrite Hsegs. split.
  - rewrite (dict_keys_map_values
               (fun sid s =>
                  rebalanced_segment
                    (multiplier_of alloc (Asset.asset_id a, sid)) s)).
    exact Hnd.
  - apply Forall_forall. intros ks Hks.
    apply elem_of_map in Hks as (ks0 & -> & Hks0).
    rewrite Forall_forall in Hkeys. simpl. exact (Hkeys _ Hks0).
Qed.

Lemma rebalanced_segment_fixed (m : Q) (s : Segment.t) (z : Z) :
  m == 1 -> Segment.exposure s = inject_Z z -> rebalanced_segment m s = s.
Proof.
  intros Hm He. unfold rebalanced_segment, Segment.set_exposure.
  assert (Hr : py_round (m * Segment.exposure s) = z).
  { rewrite <- (py_round_inject_Z z). apply py_round_proper.
    rewrite He, Hm. ring. }
  rewrite Hr, <- He. destruct s; reflexivity.
Qed.

(** An asset built by [new_portfolio] is rebuilt as itself when every
    multiplier is 1. *)
Lemma rebuilt_asset_fixed (alloc alloc1 : dict (string * string) Q)
    (a a' : Asset) :
  asset_wf (Asset.asset_id a) a ->
  rebuilt_asset alloc a = Some a' ->
  (forall s, s ∈ dict_values (Asset.segments a') ->
     multiplier_of alloc1 (Asset.asset_id a', Segment.segment_id s) == 1) ->
  rebuilt_asset alloc1 a' = Some a'.
Proof.
  intros Hwf Hr Hone.
  pose proof Hr as Hr0. unfold rebuilt_asset in Hr0.
  destruct (rebalanced_segments alloc a) as [|s rest] eqn:Hsegs; [discriminate|].
  injection Hr0 as Ha'.
  destruct (rebuilt_asset_values alloc _ a a' Hwf Hr) as [Hvals _].
  rewrite Hsegs in Hvals.
  assert (Hids : Asset.asset_id a' = Asset.asset_id a
                 /\ Asset.min_rel_exposure a' = Asset.min_rel_exposure a
                 /\ Asset.max_rel_exposure a' = Asset.max_rel_exposure a).
  { rewrite <- Ha'.
    destruct (add_segment_run_fields rest
                (asset_of_first_segment (Asset.asset_id a) s
                   (Asset.min_rel_exposure a) (Asset.max_rel_exposure a)))
      as (H1 & H2 & H3 & _).
    rewrite H1, H2, H3. repeat split. }
  destruct Hids as (Hid & Hmin & Hmax).
  assert (Hint : forall s0, s0 ∈ s :: rest -> exists z, Segment.exposure s0 = inject_Z z).
  { intros s0 Hs0. rewrite <- Hsegs in Hs0. unfold rebalanced_segments in Hs0.
    apply elem_of_map in Hs0 as (s1 & -> & _). eexists. reflexivity. }
  assert (Hsame : rebalanced_segments alloc1 a' = s :: rest).
  { unfold rebalanced_segments. rewrite Hvals.
    rewrite <- (map_id (s :: rest)) at 2. apply map_ext_in.
    intros s0 Hs0. apply list_elem_of_In in Hs0.
    destruct (Hint s0 Hs0) as [z Hz].
    apply (rebalanced_segment_fixed _ s0 z); [|exact Hz].
    apply Hone. rewrite Hvals. exact Hs0. }
  unfold rebuilt_asset. rewrite Hsame, Hid, Hmin, Hmax, Ha'. reflexivity.
Qed.

Lemma rebuilt_assets_fixed (alloc alloc1 : dict (string * string) Q)
    (assets : list Asset) :
  (forall a : Asset, a ∈ assets -> asset_wf (Asset.asset_id a) a) ->
  (forall a', a' ∈ dict_values (rebuilt_assets alloc assets) ->
     forall s, s ∈ dict_values (Asset.segments a') ->
       multiplier_of alloc1 (Asset.asset_id a', Segment.segment_id s) == 1) ->
  rebuilt_assets alloc1 (dict_values (rebuilt_assets alloc assets))
  = rebuilt_assets alloc assets.
Proof.
  induction assets as [|a assets IH]; intros Hwf Hone; simpl; [reflexivity|].
  assert (Htail : rebuilt_assets alloc1 (dict_values (rebuilt_assets alloc assets))
                  = rebuilt_assets alloc assets).
  { apply IH.
    - intros a0 Ha0. apply Hwf. now constructor.
    - intros a' Ha'. apply Hone. simpl. unfold dict_values in *.
      rewrite map_app. apply elem_of_app. now right. }
  destruct (rebuilt_asset alloc a) as [a'|] eqn:Hr; simpl; [|exact Htail].
  assert (Hfix : rebuilt_asset alloc1 a' = Some a').
  { apply (rebuilt_asset_fixed alloc alloc1 a a');
      [apply Hwf; constructor|exact Hr|].
    apply Hone. simpl. rewrite Hr. simpl. constructor. }
  rewrite Hfix. simpl. f_equal; [|exact Htail].
  destruct (rebuilt_asset_wf alloc a a' (Hwf a ltac:(constructor)) Hr) as [-> _].
  reflexivity.
Qed.

Lemma new_portfolio_wf (self : InstanceManager) (p p' : Portfolio)
    (alloc : dict (string * string) Q) :
  portfolio_wf p ->
  new_portfolio self p alloc = Ok p' ->
  portfolio_wf p'.
Proof.
  intros Hwf Hok.
  rewrite (new_portfolio_Ok_shape self p p' alloc Hwf Hok).
  unfold portfolio_wf. rewrite Portfolio_new_assets. split.
  - apply rebuilt_assets_keys_NoDup. rewrite (asset_ids_of_wf p Hwf). apply Hwf.
  - apply Forall_forall. intros [k a'] Hin.
    apply rebuilt_assets_entries in Hin as (a & Ha & <- & Hr). simpl.
    apply (rebuilt_asset_wf alloc a a'); [|exact Hr].
    apply (dict_value_get_wf p a Hwf Ha).
Qed.

(** X13.  The portfolio [new_portfolio] returns is again keyed by
    identifiers, its totals are the sums over its segments and assets, every
    one of its assets holds a segment, and it is a fixed point of
    rebalancing: [new_portfolio] applied to it with an allocation whose
    multipliers are all 1 returns the very same portfolio. *)
Theorem X13_new_portfolio_fixed_point (self : InstanceManager) (p p' : Portfolio)
    (alloc alloc1 : dict (string * string) Q) :
  portfolio_wf p ->
  new_portfolio self p alloc = Ok p' ->
  (forall k, k ∈ known_pairs p' -> exists m, dict_get k alloc1 = Some m /\ m == 1) ->
  portfolio_wf p'
  /\ portfolio_totals_agree p'
  /\ Forall (fun a : Asset => Asset.segments a <> [])
            (dict_values (Portfolio.assets p'))
  /\ new_portfolio self p' alloc1 = Ok p'.
Proof.
  intros Hwf Hok Hone.
  pose proof (new_portfolio_wf self p p' alloc Hwf Hok) as Hwf'.
  pose proof (new_portfolio_Ok_shape self p p' alloc Hwf Hok) as Hp'.
  split; [exact Hwf'|]. split; [|split].
  - rewrite Hp'. apply portfolio_consistent_totals, Portfolio_new_consistent,
      rebuilt_assets_consistent, Hwf.
  - rewrite Hp', Portfolio_new_assets. apply Forall_forall. intros a' Ha'.
    apply rebuilt_assets_values in Ha' as (a & Ha & Hr).
    destruct (rebuilt_asset_values alloc _ a a'
                (proj2 (dict_value_get_wf p a Hwf Ha)) Hr) as [Hvals _].
    intros Hnil. rewrite Hnil in Hvals. simpl in Hvals.
    unfold rebuilt_asset in Hr. rewrite <- Hvals in Hr. discriminate.
  - rewrite (new_portfolio_shape self p' alloc1 Hwf').
    + rewrite Hp' at 1. rewrite Portfolio_new_assets.
      rewrite rebuilt_assets_fixed; [f_equal; symmetry; exact Hp'| |].
      * intros a Ha. apply (dict_value_get_wf p a Hwf Ha).
      * intros a' Ha' s Hs.
        destruct (Hone (Asset.asset_id a', Segment.segment_id s)) as (m & Hm & H1).
        { apply known_pairs_elem; [|exact Hs].
          rewrite Hp', Portfolio_new_assets. exact Ha'. }
        unfold multiplier_of. rewrite Hm. exact H1.
    + intros k Hk. destruct (Hone k Hk) as (m & Hm & _). rewrite Hm. eauto.
Qed.

Lemma X13_new_portfolio_fixed_point_witness :
  portfolio_wf Examples.portfolio4
  /\ new_portfolio Examples.manager Examples.portfolio4 Examples.alloc4
     = Ok Examples.rebalanced4
  /\ known_pairs Examples.rebalanced4 = dict_keys Examples.alloc4_unit
  /\ portfolio_wf Examples.rebalanced4
  /\ portfolio_totals_agree Examples.rebalanced4
  /\ new_portfolio Examples.manager Examples.rebalanced4 Examples.alloc4_unit
     = Ok Examples.rebalanced4.
Proof.
  assert (Hwf : portfolio_wf Examples.portfolio4).
  { apply (from_csv_wf_consistent Examples.manager Examples.rows4
             Examples.arows2 Examples.corr2);
      [by_computation|vm_compute; reflexivity]. }
  assert (Hok : new_portfolio Examples.manager Examples.portfolio4 Examples.alloc4
                = Ok Examples.rebalanced4) by (vm_compute; reflexivity).
  split; [exact Hwf|]. split; [exact Hok|]. split; [reflexivity|].
  destruct (X13_new_portfolio_fixed_point Examples.manager Examples.portfolio4
              Examples.rebalanced4 Examples.alloc4 Examples.alloc4_unit Hwf Hok)
    as (H1 & H2 & _ & H4).
  { intros k Hk. vm_compute in Hk.
    repeat (apply elem_of_cons in Hk as [->|Hk];
            [exists 1; split; [vm_compute; reflexivity | reflexivity]|]).
    inversion Hk. }
  split; [exact H1|]. split; [exact H2|exact H4].
Defined.

(** *** [from_csv], [new_portfolio], [to_tables]: the pipeline of
    [solve_optimization] around the solver *)

Lemma from_csv_entry (self : InstanceManager)
    (df_segments : list (string * SegmentRow))
    (df_assets : list (string * AssetRow)) (df_correlation_matrix : DataFrame)
    (p : Portfolio) (k : string) (a : Asset) :
  (forall aid, NoDup (map fst (rows_of_asset aid df_segments))) ->
  from_csv self df_segments df_assets df_correlation_matrix = Ok p ->
  (k, a) ∈ Portfolio.assets p ->
  Asset.asset_id a = k
  /\ dict_values (Asset.segments a)
     = map segment_of_row (rows_of_asset k df_segments).
Proof.
  intros Hnd Hp Hin.
  destruct (from_csv_keys _ _ _ _ _ Hp) as (_ & Hndk).
  assert (Ha : dict_get k (Portfolio.assets p) = Some a)
    by (apply dict_get_elem_NoDup; assumption).
  rewrite (from_csv_get _ _ _ _ _ k Hp) in Ha.
  destruct (built_from k None (rows_of_asset k df_segments)) as [a1|] eqn:Hb;
    [|discriminate].
  simpl in Ha. injection Ha as <-.
  destruct (with_asset_rows_fields
              (filter (fun r : string * AssetRow => fst r = k) df_assets) a1)
    as (Hid & Hs & _).
  destruct (built_from_segments k _ a1 (Hnd k) Hb) as (Hs1 & _ & Hid1 & _).
  rewrite Hid, Hid1, Hs, Hs1. split; [reflexivity|].
  unfold dict_values. rewrite map_map. reflexivity.
Qed.

Lemma NoDup_rows_of_asset (aid : string) (rows : list (string * SegmentRow)) :
  NoDup (map fst rows) -> NoDup (map fst (rows_of_asset aid rows)).
Proof.
  unfold rows_of_asset. induction rows as [|r rows IH]; simpl; intros Hnd.
  - constructor.
  - apply NoDup_cons in Hnd as [Hr Hnd]. rewrite filter_cons.
    destruct (decide (row_asset (snd r) = aid)); [|apply IH, Hnd].
    simpl. constructor; [|apply IH, Hnd].
    intros Hin. apply Hr.
    apply elem_of_map in Hin as (r' & Hr' & Hin).
    apply list_elem_of_filter in Hin as [_ Hin].
    apply elem_of_map. exists r'. split; assumption.
Qed.

Lemma flat_map_rebuilt_values {B : Type} (F : Asset -> list B)
    (alloc : dict (string * string) Q) (assets : list Asset) :
  flat_map F (dict_values (rebuilt_assets alloc assets))
  = flat_map (fun a => match rebuilt_asset alloc a with
                       | Some a' => F a'
                       | None => []
                       end) assets.
Proof.
  induction assets as [|a assets IH]; simpl; [reflexivity|].
  unfold dict_values in *. rewrite map_app, flat_map_app, IH.
  destruct (rebuilt_asset alloc a); simpl; [rewrite app_nil_r|]; reflexivity.
Qed.

(** X14.  The pipeline of [solve_optimization] around the solver.  For a
    segments table with distinct identifiers: the keys under which the
    optimizer creates its variables and [new_portfolio] looks up multipliers
    are the (asset, segment id) pairs of the rows, grouped by asset; and when
    [new_portfolio] returns and the input table has a row, the segments table
    [to_tables] returns is the input table grouped by asset with each
    exposure replaced by the rounded product of its multiplier and the input
    exposure.  For an input table without rows [to_tables] raises the
    [KeyError] of [set_index]. *)
Theorem X14_rebalanced_table (self : InstanceManager)
    (df_segments : list (string * SegmentRow))
    (df_assets : list (string * AssetRow)) (df_correlation_matrix : DataFrame)
    (p p' : Portfolio) (new_distribution : dict (string * string) Q) :
  NoDup (map fst df_segments) ->
  from_csv self df_segments df_assets df_correlation_matrix = Ok p ->
  new_portfolio self p new_distribution = Ok p' ->
  known_pairs p = map key_of_row (grouped_by_asset df_segments)
  /\ Xpress.segments_of p = known_pairs p
  /\ (df_segments <> [] ->
      exists tables,
        to_tables p' = Ok tables
        /\ fst tables
           = map (rebalanced_row_of new_distribution)
                 (grouped_by_asset df_segments))
  /\ (df_segments = [] -> to_tables p' = Raise (KeyError_column "segment_id")).
Proof.
  intros Hnd Hp Hok.
  assert (Hnda : forall aid, NoDup (map fst (rows_of_asset aid df_segments)))
    by (intros aid; apply NoDup_rows_of_asset, Hnd).
  destruct (from_csv_wf_consistent _ _ _ _ _ Hnd Hp) as [Hwf _].
  destruct (from_csv_keys _ _ _ _ _ Hp) as (Hkeys & _).
  assert (Heq : segments_data p'
                = map (rebalanced_row_of new_distribution)
                      (grouped_by_asset df_segments));
    [|split; [|split; [reflexivity|split]]].
  - rewrite (new_portfolio_Ok_shape self p p' new_distribution Hwf Hok).
    unfold segments_data. rewrite Portfolio_new_assets.
    rewrite flat_map_rebuilt_values.
    unfold grouped_by_asset. rewrite <- map_flat_map, <- Hkeys.
    apply flat_map_values_keys. intros k a Hin.
    destruct (from_csv_entry _ _ _ _ _ k a Hnda Hp Hin) as [Hid Hvals].
    assert (Hawf : asset_wf (Asset.asset_id a) a).
    { apply (dict_value_get_wf p a Hwf). unfold dict_values.
      apply elem_of_map. exists (k, a). split; [reflexivity|exact Hin]. }
    destruct (rebuilt_asset new_distribution a) as [a'|] eqn:Hr.
    + destruct (rebuilt_asset_values new_distribution _ a a' Hawf Hr)
        as [Hvals' _].
      destruct (rebuilt_asset_wf new_distribution a a' Hawf Hr) as [Hid' _].
      rewrite Hvals', Hid', Hid. unfold rebalanced_segments.
      rewrite Hvals, Hid, !map_map.
      apply map_ext_Forall.
      eapply Forall_impl; [apply rows_of_asset_asset|].
      intros r Hr'. simpl in Hr'. unfold rebalanced_row_of, key_of_row. simpl.
      rewrite Hr'. reflexivity.
    + apply (rebuilt_asset_None new_distribution) in Hr.
      unfold dict_values in Hvals. rewrite Hr in Hvals. simpl in Hvals.
      symmetry in Hvals. apply map_eq_nil in Hvals. rewrite Hvals. reflexivity.
  - unfold known_pairs, grouped_by_asset.
    rewrite <- map_flat_map, <- Hkeys.
    apply flat_map_values_keys. intros k a Hin.
    destruct (from_csv_entry _ _ _ _ _ k a Hnda Hp Hin) as [Hid Hvals].
    unfold asset_pairs. rewrite Hid, Hvals, map_map.
    apply map_ext_Forall.
    eapply Forall_impl; [apply rows_of_asset_asset|].
    intros r Hr. simpl in Hr. unfold key_of_row. simpl. rewrite Hr. reflexivity.
  - intros Hne. exists (segments_data p', assets_data p'). split.
    + apply to_tables_Ok. rewrite Heq. intros Hnil.
      apply map_eq_nil in Hnil.
      apply (proj1 (grouped_by_asset_nil _)) in Hnil. contradiction.
    + exact Heq.
  - intros ->. apply to_tables_Raise. rewrite Heq. reflexivity.
Qed.

Lemma X14_rebalanced_table_witness :
  NoDup (map fst Examples.rows4)
  /\ known_pairs Examples.portfolio4
     = [("A1", "s1"); ("A1", "s3"); ("A2", "s2"); ("A2", "s4")]%string
  /\ exists tables,
       to_tables Examples.rebalanced4 = Ok tables
       /\ fst tables
          = map (rebalanced_row_of Examples.alloc4)
              [Examples.row_s1; Examples.row_s3; Examples.row_s2; Examples.row_s4].
Proof.
  assert (Hnd : NoDup (map fst Examples.rows4)) by by_computation.
  split; [exact Hnd|].
  destruct (X14_rebalanced_table Examples.manager Examples.rows4 Examples.arows2
              Examples.corr2 Examples.portfolio4 Examples.rebalanced4
              Examples.alloc4 Hnd eq_refl eq_refl) as (H1 & _ & H3 & _).
  split; [exact H1|]. apply H3. discriminate.
Defined.

(* ------------------------------------------------------------------ *)
(** ** portfolio_optimizer.py: what the constraints imply *)

Module XpressModelFacts.
Import XpressModel.

Lemma sum_segments_by_asset (p : Portfolio) (f : Asset -> Segment.t -> Q) :
  sum_segments p f
  == Qsum (map (fun asset : Asset =>
                  Qsum (map (f asset) (dict_values (Asset.segments asset))))
               (dict_values (Portfolio.assets p))).
Proof. unfold sum_segments. apply Qsum_flat_map. Qed.

Lemma sum_segments_ext (p : Portfolio) (f g : Asset -> Segment.t -> Q) :
  (forall a s, f a s == g a s) -> sum_segments p f == sum_segments p g.
Proof.
  intros H. rewrite !sum_segments_by_asset.
  apply Qsum_map_ext. intros a _. apply Qsum_map_ext. intros s _. apply H.
Qed.

Lemma Qsum_map_le {A : Type} (f g : A -> Q) (l : list A) :
  Forall (fun x => f x <= g x) l -> Qsum (map f l) <= Qsum (map g l).
Proof.
  induction 1 as [|x l Hx _ IH]; simpl.
  - rewrite Qsum_nil. apply Qle_refl.
  - rewrite !Qsum_cons. apply Qplus_le_compat; assumption.
Qed.

Lemma Qsum_map_nonneg {A : Type} (f : A -> Q) (l : list A) :
  Forall (fun x => 0 <= f x) l -> 0 <= Qsum (map f l).
Proof.
  intros H. rewrite <- (Qsum_map_zero l). apply Qsum_map_le. exact H.
Qed.

Lemma Qsum_map_Forall_eq {A : Type} (f g : A -> Q) (l : list A) :
  Forall (fun x => f x == g x) l -> Qsum (map f l) == Qsum (map g l).
Proof.
  intros H. apply Qsum_map_ext. intros x Hx.
  rewrite Forall_forall in H. exact (H x Hx).
Qed.

(** X15.  In every assignment that satisfies the constraints the optimizer
    states, the per-asset exposures add up to the new total exposure, and
    that total lies between the sums over the assets of
    [min_rel_exposure * total_exposure] and of
    [max_rel_exposure * total_exposure]: the asset limits bound the size of
    the rebalanced portfolio. *)
Theorem X15_feasible_total_exposure (p : Portfolio) (risk_weight_limit : Q)
    (v : assignment) :
  feasible p risk_weight_limit v ->
  let assets := dict_values (Portfolio.assets p) in
  Qsum (map (fun a : Asset => portfolio_exposure_vars v (Asset.asset_id a)) assets)
  == new_total_exposure v
  /\ Qsum (map (fun a : Asset =>
                  Asset.min_rel_exposure a * Asset.total_exposure a) assets)
     <= new_total_exposure v
  /\ new_total_exposure v
     <= Qsum (map (fun a : Asset =>
                     Asset.max_rel_exposure a * Asset.total_exposure a) assets).
Proof.
  intros (_ & _ & Htot & _ & Hasset & Hlim) assets.
  unfold XpressModel.total_exposure in Htot.
  unfold asset_exposure in Hasset. unfold exposure_limits in Hlim.
  assert (Hsum : Qsum (map (fun a : Asset =>
                              portfolio_exposure_vars v (Asset.asset_id a)) assets)
                 == new_total_exposure v).
  { rewrite <- Htot, sum_segments_by_asset. symmetry.
    apply Qsum_map_Forall_eq. exact Hasset. }
  split; [exact Hsum|]. rewrite <- Hsum. split.
  - apply Qsum_map_le. eapply Forall_impl; [exact Hlim|].
    intros a [H _]. exact H.
  - apply Qsum_map_le. eapply Forall_impl; [exact Hlim|].
    intros a [_ H]. exact H.
Qed.
(** The sums of the constraints at multiplier 1 are the portfolio's
    aggregates, on a consistent portfolio. *)
Lemma sum_segments_consistent (p : Portfolio) :
  portfolio_consistent p ->
  sum_segments p (fun _ s => Segment.exposure s * 1)
  == Portfolio.total_exposure p
  /\ sum_segments p (fun _ s => Segment.exposure s * Segment.risk_weight s * 1)
     == Portfolio.total_risk_weighted_assets p
  /\ sum_segments p (fun _ s => Segment.profitability s * Segment.exposure s * 1)
     == Portfolio.total_profit p.
Proof.
  intros (Hall & He & Hp & Hr & _). rewrite Forall_forall in Hall.
  rewrite He, Hp, Hr, !sum_segments_by_asset.
  split; [|split]; apply Qsum_map_ext; intros a Ha;
    destruct (Hall a Ha) as (Ha1 & Ha2 & Ha3 & _).
  - rewrite Ha1. unfold sum_exposure. apply Qsum_map_ext. intros s _. ring.
  - rewrite Ha3. unfold sum_risk_weighted. apply Qsum_map_ext. intros s _. ring.
  - rewrite Ha2. unfold sum_profit. apply Qsum_map_ext. intros s _. ring.
Qed.

Lemma unchanged_exposure (p : Portfolio) (a : Asset) :
  portfolio_wf p -> a ∈ dict_values (Portfolio.assets p) ->
  portfolio_exposure_vars (unchanged p) (Asset.asset_id a)
  = Asset.total_exposure a.
Proof.
  intros Hwf Ha. simpl.
  destruct (dict_value_get_wf p a Hwf Ha) as [-> _]. reflexivity.
Qed.

Lemma unchanged_feasible (p : Portfolio) (risk_weight_limit : Q) :
  portfolio_wf p ->
  portfolio_consistent p ->
  Forall (fun a : Asset =>
            0 <= Asset.total_exposure a
            /\ Asset.min_rel_exposure a <= 1
            /\ 1 <= Asset.max_rel_exposure a)
         (dict_values (Portfolio.assets p)) ->
  feasible p risk_weight_limit (unchanged p)
  <-> Portfolio.total_risk_weighted_assets p
      <= risk_weight_limit * Portfolio.total_exposure p.
Proof.
  intros Hwf Hc Hb.
  destruct (sum_segments_consistent p Hc) as (S1 & S2 & _).
  assert (Hrisk : risk_weight p risk_weight_limit (unchanged p)
                  <-> Portfolio.total_risk_weighted_assets p
                      <= risk_weight_limit * Portfolio.total_exposure p).
  { unfold risk_weight. simpl. rewrite S2. reflexivity. }
  split; [intros (_ & _ & _ & H & _); apply Hrisk, H|].
  intros Hlim. rewrite Forall_forall in Hb.
  split; [|split; [|split; [|split; [apply Hrisk, Hlim|split]]]].
  - split; [|split; [|split]].
    + apply Forall_forall. intros k _. simpl. repeat split; discriminate.
    + simpl. destruct Hc as (_ & He & _). rewrite He.
      apply Qsum_map_nonneg, Forall_forall. intros a Ha. apply (Hb a Ha).
    + apply Forall_forall. intros aid Haid. simpl.
      destruct (dict_get aid (Portfolio.assets p)) as [a|] eqn:Ha;
        [|apply Qle_refl].
      apply (Hb a). apply (dict_get_value_wf p aid a Hwf Ha).
    + simpl. apply Qle_refl.
  - apply Forall_forall. intros a _. apply Forall_forall. intros s _.
    simpl. ring.
  - unfold XpressModel.total_exposure. simpl. exact S1.
  - apply Forall_forall. intros a Ha.
    rewrite (unchanged_exposure p a Hwf Ha). simpl.
    destruct Hc as (Hall & _). rewrite Forall_forall in Hall.
    destruct (Hall a Ha) as (Ha1 & _). rewrite Ha1. unfold sum_exposure.
    apply Qsum_map_ext. intros s _. ring.
  - apply Forall_forall. intros a Ha.
    rewrite (unchanged_exposure p a Hwf Ha).
    destruct (Hb a Ha) as (H0 & Hmin & Hmax). split; nra.
Qed.

(** X16.  On a well-keyed, consistent portfolio whose asset exposures are
    not negative and whose relative limits enclose 1, the plan that changes
    nothing (every multiplier 1, no increase, no decrease) satisfies the
    optimizer's constraints exactly when the portfolio already meets the
    risk-weight limit, [total_risk_weighted_assets <= limit * total_exposure];
    its net-profit objective is the portfolio's total profit and its
    transaction cost is 0. *)
Theorem X16_unchanged_plan (p : Portfolio) (risk_weight_limit : Q) :
  portfolio_wf p ->
  portfolio_consistent p ->
  Forall (fun a : Asset =>
            0 <= Asset.total_exposure a
            /\ Asset.min_rel_exposure a <= 1
            /\ 1 <= Asset.max_rel_exposure a)
         (dict_values (Portfolio.assets p)) ->
  (feasible p risk_weight_limit (unchanged p)
   <-> Portfolio.total_risk_weighted_assets p
       <= risk_weight_limit * Portfolio.total_exposure p)
  /\ transaction_cost p (unchanged p) == 0
  /\ net_profit_objective p (unchanged p) == Portfolio.total_profit p.
Proof.
  intros Hwf Hc Hb.
  split; [apply unchanged_feasible; assumption|].
  assert (Hcost : transaction_cost p (unchanged p) == 0).
  { unfold transaction_cost. simpl. rewrite sum_segments_by_asset.
    rewrite <- (Qsum_map_zero (dict_values (Portfolio.assets p))).
    apply Qsum_map_ext. intros a _.
    rewrite <- (Qsum_map_zero (dict_values (Asset.segments a))).
    apply Qsum_map_ext. intros s _. ring. }
  split; [exact Hcost|].
  unfold net_profit_objective. rewrite Hcost.
  destruct (sum_segments_consistent p Hc) as (_ & _ & S3).
  unfold profit. simpl. rewrite S3. ring.
Qed.

Lemma X16_unchanged_plan_witness :
  portfolio_wf Examples.portfolio4
  /\ portfolio_consistent Examples.portfolio4
  /\ Portfolio.total_risk_weighted_assets Examples.portfolio4
     <= (1 # 2) * Portfolio.total_exposure Examples.portfolio4
  /\ feasible Examples.portfolio4 (1 # 2) (unchanged Examples.portfolio4)
  /\ net_profit_objective Examples.portfolio4 (unchanged Examples.portfolio4)
     == 100.
Proof.
  destruct (from_csv_wf_consistent Examples.manager Examples.rows4
              Examples.arows2 Examples.corr2 Examples.portfolio4)
    as [Hwf Hc]; [by_computation|vm_compute; reflexivity|].
  assert (Hlim : Portfolio.total_risk_weighted_assets Examples.portfolio4
                 <= (1 # 2) * Portfolio.total_exposure Examples.portfolio4)
    by (vm_compute; discriminate).
  destruct (X16_unchanged_plan Examples.portfolio4 (1 # 2) Hwf Hc)
    as (Hfeas & _ & Hnet).
  { vm_compute. repeat constructor; discriminate. }
  split; [exact Hwf|]. split; [exact Hc|]. split; [exact Hlim|].
  split; [apply Hfeas, Hlim|].
  rewrite Hnet. vm_compute. reflexivity.
Defined.

Lemma X15_feasible_total_exposure_witness :
  feasible Examples.portfolio4 (1 # 2) (unchanged Examples.portfolio4)
  /\ new_total_exposure (unchanged Examples.portfolio4) == 2000
  /\ Qsum (map (fun a : Asset =>
                  Asset.min_rel_exposure a * Asset.total_exposure a)
               (dict_values (Portfolio.assets Examples.portfolio4)))
     <= new_total_exposure (unchanged Examples.portfolio4)
  /\ new_total_exposure (unchanged Examples.portfolio4)
     <= Qsum (map (fun a : Asset =>
                     Asset.max_rel_exposure a * Asset.total_exposure a)
                  (dict_values (Portfolio.assets Examples.portfolio4))).
Proof.
  destruct (from_csv_wf_consistent Examples.manager Examples.rows4
              Examples.arows2 Examples.corr2 Examples.portfolio4)
    as [Hwf Hc]; [by_computation|vm_compute; reflexivity|].
  assert (Hfeas : feasible Examples.portfolio4 (1 # 2)
                    (unchanged Examples.portfolio4)).
  { apply (unchanged_feasible Examples.portfolio4 (1 # 2) Hwf Hc).
    - vm_compute. repeat constructor; discriminate.
    - vm_compute. discriminate. }
  split; [exact Hfeas|]. split; [vm_compute; reflexivity|].
  exact (proj2 (X15_feasible_total_exposure Examples.portfolio4 (1 # 2)
                  (unchanged Examples.portfolio4) Hfeas)).
Defined.
End XpressModelFacts.

(** ** GAMSPy: the double sum *)

Module GamsFacts.
Import Gams.

(** Exchange of the two summations of a finite double sum. *)
Lemma Qsum_exchange {A B : Type} (f : A -> B -> Q) (la : list A) (lb : list B) :
  Qsum (map (fun a => Qsum (map (fun b => f a b) lb)) la)
  == Qsum (map (fun b => Qsum (map (fun a => f a b) la)) lb).
Proof.
  induction la as [|a la IH]; simpl.
  - rewrite Qsum_nil. symmetry. apply Qsum_map_zero.
  - rewrite Qsum_cons, IH.
    rewrite <- Qsum_map_plus.
    apply Qsum_map_ext. intros b _. rewrite Qsum_cons. reflexivity.
Qed.

Lemma Sum2_swap (A : list string) (f : string -> string -> Q) :
  Sum2 A f == Sum2 A (fun a j => f j a).
Proof.
  unfold Sum2. rewrite !Qsum_flat_map. apply Qsum_exchange.
Qed.
End GamsFacts.

(** ** GAMSPy: the solve protocol *)

Module GamsProtocol.
Import Gams.

(** C1.  In lexicographic mode ([consider_risk] true, [profit_weight < 0])
    [main] performs exactly two solves.  The first maximises the objective
    with [alpha = 1], which is the net profit alone, on the five base
    equations (no downside-risk equation, no bound on the net profit).  The
    second sees the lower bound [(1 - 0.1) * netProfit*] on the net profit,
    where [netProfit*] is the level the first solve returned, and maximises
    the objective with [alpha = 0], which is [- D].  The downside-risk
    equation, however, is only appended to the Python list
    [model.equations]: the model statement of the second solve is the one of
    the first, the five equations the model was constructed with, so phase 2
    minimises [D] without the downside-risk constraint. *)
Theorem C1_lexicographic_two_solves
    (solver : SolveCall -> Levels) (profit_weight : Q) :
  profit_weight < 0 ->
  exists c1 c2 lo,
    solves (main solver profit_weight true) = [c1; c2]
    /\ (* phase 1 *)
       call_alpha c1 = 1
    /\ (forall np d, objective (call_alpha c1) np d == np)
    /\ sense (call_model c1) = MAX
    /\ statement (call_model c1) = base_equations
    /\ call_profit_lo c1 = None
    /\ (* between the phases *)
       call_profit_lo c2 = Some lo
    /\ lo == (1 - (1 # 10)) * profit_objective_variable_l (solver c1)
    /\ (* phase 2 *)
       equations (call_model c2) = base_equations ++ [risk_equation]
    /\ statement (call_model c2) = base_equations
    /\ (risk_equation ∉ statement (call_model c2))
    /\ call_alpha c2 = 0
    /\ (forall np d, objective (call_alpha c2) np d == - d)
    /\ sense (call_model c2) = MAX.
Proof.
  intros Hneg. apply Qltb_lt in Hneg.
  unfold main. rewrite Hneg. cbn.
  eexists _, _, _. split; [reflexivity|]. cbn.
  repeat split.
  - intros np d. unfold objective. ring.
  - ring.
  - intros Hin. unfold base_equations in Hin.
    repeat (apply elem_of_cons in Hin as [Hin|Hin]; [discriminate|]).
    inversion Hin.
  - intros np d. unfold objective. ring.
Qed.

Lemma C1_lexicographic_two_solves_witness :
  exists c1 c2 lo,
    solves (main Examples.gams_stub (- (1)) true) = [c1; c2]
    /\ call_alpha c1 = 1
    /\ (forall np d, objective (call_alpha c1) np d == np)
    /\ sense (call_model c1) = MAX
    /\ statement (call_model c1) = base_equations
    /\ call_profit_lo c1 = None
    /\ call_profit_lo c2 = Some lo
    /\ lo == (1 - (1 # 10)) * profit_objective_variable_l (Examples.gams_stub c1)
    /\ equations (call_model c2) = base_equations ++ [risk_equation]
    /\ statement (call_model c2) = base_equations
    /\ (risk_equation ∉ statement (call_model c2))
    /\ call_alpha c2 = 0
    /\ (forall np d, objective (call_alpha c2) np d == - d)
    /\ sense (call_model c2) = MAX.
Proof.
  apply (C1_lexicographic_two_solves Examples.gams_stub (- (1))).
  reflexivity.
Defined.

(** C7.  In weighted mode ([consider_risk] true, [profit_weight >= 0])
    [main] performs exactly one solve, and the maximised objective is
    [profit_weight * netProfit - (1 - profit_weight) * D]: the net profit
    alone at weight 1, [- D] at weight 0.  The downside-risk equation is
    appended to the Python list [model.equations] before the solve, but the
    model statement is still the five equations the model was constructed
    with: the solve runs without the downside-risk constraint.  The Xpress
    formulation of the same mode does hold the constraint, and its two
    objective weights blend to the same expression. *)
Theorem C7_weighted_single_solve
    (solver : SolveCall -> Levels) (profit_weight : Q) :
  0 <= profit_weight ->
  exists c,
    solves (main solver profit_weight true) = [c]
    /\ equations (call_model c) = base_equations ++ [risk_equation]
    /\ statement (call_model c) = base_equations
    /\ (risk_equation ∉ statement (call_model c))
    /\ sense (call_model c) = MAX
    /\ (forall np d,
          objective (call_alpha c) np d
          == profit_weight * np - (1 - profit_weight) * d)
    /\ (profit_weight == 1 -> forall np d, objective (call_alpha c) np d == np)
    /\ (profit_weight == 0 -> forall np d, objective (call_alpha c) np d == - d)
    /\ (forall p rwl z np d,
          let m := Xpress.formulate p rwl true z profit_weight in
          Xpress.risk_constraint m = Some z
          /\ Xpress.sense m = Xpress.maximize
          /\ Xpress.blended (Xpress.objectives m) [np; d]
             == profit_weight * np - (1 - profit_weight) * d).
Proof.
  intros Hpos.
  assert (Hlt : Qltb profit_weight 0 = false) by now apply Qltb_ge.
  assert (Hle : Qle_bool 0 profit_weight = true) by now apply Qle_bool_iff.
  unfold main. rewrite Hlt. cbn.
  eexists. split; [reflexivity|]. cbn.
  repeat split.
  all: try (intros np d; unfold objective; ring).
  all: try (intros Hw np d; unfold objective; rewrite Hw; ring).
  - intros Hin. unfold base_equations in Hin.
    repeat (apply elem_of_cons in Hin as [Hin|Hin]; [discriminate|]).
    inversion Hin.
  - rewrite Hle. reflexivity.
  - rewrite Hle. reflexivity.
  - rewrite Hle. unfold Xpress.blended, Qsum. simpl. ring.
Qed.

Lemma C7_weighted_single_solve_witness :
  exists c,
    solves (main Examples.gams_stub (1 # 2) true) = [c]
    /\ equations (call_model c) = base_equations ++ [risk_equation]
    /\ statement (call_model c) = base_equations
    /\ (risk_equation ∉ statement (call_model c))
    /\ sense (call_model c) = MAX
    /\ (forall np d,
          objective (call_alpha c) np d == (1 # 2) * np - (1 - (1 # 2)) * d)
    /\ ((1 # 2) == 1 -> forall np d, objective (call_alpha c) np d == np)
    /\ ((1 # 2) == 0 -> forall np d, objective (call_alpha c) np d == - d)
    /\ (forall p rwl z np d,
          let m := Xpress.formulate p rwl true z (1 # 2) in
          Xpress.risk_constraint m = Some z
          /\ Xpress.sense m = Xpress.maximize
          /\ Xpress.blended (Xpress.objectives m) [np; d]
             == (1 # 2) * np - (1 - (1 # 2)) * d).
Proof.
  apply (C7_weighted_single_solve Examples.gams_stub (1 # 2)).
  discriminate.
Defined.
End GamsProtocol.

(** ** GAMSPy: symmetry of the variance double sum *)

Module GamsVariance.
Import Gams GamsFacts.

(** With symmetric correlation records each summand equals its transpose. *)
Lemma variance_term_sym (A : list string) (profit_stdev : dict string Q)
    (correlation_matrix : dict (string * string) Q)
    (E : dict string Q) (T : Q) (a j : string) :
  symmetric A correlation_matrix -> a ∈ A -> j ∈ A ->
  variance_term profit_stdev correlation_matrix E T a j
  == variance_term profit_stdev correlation_matrix E T j a.
Proof.
  intros Hsym Ha Hj. unfold variance_term.
  rewrite (Hsym a j Ha Hj).
  unfold Qdiv. ring.
Qed.

(** C9, as amended.  For every correlation matrix, symmetric or not, every
    assignment of per-asset exposures and every total exposure [T > 0], the
    variance double sum is unchanged when the roles of the two asset indices
    are swapped. *)
Theorem C9_variance_swap_invariant (A : list string)
    (profit_stdev : dict string Q)
    (correlation_matrix : dict (string * string) Q)
    (E : dict string Q) (T : Q) :
  0 < T ->
  variance A profit_stdev correlation_matrix E T
  == variance_swapped A profit_stdev correlation_matrix E T.
Proof.
  intros _. unfold variance, variance_swapped.
  apply (Sum2_swap A (variance_term profit_stdev correlation_matrix E T)).
Qed.

Lemma C9_variance_swap_invariant_witness :
  variance Examples.assets2 Examples.stdev2 Examples.corr_sym
    Examples.exposures2 2200
  == variance_swapped Examples.assets2 Examples.stdev2 Examples.corr_sym
       Examples.exposures2 2200.
Proof.
  apply (C9_variance_swap_invariant Examples.assets2 Examples.stdev2
           Examples.corr_sym Examples.exposures2 2200).
  reflexivity.
Defined.

(** C9, as stated, fails: the invariance does not need the symmetry.  The
    records [Examples.corr_asym] are not symmetric, and the double sum is
    still invariant under the swap, at the given exposures and at all
    others. *)
Lemma C9_symmetry_not_required :
  ~ symmetric Examples.assets2 Examples.corr_asym
  /\ variance Examples.assets2 Examples.stdev2 Examples.corr_asym
       Examples.exposures2 2200
     == variance_swapped Examples.assets2 Examples.stdev2 Examples.corr_asym
          Examples.exposures2 2200
  /\ forall profit_stdev E T,
       variance Examples.assets2 profit_stdev Examples.corr_asym E T
       == variance_swapped Examples.assets2 profit_stdev Examples.corr_asym E T.
Proof.
  split; [|split].
  - intros Hsym.
    specialize (Hsym "A1"%string "A2"%string).
    assert (H : value_of Examples.corr_asym ("A1"%string, "A2"%string)
                == value_of Examples.corr_asym ("A2"%string, "A1"%string)).
    { apply Hsym; unfold Examples.assets2;
        repeat (apply elem_of_cons; first [left; reflexivity | right]). }
    vm_compute in H. discriminate.
  - vm_compute. reflexivity.
  - intros profit_stdev E T. unfold variance, variance_swapped.
    apply (Sum2_swap Examples.assets2
             (variance_term profit_stdev Examples.corr_asym E T)).
Qed.
End GamsVariance.

(** ** GAMSPy: the remaining mode, the bound between the two solves, and
    the scale of the variance *)

Module GamsModes.
Import Gams.

(** X17.  When risk is not considered, [main] performs exactly one solve,
    whatever the profit weight: a QCP on the five base equations, without
    the downside-risk equation and without a bound on the net profit, that
    maximises the objective at [alpha = 1], the net profit alone.  The Xpress
    formulation of that mode has no downside-risk constraint and does not
    depend on the profit weight or the z-score either. *)
Theorem X17_risk_ignored_single_solve (solver : SolveCall -> Levels)
    (profit_weight : Q) :
  exists c,
    solves (main solver profit_weight false) = [c]
    /\ call_alpha c = 1
    /\ (forall np d, objective (call_alpha c) np d == np)
    /\ problem (call_model c) = QCP
    /\ sense (call_model c) = MAX
    /\ equations (call_model c)
       = [risk_weight; segment_relationship; asset_exposure; total_exposure;
          profit_equation]
    /\ call_profit_lo c = None
    /\ levels (main solver profit_weight false) = solver c
    /\ (forall profit_weight',
          main solver profit_weight' false = main solver profit_weight false)
    /\ (forall p rwl z z' profit_weight',
          Xpress.formulate p rwl false z profit_weight
          = Xpress.formulate p rwl false z' profit_weight'
          /\ Xpress.risk_constraint (Xpress.formulate p rwl false z profit_weight)
             = None).
Proof.
  eexists. split; [reflexivity|]. cbn.
  split; [reflexivity|]. split; [intros np d; unfold objective; ring|].
  repeat split.
Qed.

(** X18.  In lexicographic mode the lower bound the second solve sees on the
    net profit is nine tenths of the level [l] the first solve returned.  It
    is at most [l] when [l] is not negative; when [l] is negative it lies
    strictly above [l], so the second solve is asked for more net profit than
    the first one reached.  The first solve is a QCP, the second an NLP, and
    the levels [main] ends with are those of the second solve. *)
Theorem X18_lexicographic_bound (solver : SolveCall -> Levels)
    (profit_weight : Q) :
  profit_weight < 0 ->
  exists c1 c2 lo,
    solves (main solver profit_weight true) = [c1; c2]
    /\ call_profit_lo c2 = Some lo
    /\ lo == (9 # 10) * profit_objective_variable_l (solver c1)
    /\ (0 <= profit_objective_variable_l (solver c1) ->
        lo <= profit_objective_variable_l (solver c1))
    /\ (profit_objective_variable_l (solver c1) < 0 ->
        profit_objective_variable_l (solver c1) < lo)
    /\ problem (call_model c1) = QCP
    /\ problem (call_model c2) = NLP
    /\ levels (main solver profit_weight true) = solver c2.
Proof.
  intros Hneg. apply Qltb_lt in Hneg.
  unfold main. rewrite Hneg. cbn.
  eexists _, _, _. split; [reflexivity|]. cbn.
  split; [reflexivity|].
  set (l := profit_objective_variable_l _).
  split; [ring|]. split; [intros H; lra|]. split; [intros H; lra|].
  repeat split.
Qed.

Lemma X18_lexicographic_bound_witness :
  exists c1 c2 lo,
    solves (main Examples.gams_stub_loss (- (1)) true) = [c1; c2]
    /\ call_profit_lo c2 = Some lo
    /\ profit_objective_variable_l (Examples.gams_stub_loss c1) == - (100)
    /\ lo == - (90)
    /\ profit_objective_variable_l (Examples.gams_stub_loss c1) < lo.
Proof.
  destruct (X18_lexicographic_bound Examples.gams_stub_loss (- (1)))
    as (c1 & c2 & lo & Hs & Hlo & Heq & _ & Hlt & _); [reflexivity|].
  exists c1, c2, lo. split; [exact Hs|]. split; [exact Hlo|].
  split; [reflexivity|]. split; [rewrite Heq; reflexivity|].
  apply Hlt. reflexivity.
Defined.

Lemma value_of_scaled {K : Type} `{EqDecision K} (c : Q) (records : dict K Q)
    (k : K) :
  value_of (scaled c records) k == c * value_of records k.
Proof.
  unfold value_of, scaled.
  induction records as [|[k' v] records IH]; simpl; [ring|].
  destruct (decide (k = k')); [reflexivity|exact IH].
Qed.

Lemma Sum2_ext (A : list string) (f g : string -> string -> Q) :
  (forall a j, f a j == g a j) -> Sum2 A f == Sum2 A g.
Proof.
  intros H. unfold Sum2. rewrite !Qsum_flat_map.
  apply Qsum_map_ext. intros a _. apply Qsum_map_ext. intros j _. apply H.
Qed.

(** X19.  The variance double sum depends on the exposures only through
    their shares of the total: for a total exposure that is not 0 (the
    expression divides by its square), multiplying every per-asset exposure
    and the total exposure by the same factor, not 0, leaves it unchanged. *)
Theorem X19_variance_scale_invariant (A : list string)
    (profit_stdev : dict string Q)
    (correlation_matrix : dict (string * string) Q)
    (E : dict string Q) (T c : Q) :
  ~ T == 0 ->
  ~ c == 0 ->
  variance A profit_stdev correlation_matrix (scaled c E) (c * T)
  == variance A profit_stdev correlation_matrix E T.
Proof.
  intros HT Hc. unfold variance. apply Sum2_ext. intros a j.
  unfold variance_term. rewrite !value_of_scaled.
  field. split; assumption.
Qed.

Lemma X19_variance_scale_invariant_witness :
  variance Examples.assets2 Examples.stdev2 Examples.corr_sym
    (scaled 2 Examples.exposures2) (2 * 2200)
  == variance Examples.assets2 Examples.stdev2 Examples.corr_sym
       Examples.exposures2 2200.
Proof.
  apply (X19_variance_scale_invariant Examples.assets2 Examples.stdev2
           Examples.corr_sym Examples.exposures2 2200 2);
    discriminate.
Defined.
End GamsModes.
